(** * bulker: stream lifecycle of the file-storage and transactional SQL streams

    A shallow embedding of
    - [implementations/file_storage/abstract.go] (AbstractFileStorageStream),
    - the transactional SQL stream (AbstractTransactionalSQLStream) and
    - the ReplacePartition strategy (ReplacePartitionStream),
    with the properties the specification states about them.

    Conventions.
    - A Go [error] is an [option error]: [None] is [nil].
    - A Go method that mutates its receiver takes the stream and returns the
      new stream together with what the method returns.
    - Calls that leave the repository (the operating system, the file adapter,
      the SQL adapter, the marshallers) answer from an environment record that
      is an argument of the call: the environment fixes which of them fail and
      with what error.
    - A run-time panic (a method called through a nil interface or a nil
      [*os.File]) is the outcome [Panicked]; deferred functions still run.
    - Counters are [nat]: Go's [int] has 64 bits here and every counter grows
      by one per call, so the wrap-around is out of reach.
    - Logging is left out. The event times of the file-storage stream read
      and write nothing else of the stream; they are modelled on their own
      ([EventTime]).

    Beside the streams the development covers the string helpers of
    [jitsubase/utils/strings.go] ([Utils]), the streams repository
    ([Repository]) and the ingress manager ([Ingress]). *)

From Stdlib Require Import Ascii.
From stdpp Require Import base gmap sets list strings pretty sorting.

Local Open Scope string_scope.
Local Open Scope list_scope.
Local Open Scope stdpp_scope.

(** ** Shared vocabulary *)

Abbreviation error := string (only parsing).

(** What a call does: it returns (with its error result) or it panics. *)
Inductive outcome :=
| Returned (err : option error)
| Panicked.

(** [errorj.Decorate(err, msg)]: the error with a message in front.
    Modelled from the spec: errors "surface verbatim (decorated)"; the errorj
    package is not among the embedded sources. *)
Definition Decorate (err : error) (msg : string) : error := msg +:+ ": " +:+ err.

(** Values of an event object after flattening: [types.Object] is
    [map[string]any]. *)
Inductive Value :=
| VNil
| VBool (b : bool)
| VInt (n : Z)
| VStr (s : string).

#[global] Instance Value_eq_dec : EqDecision Value.
Proof. solve_decision. Defined.

Abbreviation Object := (gmap string Value) (only parsing).

(** [fmt.Sprint] on a value; a missing value is the nil interface. *)
Definition Sprint (v : Value) : string :=
  match v with
  | VNil => "<nil>"
  | VBool true => "true"
  | VBool false => "false"
  | VInt n => pretty n
  | VStr s => s
  end.

(** [bulker.Status] and [bulker.State].
    Modelled from the spec: the bulker package is not among the embedded
    sources; the fields are those of the spec's stream state that the streams
    read and write. *)
Inductive Status := Active | Completed | Failed | Aborted.

#[global] Instance Status_eq_dec : EqDecision Status.
Proof. solve_decision. Defined.

Record State := mkState {
  Status_ : Status;
  ProcessedRows : nat;
  SuccessfulRows : nat;
  ErrorRowIndex : nat;
  LastError : option error
}.

Definition set_Status (s : Status) (st : State) : State :=
  mkState s (ProcessedRows st) (SuccessfulRows st) (ErrorRowIndex st) (LastError st).
Definition set_SuccessfulRows (n : nat) (st : State) : State :=
  mkState (Status_ st) (ProcessedRows st) n (ErrorRowIndex st) (LastError st).
Definition set_ProcessedRows (n : nat) (st : State) : State :=
  mkState (Status_ st) n (SuccessfulRows st) (ErrorRowIndex st) (LastError st).
Definition set_ErrorRowIndex (n : nat) (st : State) : State :=
  mkState (Status_ st) (ProcessedRows st) (SuccessfulRows st) n (LastError st).

(** [State.SetError].
    Modelled from the spec: "error capture" records the error as [lastError]. *)
Definition SetError (err : error) (st : State) : State :=
  mkState (Status_ st) (ProcessedRows st) (SuccessfulRows st) (ErrorRowIndex st) (Some err).

(** The state a constructor starts from: [bulker.State{Status: bulker.Active}]. *)
Definition newState : State := mkState Active 0 0 0 None.

(** [bulker.StreamOptions], read through [XOption.Get]; an option that was not
    given reads as Go's zero value.
    Modelled from the spec: the option table of the external interface. *)
Record StreamOptions := mkOptions {
  MergeRowsOption : bool;
  PrimaryKeyOption : list string;
  TimestampOption : string;
  PartitionIdOption : string;
  localBatchFileOption : string;
  s3BatchFileOption : option string
}.

Definition noOptions : StreamOptions := mkOptions false [] EmptyString EmptyString EmptyString None.

(** ** Marshallers and files *)

Inductive FileFormat :=
| FileFormatCSV
| FileFormatNDJSON
| FileFormatNDJSONFLAT
| FileFormatAVRO
| FileFormatOther.

Inductive FileCompression :=
| FileCompressionNONE
| FileCompressionGZIP
| FileCompressionOther.

#[global] Instance FileFormat_eq_dec : EqDecision FileFormat.
Proof. solve_decision. Defined.
#[global] Instance FileCompression_eq_dec : EqDecision FileCompression.
Proof. solve_decision. Defined.

(** A line of a batch file: a header, or one object written in a format. *)
Inductive Line :=
| HeaderLine (cols : list string)
| DataLine (f : FileFormat) (o : Object).

(** The objects a reader of the file gets back, in file order. *)
Definition objectsOf (lines : list Line) : list Object :=
  omap (fun l => match l with DataLine _ o => Some o | HeaderLine _ => None end) lines.

(** An [*os.File]: its name, what was written to it, and whether it was closed
    and removed. *)
Record File := mkFile {
  fname : string;
  flines : list Line;
  fclosed : bool;
  fremoved : bool
}.

Definition closeAndRemove (f : File) : File := mkFile (fname f) (flines f) true true.

(** [types.Marshaller].
    Modelled from the spec: NDJSON and NDJSON-flat write no header, CSV needs
    one, [Equal] is identity of format and compression, [Init] is idempotent
    and writes the header once. *)
Record Marshaller := mkMarshaller {
  Format : FileFormat;
  Compression : FileCompression;
  mInited : bool
}.

Definition NeedHeader (m : Marshaller) : bool := bool_decide (Format m = FileFormatCSV).

Definition Marshaller_Equal (m other : Marshaller) : bool :=
  bool_decide (Format m = Format other) && bool_decide (Compression m = Compression other).

Definition NewMarshaller (f : FileFormat) (c : FileCompression) : Marshaller + error :=
  match f, c with
  | FileFormatOther, _ => inr "Unknown file format"
  | _, FileCompressionOther => inr "Unknown file compression"
  | _, _ => inl (mkMarshaller f c false)
  end.

(** [&types.JSONMarshaller{}]: plain NDJSON. *)
Definition JSONMarshaller : Marshaller := mkMarshaller FileFormatNDJSON FileCompressionNONE false.

(** [sort.Strings] on the elements of a set of column names. *)
Definition string_le (a b : string) : Prop := String.leb a b = true.

#[global] Instance string_le_dec : RelDecision string_le.
Proof. intros a b. unfold string_le. apply _. Defined.

Definition sortedStrings (s : gset string) : list string :=
  merge_sort string_le (elements s).

(** Writing lines to a file; a closed file refuses. *)
Definition writeLines (ls : list Line) (f : File) : File * option error :=
  if fclosed f then (f, Some "file already closed")
  else (mkFile (fname f) (flines f ++ ls) (fclosed f) (fremoved f), None).

(** Writing through a possibly nil [*os.File]. *)
Definition writeLinesTo (ls : list Line) (f : option File) : option File * option error :=
  match f with
  | None => (None, Some "invalid argument")
  | Some f => let '(f, err) := writeLines ls f in (Some f, err)
  end.

(** [batchFile.Sync()]: a nil [*os.File] answers [os.ErrInvalid], otherwise the
    file system decides. *)
Definition syncFile (f : option File) (fs : option error) : option error :=
  match f with
  | None => Some "invalid argument"
  | Some _ => fs
  end.

(** [marshaller.Init(file, header)]: the marshaller after the call and the
    lines it writes to the file. *)
Definition Marshaller_Init (m : Marshaller) (header : list string)
  : Marshaller * list Line :=
  if mInited m then (m, [])
  else (mkMarshaller (Format m) (Compression m) true,
        if NeedHeader m then [HeaderLine header] else []).

(** Decoding a line as one JSON object. *)
Definition jsonDecode (l : Line) : Object + error :=
  match l with
  | DataLine FileFormatNDJSON o => inl o
  | DataLine FileFormatNDJSONFLAT o => inl o
  | _ => inr "invalid character looking for beginning of value"
  end.

(** [bufio.MaxScanTokenSize]: what a [bufio.Scanner] holds when [Buffer] was
    not called. A line and its terminator must fit. *)
Definition MaxScanTokenSize : N := 65536%N.

(** A lower bound on the bytes a line takes on disk: the characters of its
    column names and of its string values. *)
Definition valueSize (v : Value) : N :=
  match v with
  | VStr s => N.of_nat (String.length s)
  | _ => 1%N
  end.

Definition lineSize (l : Line) : N :=
  match l with
  | HeaderLine cols => N.of_nat (length cols)
  | DataLine _ o =>
      map_fold (fun k v acc => (acc + N.of_nat (String.length k) + valueSize v)%N) 0%N o
  end.

(** ** utils.SanitizeString *)

(** [IsLetterOrNumber] on a character. *)
Definition IsLetterOrNumber (c : Ascii.ascii) : bool :=
  let n := Ascii.nat_of_ascii c in
  (((97 <=? n) && (n <=? 122)) || ((65 <=? n) && (n <=? 90)) || ((48 <=? n) && (n <=? 57)))%nat.

(** [SanitizeString]: every maximal run of characters outside [a-zA-Z0-9_]
    becomes one underscore. [inRun] tells that the previous character was
    part of such a run. *)
Fixpoint sanitizeFrom (inRun : bool) (s : string) : string :=
  match s with
  | EmptyString => EmptyString
  | String c rest =>
      if IsLetterOrNumber c || bool_decide (c = "_"%char)
      then String c (sanitizeFrom false rest)
      else if inRun then sanitizeFrom true rest
           else String "_"%char (sanitizeFrom true rest)
  end.

Definition SanitizeString (s : string) : string := sanitizeFrom false s.

(** ** The file-storage stream (implementations/file_storage/abstract.go) *)

Module FileStorage.

(** What the world outside the stream answers during one call. *)
Record Env := mkEnv {
  fileAdapter_Format : FileFormat;           (* fileAdapter.Format() *)
  fileAdapter_Compression : FileCompression; (* fileAdapter.Compression() *)
  CreateTemp_err : option error;             (* os.CreateTemp *)
  FlattenObject : Object -> Object + error;  (* DefaultFlattener.FlattenObject *)
  pkRange : list string;                     (* the order in which range visits pkColumns *)
  Marshal_err : Object -> option error;      (* marshaller.Marshal *)
  Flush_err : option error;                  (* marshaller.Flush *)
  Sync_err : option error;                   (* batchFile.Sync *)
  Init_err : option error;                   (* targetMarshaller.Init *)
  Open_err : option error;                   (* os.Open *)
  targetMarshal_err : Object -> option error;(* targetMarshaller.Marshal *)
  Write_err : option error;                  (* workingFile.Write *)
  Seek_err : option error;                   (* workingFile.Seek *)
  Upload_err : option error;                 (* fileAdapter.Upload *)
  lineBytes : Line -> N                      (* size of a line on disk, in bytes *)
}.

(** An environment in which nothing fails. *)
Definition quiet (f : FileFormat) (c : FileCompression) (order : list string) : Env :=
  mkEnv f c None inl order (fun _ => None) None None None None (fun _ => None)
        None None None lineSize.

Record AbstractFileStorageStream := mkStream {
  id : string;
  flatten : bool;
  merge : bool;
  pkColumns : gset string;
  timestampColumn : string;
  batchFile : option File;
  marshaller : option Marshaller;
  targetMarshaller : option Marshaller;
  eventsInBatch : nat;
  batchFileLinesByPK : gmap string nat;
  batchFileSkipLines : gset nat;
  csvHeader : gset string;
  state : State;
  inited : bool
}.

Definition set_flatten (v : bool) (ps : AbstractFileStorageStream) :=
  mkStream (id ps) v (merge ps) (pkColumns ps) (timestampColumn ps) (batchFile ps)
    (marshaller ps) (targetMarshaller ps) (eventsInBatch ps) (batchFileLinesByPK ps)
    (batchFileSkipLines ps) (csvHeader ps) (state ps) (inited ps).
Definition set_batchFile (v : option File) (ps : AbstractFileStorageStream) :=
  mkStream (id ps) (flatten ps) (merge ps) (pkColumns ps) (timestampColumn ps) v
    (marshaller ps) (targetMarshaller ps) (eventsInBatch ps) (batchFileLinesByPK ps)
    (batchFileSkipLines ps) (csvHeader ps) (state ps) (inited ps).
Definition set_marshaller (v : option Marshaller) (ps : AbstractFileStorageStream) :=
  mkStream (id ps) (flatten ps) (merge ps) (pkColumns ps) (timestampColumn ps) (batchFile ps)
    v (targetMarshaller ps) (eventsInBatch ps) (batchFileLinesByPK ps)
    (batchFileSkipLines ps) (csvHeader ps) (state ps) (inited ps).
Definition set_targetMarshaller (v : option Marshaller) (ps : AbstractFileStorageStream) :=
  mkStream (id ps) (flatten ps) (merge ps) (pkColumns ps) (timestampColumn ps) (batchFile ps)
    (marshaller ps) v (eventsInBatch ps) (batchFileLinesByPK ps)
    (batchFileSkipLines ps) (csvHeader ps) (state ps) (inited ps).
Definition set_eventsInBatch (v : nat) (ps : AbstractFileStorageStream) :=
  mkStream (id ps) (flatten ps) (merge ps) (pkColumns ps) (timestampColumn ps) (batchFile ps)
    (marshaller ps) (targetMarshaller ps) v (batchFileLinesByPK ps)
    (batchFileSkipLines ps) (csvHeader ps) (state ps) (inited ps).
Definition set_batchFileLinesByPK (v : gmap string nat) (ps : AbstractFileStorageStream) :=
  mkStream (id ps) (flatten ps) (merge ps) (pkColumns ps) (timestampColumn ps) (batchFile ps)
    (marshaller ps) (targetMarshaller ps) (eventsInBatch ps) v
    (batchFileSkipLines ps) (csvHeader ps) (state ps) (inited ps).
Definition set_batchFileSkipLines (v : gset nat) (ps : AbstractFileStorageStream) :=
  mkStream (id ps) (flatten ps) (merge ps) (pkColumns ps) (timestampColumn ps) (batchFile ps)
    (marshaller ps) (targetMarshaller ps) (eventsInBatch ps) (batchFileLinesByPK ps)
    v (csvHeader ps) (state ps) (inited ps).
Definition set_csvHeader (v : gset string) (ps : AbstractFileStorageStream) :=
  mkStream (id ps) (flatten ps) (merge ps) (pkColumns ps) (timestampColumn ps) (batchFile ps)
    (marshaller ps) (targetMarshaller ps) (eventsInBatch ps) (batchFileLinesByPK ps)
    (batchFileSkipLines ps) v (state ps) (inited ps).
Definition set_state (v : State) (ps : AbstractFileStorageStream) :=
  mkStream (id ps) (flatten ps) (merge ps) (pkColumns ps) (timestampColumn ps) (batchFile ps)
    (marshaller ps) (targetMarshaller ps) (eventsInBatch ps) (batchFileLinesByPK ps)
    (batchFileSkipLines ps) (csvHeader ps) v (inited ps).
Definition set_inited (v : bool) (ps : AbstractFileStorageStream) :=
  mkStream (id ps) (flatten ps) (merge ps) (pkColumns ps) (timestampColumn ps) (batchFile ps)
    (marshaller ps) (targetMarshaller ps) (eventsInBatch ps) (batchFileLinesByPK ps)
    (batchFileSkipLines ps) (csvHeader ps) (state ps) v.

(** [newAbstractFileStorageStream]. The Go function hands back a zero-valued
    struct next to the error; a caller gets either a stream or an error. The
    maps of a stream that does not merge stay nil, which reads as empty. *)
Definition newAbstractFileStorageStream (id : string) (options : StreamOptions)
  : AbstractFileStorageStream + error :=
  let merge := MergeRowsOption options in
  let pkColumns := PrimaryKeyOption options in
  if merge && bool_decide (length pkColumns = 0)
  then inr "MergeRows option requires primary key option. Please provide WithPrimaryKey option"
  else inl (mkStream id false merge (list_to_set pkColumns) (TimestampOption options)
              None None None 0 ∅ ∅ ∅ newState false).

(** [init]: the temp file, the two marshallers and the flatten switch. *)
Definition init (env : Env) (ps : AbstractFileStorageStream)
  : AbstractFileStorageStream * option error :=
  if inited ps then (ps, None)
  else
    match batchFile ps with
    | None =>
        match CreateTemp_err env with
        | Some e => (ps, Some e)
        | None =>
            let ps := set_batchFile
                        (Some (mkFile ("bulker_" +:+ SanitizeString (id ps)) [] false false)) ps in
            let ps := set_marshaller (Some JSONMarshaller) ps in
            match NewMarshaller (fileAdapter_Format env) (fileAdapter_Compression env) with
            | inr e => (set_targetMarshaller None ps, Some e)
            | inl tm =>
                let ps := set_targetMarshaller (Some tm) ps in
                let ps :=
                  if bool_decide (fileAdapter_Format env = FileFormatCSV)
                     || bool_decide (fileAdapter_Format env = FileFormatNDJSONFLAT)
                  then set_flatten true ps else ps in
                (set_inited true ps, None)
            end
        end
    | Some _ => (set_inited true ps, None)
    end.

Definition preprocess (env : Env) (ps : AbstractFileStorageStream) (object : Object)
  : Object + error :=
  if flatten ps then FlattenObject env object else inl object.

Definition postConsume (ps : AbstractFileStorageStream) (err : option error)
  : AbstractFileStorageStream * option error :=
  match err with
  | Some e =>
      let st := set_ErrorRowIndex (ProcessedRows (state ps)) (state ps) in
      (set_state (SetError e st) ps, Some e)
  | None =>
      (set_state (set_SuccessfulRows (S (SuccessfulRows (state ps))) (state ps)) ps, None)
  end.

(** [postComplete]: [Name] on a nil [*os.File] panics before the status is
    touched. *)
Definition postComplete (ps : AbstractFileStorageStream) (err : option error)
  : AbstractFileStorageStream * outcome :=
  match batchFile ps with
  | None => (ps, Panicked)
  | Some f =>
      let ps := set_batchFile (Some (closeAndRemove f)) ps in
      match err with
      | Some e =>
          (set_state (set_Status Failed (SetError e (state ps))) ps, Returned (Some e))
      | None =>
          (set_state (set_Status Completed (state ps)) ps, Returned None)
      end
  end.

(** The multi-column loop of [getPKValue]: the builder after the columns in
    range order. *)
Fixpoint pkBuilder (object : Object) (cols : list string) : string :=
  match cols with
  | [] => EmptyString
  | col :: rest =>
      match object !! col with
      | Some pkValue => Sprint pkValue +:+ "_" +:+ pkBuilder object rest
      | None => pkBuilder object rest
      end
  end.

Definition getPKValue (env : Env) (ps : AbstractFileStorageStream) (object : Object)
  : string + error :=
  let l := size (pkColumns ps) in
  if bool_decide (l = 0) then inr "primary key is not set"
  else
    let multi :=
      let b := pkBuilder object (pkRange env) in
      if bool_decide (0 < String.length b) then inl b
      else inr "primary key columns not found in the object" in
    if bool_decide (l = 1) then
      match pkRange env with
      | col :: _ =>
          match object !! col with
          | None => inr ("primary key [" +:+ col +:+ "] is not found in the object")
          | Some pkValue => inl (Sprint pkValue)
          end
      | [] => multi
      end
    else multi.

Definition writeToBatchFile (env : Env) (ps : AbstractFileStorageStream)
  (processedObject : Object) : AbstractFileStorageStream * outcome :=
  let header := sortedStrings (csvHeader ps) in
  match marshaller ps with
  | None => (ps, Panicked)
  | Some m =>
      let '(m, hdr) := Marshaller_Init m header in
      let ps := set_marshaller (Some m) ps in
      let ps := set_batchFile (fst (writeLinesTo hdr (batchFile ps))) ps in
      let dedup :=
        if merge ps then
          match getPKValue env ps processedObject with
          | inr e => inr e
          | inl pk =>
              let ps :=
                match batchFileLinesByPK ps !! pk with
                | Some line => set_batchFileSkipLines ({[line]} ∪ batchFileSkipLines ps) ps
                | None => ps
                end in
              let lineNumber := eventsInBatch ps in
              let lineNumber := if NeedHeader m then S lineNumber else lineNumber in
              inl (set_batchFileLinesByPK (<[pk := lineNumber]> (batchFileLinesByPK ps)) ps)
          end
        else inl ps in
      match dedup with
      | inr e => (ps, Returned (Some e))
      | inl ps =>
          let marshalled :=
            match Marshal_err env processedObject with
            | Some e => (batchFile ps, Some e)
            | None => writeLinesTo [DataLine (Format m) processedObject] (batchFile ps)
            end in
          match marshalled with
          | (_, Some e) => (ps, Returned (Some (Decorate e "failed to marshall into csv file")))
          | (f, None) =>
              let ps := set_batchFile f ps in
              (set_eventsInBatch (S (eventsInBatch ps)) ps, Returned None)
          end
      end
  end.

(** The body of [Consume], before the deferred [postConsume]. *)
Definition Consume_body (env : Env) (ps : AbstractFileStorageStream) (object : Object)
  : AbstractFileStorageStream * outcome :=
  match init env ps with
  | (ps, Some e) => (ps, Returned (Some e))
  | (ps, None) =>
      match preprocess env ps object with
      | inr e => (ps, Returned (Some e))
      | inl processedObject =>
          match targetMarshaller ps with
          | None => (ps, Panicked)
          | Some tm =>
              let ps :=
                if bool_decide (Format tm = FileFormatCSV)
                then set_csvHeader (csvHeader ps ∪ dom processedObject) ps else ps in
              writeToBatchFile env ps processedObject
          end
      end
  end.

(** [Consume]: the state it returns is [state] of the stream it returns. When
    the body panics the named result [err] is still nil, and the deferred
    [postConsume] runs on it. *)
Definition Consume (env : Env) (ps : AbstractFileStorageStream) (object : Object)
  : AbstractFileStorageStream * outcome :=
  match Consume_body env ps object with
  | (ps, Returned err) => let '(ps, err) := postConsume ps err in (ps, Returned err)
  | (ps, Panicked) => (fst (postConsume ps None), Panicked)
  end.

Definition Abort (ps : AbstractFileStorageStream) : AbstractFileStorageStream * outcome :=
  if bool_decide (Status_ (state ps) ≠ Active)
  then (ps, Returned (Some "stream is not active"))
  else
    let ps := set_batchFile (closeAndRemove <$> batchFile ps) ps in
    (set_state (set_Status Aborted (state ps)) ps, Returned None).

(** The scanner loop of [flushBatchFile]: [i] counts the lines read so far,
    [out] is what the working file holds. A line that does not fit the
    scanner's buffer makes [Scan] answer false, which ends the loop like the
    end of the file does; this function does not look at [scanner.Err]. The
    error of [targetMarshaller.Marshal] is dropped, and the object with it. *)
Fixpoint rewriteLines (env : Env) (needToConvert : bool) (tm : Marshaller)
  (skip : gset nat) (i : nat) (lines out : list Line) : list Line + error :=
  match lines with
  | [] => inl out
  | l :: rest =>
      if bool_decide (MaxScanTokenSize ≤ lineBytes env l)%N then inl out
      else if bool_decide (i ∈ skip) then rewriteLines env needToConvert tm skip (S i) rest out
      else if needToConvert then
        match jsonDecode l with
        | inr e => inr (Decorate e "failed to decode json object from batch filer")
        | inl obj =>
            let out :=
              match targetMarshal_err env obj with
              | None => out ++ [DataLine (Format tm) obj]
              | Some _ => out
              end in
            rewriteLines env needToConvert tm skip (S i) rest out
        end
      else
        match Write_err env with
        | Some e => inr (Decorate e "failed write to deduplication file")
        | None => rewriteLines env needToConvert tm skip (S i) rest (out ++ [l])
        end
  end.

(** What [flushBatchFile] hands to [fileAdapter.Upload]. *)
Record Upload := mkUpload {
  rewritten : bool;          (* the working file is a new file, not the batch file *)
  uploaded : list Line
}.

(** [flushBatchFile] up to its deferred clean-up. *)
Definition flushBatchFile_body (env : Env) (ps : AbstractFileStorageStream)
  : AbstractFileStorageStream * outcome * option Upload :=
  if bool_decide (0 < eventsInBatch ps) then
    match marshaller ps with
    | None => (ps, Panicked, None)
    | Some m =>
    match Flush_err env with
    | Some e => (ps, Returned (Some (Decorate e "failed to flush marshaller")), None)
    | None =>
    match syncFile (batchFile ps) (Sync_err env) with
    | Some e => (ps, Returned (Some (Decorate e "failed to sync batch file")), None)
    | None =>
    match targetMarshaller ps with
    | None => (ps, Panicked, None)
    | Some tm =>
      let needToConvert := negb (Marshaller_Equal tm m) in
      let batchLines := from_option flines [] (batchFile ps) in
      let upload (ps : AbstractFileStorageStream) (w : Upload) :=
        match Seek_err env with
        | Some e =>
            (ps, Returned (Some (Decorate e "failed to seek to beginning of tmp file")), None)
        | None =>
            match Upload_err env with
            | Some e =>
                (ps, Returned (Some (Decorate e "failed to flush tmp file to the warehouse")), None)
            | None => (ps, Returned None, Some w)
            end
        end in
      if bool_decide (0 < size (batchFileSkipLines ps)) || needToConvert then
        match CreateTemp_err env with
        | Some e =>
            (ps, Returned (Some (Decorate e "failed to create tmp file for deduplication")), None)
        | None =>
            let inited :=
              if needToConvert then
                match Init_err env with
                | Some e => inr e
                | None => inl (Marshaller_Init tm (sortedStrings (csvHeader ps)))
                end
              else inl (tm, []) in
            match inited with
            | inr e =>
                (ps, Returned (Some (Decorate e "failed to write header for converted batch file")),
                 None)
            | inl (tm, hdr) =>
                let ps := set_targetMarshaller (Some tm) ps in
                match Open_err env with
                | Some e => (ps, Returned (Some (Decorate e "failed to open tmp file")), None)
                | None =>
                    match rewriteLines env needToConvert tm (batchFileSkipLines ps) 0
                            batchLines hdr with
                    | inr e => (ps, Returned (Some e), None)
                    | inl out => upload ps (mkUpload true out)
                    end
                end
            end
        end
      else upload ps (mkUpload false batchLines)
    end end end end
  else (ps, Returned None, None).

(** [flushBatchFile] with its first deferred function: the merge maps are
    reset and the batch file is closed and removed, on every way out. *)
Definition flushBatchFile (env : Env) (ps : AbstractFileStorageStream)
  : AbstractFileStorageStream * outcome * option Upload :=
  let '(ps, out, up) := flushBatchFile_body env ps in
  let ps :=
    if merge ps
    then set_batchFileSkipLines ∅ (set_batchFileLinesByPK ∅ ps) else ps in
  match batchFile ps with
  | None => (ps, Panicked, up)
  | Some f => (set_batchFile (Some (closeAndRemove f)) ps, out, up)
  end.

(** The body of [Complete] after the status check, before the deferred
    [postComplete]. *)
Definition Complete_body (env : Env) (ps : AbstractFileStorageStream)
  : AbstractFileStorageStream * outcome * option Upload :=
  match LastError (state ps) with
  | None =>
      if bool_decide (0 < SuccessfulRows (state ps)) then
        match batchFile ps with
        | Some _ => flushBatchFile env ps
        | None => (ps, Returned None, None)
        end
      else (ps, Returned None, None)
  | Some e => (ps, Returned (Some e), None)
  end.

(** [Complete]. A panic in the body leaves the named result [err] nil for the
    deferred [postComplete], and the panic goes on after it. *)
Definition Complete (env : Env) (ps : AbstractFileStorageStream)
  : AbstractFileStorageStream * outcome * option Upload :=
  if bool_decide (Status_ (state ps) ≠ Active)
  then (ps, Returned (Some "stream is not active"), None)
  else
    match Complete_body env ps with
    | (ps, Returned err, up) => let '(ps, out) := postComplete ps err in (ps, out, up)
    | (ps, Panicked, up) => (fst (postComplete ps None), Panicked, up)
    end.

(** The calls of the stream API, and a stream driven through a list of them. *)
Inductive Call :=
| CallConsume (env : Env) (object : Object)
| CallComplete (env : Env)
| CallAbort.

Definition step (c : Call) (ps : AbstractFileStorageStream)
  : AbstractFileStorageStream * outcome :=
  match c with
  | CallConsume env object => Consume env ps object
  | CallComplete env => let '(ps, out, _) := Complete env ps in (ps, out)
  | CallAbort => Abort ps
  end.

Definition run (calls : list Call) (ps : AbstractFileStorageStream)
  : AbstractFileStorageStream :=
  foldl (fun ps c => fst (step c ps)) ps calls.

(** Consume calls one after the other, as long as each returns nil. *)
Fixpoint ConsumeAll (inputs : list (Env * Object)) (ps : AbstractFileStorageStream)
  : AbstractFileStorageStream * outcome :=
  match inputs with
  | [] => (ps, Returned None)
  | (env, object) :: rest =>
      match Consume env ps object with
      | (ps, Returned None) => ConsumeAll rest ps
      | r => r
      end
  end.

End FileStorage.

(** ** The transactional SQL stream and the ReplacePartition strategy *)

Module Sql.

(** Column types.
    Modelled from the spec: the type lattice of the table model
    (null < bool < int < float < string, timestamp beside string) and its
    widening; the Table type is not among the embedded sources. *)
Inductive DataType := TNull | TBool | TInt | TFloat | TString | TTimestamp.

#[global] Instance DataType_eq_dec : EqDecision DataType.
Proof. solve_decision. Defined.

Definition rank (t : DataType) : nat :=
  match t with
  | TNull => 0 | TBool => 1 | TInt => 2 | TFloat => 3 | TString => 4 | TTimestamp => 4
  end.

Definition widen (a b : DataType) : DataType :=
  match a, b with
  | TNull, x | x, TNull => x
  | TTimestamp, TTimestamp => TTimestamp
  | TTimestamp, _ | _, TTimestamp => TString
  | _, _ => if (rank a <=? rank b)%nat then b else a
  end.

(** A table descriptor.
    Modelled from the spec: name, columns, primary keys, the temporary flag,
    and [Exists()], which is false on the descriptor of a missing table. *)
Record Table := mkTable {
  Name : string;
  Columns : gmap string DataType;
  PKFields : list string;
  Temporary : bool;
  Exists_ : bool
}.

Definition set_Columns (c : gmap string DataType) (t : Table) : Table :=
  mkTable (Name t) c (PKFields t) (Temporary t) (Exists_ t).

(** [&Table{}] *)
Definition zeroTable : Table := mkTable EmptyString ∅ [] false false.

(** The column that marks the rows of a partition.
    Modelled from the spec: the stamped column is [__partition_id]. *)
Definition PartitonIdKeyword : string := "__partition_id".

(** [*TxSQLAdapter]: an open transaction. *)
Inductive TxSQLAdapter := OpenedTx.

(** Through which handle a call reaches the warehouse. *)
Inductive Handle := ViaSqlAdapter | ViaTx.

(** Where [LoadTable] reads from. *)
Inductive LoadSourceType := LocalFile | AmazonS3.

(** The calls a stream makes on the warehouse and on S3, as they are logged. *)
Inductive Op :=
| OpOpenTx
| OpGetTableSchema (h : Handle) (tableName : string)
| OpDelete (h : Handle) (tableName : string) (byPartitionId : string)
| OpCreateTable (t : Table)
| OpLoadTable (t : Table) (src : LoadSourceType) (lines : list Line)
| OpEnsureTableWithCaching (t : Table)
| OpEnsureTableWithoutCaching (t : Table)
| OpInsert (t : Table) (merge : bool) (o : Object)
| OpCopyTables (dst tmp : Table) (merge : bool)
| OpDrop (t : Table)
| OpCommit
| OpRollback
| OpS3Upload (name : string) (lines : list Line)
| OpS3DeleteObject (name : string).

(** The warehouse as the stream sees it: the schema of the destination table
    and the calls made so far, oldest first. *)
Record World := mkWorld {
  destination : Table;
  log : list Op
}.

Definition logOp (op : Op) (w : World) : World := mkWorld (destination w) (log w ++ [op]).

(** What the world outside the stream answers during one call. The adapters,
    [TxSQLAdapter], the table helper and [AbstractSQLStream] are not among the
    embedded sources: each of their calls answers with the error given
    here. [nilTx_panics] leaves open whether a method of [TxSQLAdapter]
    survives a nil receiver. *)
Record Env := mkEnv {
  GetBatchFileFormat : FileFormat;
  GetBatchFileCompression : FileCompression;
  ColumnName : string -> string;
  nilTx_panics : bool;
  NewS3_err : option error;
  CreateTemp_err : option error;
  AbstractSQLStream_init_err : option error;
  OpenTx_err : option error;
  AbstractSQLStream_preprocess : Object -> (Table * Object) + error;
  NewLettersNumbers : string;                    (* uuid.NewLettersNumbers() *)
  MapPutAll : gmap string DataType -> gmap string DataType -> gmap string DataType;
                                                 (* the first map after utils.MapPutAll *)
  GetTableSchema_err : option error;
  Delete_err : option error;
  CreateTable_err : option error;
  InitSchema_err : option error;
  Marshal_err : Object -> option error;
  Flush_err : option error;
  Sync_err : option error;
  targetInitSchema_err : option error;
  Open_err : option error;
  targetMarshal_err : Object -> option error;
  Write_err : option error;
  lineBytes : Line -> N;
  S3Upload_err : option error;
  LoadTable_err : option error;
  EnsureTableWithCaching_err : option error;
  EnsureTableWithoutCaching_err : option error;
  Insert_err : option error;
  CopyTables_err : option error;
  Drop_err : option error;
  Commit_err : option error
}.

(** An environment in which nothing fails. *)
Definition quiet (f : FileFormat) (c : FileCompression)
  (preprocess : Object -> (Table * Object) + error) : Env :=
  mkEnv f c (fun s => s) false None None None None preprocess "a1b2c3d4e5f6"
        (fun a b => b ∪ a) None None None None (fun _ => None) None None None None
        (fun _ => None) None lineSize None None None None None None None None.

(** [AbstractSQLStream], as far as the transactional stream reads and writes
    it. *)
Record AbstractSQLStream := mkAbs {
  id : string;
  tableName : string;
  merge : bool;
  pkColumns : list string;
  options : StreamOptions;
  state : State;
  inited : bool
}.

Definition abs_set_state (v : State) (a : AbstractSQLStream) :=
  mkAbs (id a) (tableName a) (merge a) (pkColumns a) (options a) v (inited a).
Definition abs_set_inited (v : bool) (a : AbstractSQLStream) :=
  mkAbs (id a) (tableName a) (merge a) (pkColumns a) (options a) (state a) v.

(** The type of the field [tmpTableFunc]. The Go closure reads [ps.tx] and
    [ps.tableName] of the stream it belongs to, which are arguments here; it
    answers the table for the object as the call leaves it and the temporary
    table, or nothing when the call panics. The sources disagree on the third
    parameter (the object in the stream, the batch-file flag in
    ReplacePartition); the flag is what the function under study reads. *)
Definition TmpTableFunc : Type :=
  Env -> option TxSQLAdapter -> string -> World -> Table -> bool -> World * option (Table * Table).

Record AbstractTransactionalSQLStream := mkStream {
  abs : AbstractSQLStream;
  tx : option TxSQLAdapter;
  tmpTable : option Table;
  existingTable : Table;
  tmpTableFunc : option TmpTableFunc;
  dstTable : option Table;
  batchFile : option File;
  marshaller : option Marshaller;
  targetMarshaller : option Marshaller;
  eventsInBatch : nat;
  s3 : option string;
  batchFileLinesByPK : gmap string nat;
  batchFileSkipLines : gset nat
}.

Definition set_abs (v : AbstractSQLStream) (ps : AbstractTransactionalSQLStream) :=
  mkStream v (tx ps) (tmpTable ps) (existingTable ps) (tmpTableFunc ps) (dstTable ps)
    (batchFile ps) (marshaller ps) (targetMarshaller ps) (eventsInBatch ps) (s3 ps)
    (batchFileLinesByPK ps) (batchFileSkipLines ps).
Definition set_tx (v : option TxSQLAdapter) (ps : AbstractTransactionalSQLStream) :=
  mkStream (abs ps) v (tmpTable ps) (existingTable ps) (tmpTableFunc ps) (dstTable ps)
    (batchFile ps) (marshaller ps) (targetMarshaller ps) (eventsInBatch ps) (s3 ps)
    (batchFileLinesByPK ps) (batchFileSkipLines ps).
Definition set_tmpTable (v : option Table) (ps : AbstractTransactionalSQLStream) :=
  mkStream (abs ps) (tx ps) v (existingTable ps) (tmpTableFunc ps) (dstTable ps)
    (batchFile ps) (marshaller ps) (targetMarshaller ps) (eventsInBatch ps) (s3 ps)
    (batchFileLinesByPK ps) (batchFileSkipLines ps).
Definition set_tmpTableFunc (v : option TmpTableFunc) (ps : AbstractTransactionalSQLStream) :=
  mkStream (abs ps) (tx ps) (tmpTable ps) (existingTable ps) v (dstTable ps)
    (batchFile ps) (marshaller ps) (targetMarshaller ps) (eventsInBatch ps) (s3 ps)
    (batchFileLinesByPK ps) (batchFileSkipLines ps).
Definition set_dstTable (v : option Table) (ps : AbstractTransactionalSQLStream) :=
  mkStream (abs ps) (tx ps) (tmpTable ps) (existingTable ps) (tmpTableFunc ps) v
    (batchFile ps) (marshaller ps) (targetMarshaller ps) (eventsInBatch ps) (s3 ps)
    (batchFileLinesByPK ps) (batchFileSkipLines ps).
Definition set_batchFile (v : option File) (ps : AbstractTransactionalSQLStream) :=
  mkStream (abs ps) (tx ps) (tmpTable ps) (existingTable ps) (tmpTableFunc ps) (dstTable ps)
    v (marshaller ps) (targetMarshaller ps) (eventsInBatch ps) (s3 ps)
    (batchFileLinesByPK ps) (batchFileSkipLines ps).
Definition set_marshaller (v : option Marshaller) (ps : AbstractTransactionalSQLStream) :=
  mkStream (abs ps) (tx ps) (tmpTable ps) (existingTable ps) (tmpTableFunc ps) (dstTable ps)
    (batchFile ps) v (targetMarshaller ps) (eventsInBatch ps) (s3 ps)
    (batchFileLinesByPK ps) (batchFileSkipLines ps).
Definition set_targetMarshaller (v : option Marshaller) (ps : AbstractTransactionalSQLStream) :=
  mkStream (abs ps) (tx ps) (tmpTable ps) (existingTable ps) (tmpTableFunc ps) (dstTable ps)
    (batchFile ps) (marshaller ps) v (eventsInBatch ps) (s3 ps)
    (batchFileLinesByPK ps) (batchFileSkipLines ps).
Definition set_eventsInBatch (v : nat) (ps : AbstractTransactionalSQLStream) :=
  mkStream (abs ps) (tx ps) (tmpTable ps) (existingTable ps) (tmpTableFunc ps) (dstTable ps)
    (batchFile ps) (marshaller ps) (targetMarshaller ps) v (s3 ps)
    (batchFileLinesByPK ps) (batchFileSkipLines ps).
Definition set_s3 (v : option string) (ps : AbstractTransactionalSQLStream) :=
  mkStream (abs ps) (tx ps) (tmpTable ps) (existingTable ps) (tmpTableFunc ps) (dstTable ps)
    (batchFile ps) (marshaller ps) (targetMarshaller ps) (eventsInBatch ps) v
    (batchFileLinesByPK ps) (batchFileSkipLines ps).
Definition set_batchFileLinesByPK (v : gmap string nat) (ps : AbstractTransactionalSQLStream) :=
  mkStream (abs ps) (tx ps) (tmpTable ps) (existingTable ps) (tmpTableFunc ps) (dstTable ps)
    (batchFile ps) (marshaller ps) (targetMarshaller ps) (eventsInBatch ps) (s3 ps)
    v (batchFileSkipLines ps).
Definition set_batchFileSkipLines (v : gset nat) (ps : AbstractTransactionalSQLStream) :=
  mkStream (abs ps) (tx ps) (tmpTable ps) (existingTable ps) (tmpTableFunc ps) (dstTable ps)
    (batchFile ps) (marshaller ps) (targetMarshaller ps) (eventsInBatch ps) (s3 ps)
    (batchFileLinesByPK ps) v.
Definition set_state (v : State) (ps : AbstractTransactionalSQLStream) :=
  set_abs (abs_set_state v (abs ps)) ps.

(** [ReplacePartitionStream]: the transactional stream and the partition. *)
Record ReplacePartitionStream := mkReplacePartition {
  base : AbstractTransactionalSQLStream;
  partitionId : string
}.

Definition set_base (v : AbstractTransactionalSQLStream) (rp : ReplacePartitionStream) :=
  mkReplacePartition v (partitionId rp).

(** A call through [ps.tx]: a nil receiver may panic. *)
Definition txPanics (env : Env) (ps : AbstractTransactionalSQLStream) : bool :=
  match tx ps with
  | None => nilTx_panics env
  | Some _ => false
  end.

(** *** Parts of AbstractSQLStream and of the table helper *)

(** [newAbstractStream].
    Modelled from the spec: AbstractSQLStream is not among the embedded
    sources; a stream starts Active, merge requires a primary key. *)
Definition newAbstractStream (id tableName : string) (options : StreamOptions)
  : AbstractSQLStream + error :=
  if MergeRowsOption options && bool_decide (length (PrimaryKeyOption options) = 0)
  then inr "MergeRows option requires primary key in the destination table. Please provide WithPrimaryKey option"
  else inl (mkAbs id tableName (MergeRowsOption options) (PrimaryKeyOption options)
              options newState false).

(** [AbstractSQLStream.postConsume].
    Modelled from the spec: no error counts a successful row, an error is
    recorded with the index of its row, and the processed rows always grow by
    one. *)
Definition postConsume (ps : AbstractTransactionalSQLStream) (err : option error)
  : AbstractTransactionalSQLStream * option error :=
  let st := state (abs ps) in
  let st :=
    match err with
    | Some e => SetError e (set_ErrorRowIndex (ProcessedRows st) st)
    | None => set_SuccessfulRows (S (SuccessfulRows st)) st
    end in
  (set_state (set_ProcessedRows (S (ProcessedRows st)) st) ps, err).

(** [AbstractSQLStream.postComplete].
    Modelled from the spec: a failed Complete records the error and ends
    Failed with no successful rows, a successful one ends Completed. *)
Definition AbstractSQLStream_postComplete (ps : AbstractTransactionalSQLStream)
  (err : option error) : AbstractTransactionalSQLStream * option error :=
  match err with
  | Some e =>
      (set_state (set_Status Failed (SetError e (set_SuccessfulRows 0 (state (abs ps))))) ps,
       Some e)
  | None => (set_state (set_Status Completed (state (abs ps))) ps, None)
  end.

(** [adjustTableColumnTypes].
    Modelled from the spec: the temporary table is widened by the columns of
    the table for the object; a new column takes the type the existing table
    has for it, if any. *)
Definition adjustTableColumnTypes (tmpTable existingTable targetTable : Table) : Table :=
  let incoming :=
    map_imap (fun name t => Some (default t (Columns existingTable !! name)))
             (Columns targetTable) in
  set_Columns (union_with (fun a b => Some (widen a b)) (Columns tmpTable) incoming) tmpTable.

(** [TableHelper.EnsureTableWithCaching] on the destination: the table it
    leaves in the warehouse.
    Modelled from the spec: EnsureTable is additive; it creates a missing
    table and otherwise adds and widens columns, and never drops one. *)
Definition ensured (existing desired : Table) : Table :=
  if Exists_ existing
  then set_Columns (union_with (fun a b => Some (widen a b)) (Columns existing)
                      (Columns desired)) existing
  else mkTable (Name desired) (Columns desired) (PKFields desired) (Temporary desired) true.

Definition EnsureTableWithCaching (env : Env) (w : World) (desired : Table)
  : World * (Table + error) :=
  let w := logOp (OpEnsureTableWithCaching desired) w in
  match EnsureTableWithCaching_err env with
  | Some e => (w, inr e)
  | None =>
      let t := ensured (destination w) desired in
      (mkWorld t (log w), inl t)
  end.

(** *** AbstractTransactionalSQLStream *)

Definition newAbstractTransactionalStream (id tableName : string) (options : StreamOptions)
  : AbstractTransactionalSQLStream + error :=
  match newAbstractStream id tableName options with
  | inr e => inr e
  | inl abs =>
      inl (mkStream abs None None zeroTable None None None None None 0 None ∅ ∅)
  end.

Definition init (env : Env) (w : World) (ps : AbstractTransactionalSQLStream)
  : World * AbstractTransactionalSQLStream * option error :=
  if inited (abs ps) then (w, ps, None)
  else
    let s3step :=
      match s3BatchFileOption (options (abs ps)) with
      | Some cfg =>
          match NewS3_err env with
          | Some e => inr (set_s3 None ps, "failed to setup s3 client: " +:+ e)
          | None => inl (set_s3 (Some cfg) ps)
          end
      | None => inl ps
      end in
    match s3step with
    | inr (ps, e) => (w, ps, Some e)
    | inl ps =>
        let localBatchFile := localBatchFileOption (options (abs ps)) in
        let filestep :=
          if bool_decide (localBatchFile ≠ EmptyString) && bool_decide (batchFile ps = None) then
            let ps := set_marshaller
                        (Some (mkMarshaller FileFormatNDJSON FileCompressionNONE false)) ps in
            match NewMarshaller (GetBatchFileFormat env) (GetBatchFileCompression env) with
            | inr e => inr (set_targetMarshaller None ps, e)
            | inl tm =>
                let ps := set_targetMarshaller (Some tm) ps in
                let ps :=
                  if negb (merge (abs ps)) && bool_decide (GetBatchFileFormat env = FileFormatNDJSON)
                  then set_marshaller (Some tm) ps else ps in
                match CreateTemp_err env with
                | Some e => inr (ps, e)
                | None => inl (set_batchFile (Some (mkFile localBatchFile [] false false)) ps)
                end
            end
          else inl ps in
        match filestep with
        | inr (ps, e) => (w, ps, Some e)
        | inl ps =>
            match AbstractSQLStream_init_err env with
            | Some e => (w, ps, Some e)
            | None =>
                let ps := set_abs (abs_set_inited true (abs ps)) ps in
                match tx ps with
                | Some _ => (w, ps, None)
                | None =>
                    let w := logOp OpOpenTx w in
                    match OpenTx_err env with
                    | Some e => (w, ps, Some e)
                    | None => (w, set_tx (Some OpenedTx) ps, None)
                    end
                end
            end
        end
    end.

(** [adjustTables]. The destination descriptor is assigned before
    [tmpTableFunc] is called, so it stays assigned when the call panics (a nil
    function, or a closure that panics). After the last line both descriptors
    hold the same column map. *)
Definition adjustTables (env : Env) (w : World) (ps : AbstractTransactionalSQLStream)
  (targetTable : Table) : World * AbstractTransactionalSQLStream * outcome :=
  let step :=
    match tmpTable ps with
    | None =>
        let ps := set_dstTable (Some targetTable) ps in
        match tmpTableFunc ps with
        | None => (w, inr ps)
        | Some f =>
            match f env (tx ps) (tableName (abs ps)) w targetTable
                    (bool_decide (batchFile ps ≠ None)) with
            | (w, None) => (w, inr ps)
            | (w, Some (targetTable, tmp)) =>
                (w, inl (set_tmpTable (Some tmp) (set_dstTable (Some targetTable) ps)))
            end
        end
    | Some tmp =>
        (w, inl (set_tmpTable
                   (Some (adjustTableColumnTypes tmp (existingTable ps) targetTable)) ps))
    end in
  match step with
  | (w, inr ps) => (w, ps, Panicked)
  | (w, inl ps) =>
      match dstTable ps, tmpTable ps with
      | Some dst, Some tmp =>
          (w, set_dstTable (Some (set_Columns (Columns tmp) dst)) ps, Returned None)
      | _, _ => (w, ps, Panicked)
      end
  end.

(** The join of the multi-column primary key. *)
Fixpoint joinStrings (sep : string) (l : list string) : string :=
  match l with
  | [] => EmptyString
  | [x] => x
  | x :: rest => x +:+ sep +:+ joinStrings sep rest
  end.

Definition getPKValue (env : Env) (ps : AbstractTransactionalSQLStream) (object : Object)
  : string + error :=
  let pkColumns := pkColumns (abs ps) in
  let sprint col := Sprint (default VNil (object !! ColumnName env col)) in
  match pkColumns with
  | [] => inr "primary key is not set"
  | [col] => inl (sprint col)
  | _ => inl (joinStrings "_###_" (sprint <$> pkColumns))
  end.

Definition writeToBatchFile (env : Env) (w : World) (ps : AbstractTransactionalSQLStream)
  (targetTable : Table) (processedObject : Object)
  : World * AbstractTransactionalSQLStream * outcome :=
  match adjustTables env w ps targetTable with
  | (w, ps, Panicked) => (w, ps, Panicked)
  | (w, ps, Returned _) =>
      match marshaller ps with
      | None => (w, ps, Panicked)
      | Some m =>
          match InitSchema_err env with
          | Some e => (w, ps, Returned (Some e))
          | None =>
              let '(m, hdr) := Marshaller_Init m [] in
              let ps := set_marshaller (Some m) ps in
              let ps := set_batchFile (fst (writeLinesTo hdr (batchFile ps))) ps in
              let dedup :=
                if merge (abs ps) then
                  match getPKValue env ps processedObject with
                  | inr e => inr e
                  | inl pk =>
                      let ps :=
                        match batchFileLinesByPK ps !! pk with
                        | Some line =>
                            set_batchFileSkipLines ({[line]} ∪ batchFileSkipLines ps) ps
                        | None => ps
                        end in
                      let lineNumber := eventsInBatch ps in
                      let lineNumber := if NeedHeader m then S lineNumber else lineNumber in
                      inl (set_batchFileLinesByPK
                             (<[pk := lineNumber]> (batchFileLinesByPK ps)) ps)
                  end
                else inl ps in
              match dedup with
              | inr e => (w, ps, Returned (Some e))
              | inl ps =>
                  let marshalled :=
                    match Marshal_err env processedObject with
                    | Some e => (batchFile ps, Some e)
                    | None => writeLinesTo [DataLine (Format m) processedObject] (batchFile ps)
                    end in
                  match marshalled with
                  | (_, Some e) =>
                      (w, ps, Returned (Some (Decorate e "failed to marshall into csv file")))
                  | (f, None) =>
                      let ps := set_batchFile f ps in
                      (w, set_eventsInBatch (S (eventsInBatch ps)) ps, Returned None)
                  end
              end
          end
      end
  end.

(** [insert]: the direct path, without a batch file. The helper answers the
    temporary table as it stands in the transaction. *)
Definition insert (env : Env) (w : World) (ps : AbstractTransactionalSQLStream)
  (targetTable : Table) (processedObject : Object)
  : World * AbstractTransactionalSQLStream * outcome :=
  match adjustTables env w ps targetTable with
  | (w, ps, Panicked) => (w, ps, Panicked)
  | (w, ps, Returned _) =>
      match tmpTable ps with
      | None => (w, ps, Panicked)
      | Some tmp =>
          let w := logOp (OpEnsureTableWithoutCaching tmp) w in
          match EnsureTableWithoutCaching_err env with
          | Some e =>
              (w, set_tmpTable None ps, Returned (Some (Decorate e "failed to ensure table")))
          | None =>
              if txPanics env ps then (w, ps, Panicked)
              else (logOp (OpInsert tmp (merge (abs ps)) processedObject) w, ps,
                    Returned (Insert_err env))
          end
      end
  end.

Definition Consume_body (env : Env) (w : World) (ps : AbstractTransactionalSQLStream)
  (object : Object) : World * AbstractTransactionalSQLStream * outcome :=
  match init env w ps with
  | (w, ps, Some e) => (w, ps, Returned (Some e))
  | (w, ps, None) =>
      match AbstractSQLStream_preprocess env object with
      | inr e => (w, ps, Returned (Some e))
      | inl (tableForObject, processedObject) =>
          if bool_decide (batchFile ps ≠ None)
          then writeToBatchFile env w ps tableForObject processedObject
          else insert env w ps tableForObject processedObject
      end
  end.

(** [Consume] with the deferred [postConsume]; a panic leaves [err] nil. *)
Definition Consume (env : Env) (w : World) (ps : AbstractTransactionalSQLStream)
  (object : Object) : World * AbstractTransactionalSQLStream * outcome :=
  match Consume_body env w ps object with
  | (w, ps, Returned err) => let '(ps, err) := postConsume ps err in (w, ps, Returned err)
  | (w, ps, Panicked) => (w, fst (postConsume ps None), Panicked)
  end.

Definition Abort (w : World) (ps : AbstractTransactionalSQLStream)
  : World * AbstractTransactionalSQLStream * outcome :=
  if bool_decide (Status_ (state (abs ps)) ≠ Active)
  then (w, ps, Returned (Some "stream is not active"))
  else
    let w :=
      match tx ps with
      | Some _ =>
          let w := match tmpTable ps with Some tmp => logOp (OpDrop tmp) w | None => w end in
          logOp OpRollback w
      | None => w
      end in
    let ps := set_batchFile (closeAndRemove <$> batchFile ps) ps in
    (w, set_state (set_Status Aborted (state (abs ps))) ps, Returned None).

Definition postComplete (env : Env) (w : World) (ps : AbstractTransactionalSQLStream)
  (err : option error) : World * AbstractTransactionalSQLStream * option error :=
  let ps := set_batchFile (closeAndRemove <$> batchFile ps) ps in
  match err with
  | Some e =>
      let ps := set_state (set_SuccessfulRows 0 (state (abs ps))) ps in
      let w :=
        match tx ps with
        | Some _ =>
            let w := match tmpTable ps with Some tmp => logOp (OpDrop tmp) w | None => w end in
            logOp OpRollback w
        | None => w
        end in
      let '(ps, err) := AbstractSQLStream_postComplete ps (Some e) in (w, ps, err)
  | None =>
      match tx ps with
      | Some _ =>
          let w := match tmpTable ps with Some tmp => logOp (OpDrop tmp) w | None => w end in
          let w := logOp OpCommit w in
          let '(ps, err) := AbstractSQLStream_postComplete ps (Commit_err env) in (w, ps, err)
      | None =>
          let '(ps, err) := AbstractSQLStream_postComplete ps None in (w, ps, err)
      end
  end.

(** The scanner was given a buffer of up to [1024*1024*10] bytes. *)
Definition scannerBufferMax : N := 10485760%N.

(** The scanner loop of [flushBatchFile]. A line that does not fit the buffer
    ends the loop and shows in [scanner.Err], which is looked at here. *)
Fixpoint rewriteLines (env : Env) (needToConvert : bool) (tm : Marshaller)
  (skip : gset nat) (i : nat) (lines out : list Line) : list Line + error :=
  match lines with
  | [] => inl out
  | l :: rest =>
      if bool_decide (scannerBufferMax ≤ lineBytes env l)%N
      then inr (Decorate "bufio.Scanner: token too long" "failed to read batch file")
      else if bool_decide (i ∈ skip) then rewriteLines env needToConvert tm skip (S i) rest out
      else if needToConvert then
        match jsonDecode l with
        | inr e => inr (Decorate e "failed to decode json object from batch filer")
        | inl obj =>
            match targetMarshal_err env obj with
            | Some e => inr (Decorate e "failed to marshal object to converted batch file")
            | None =>
                rewriteLines env needToConvert tm skip (S i) rest
                  (out ++ [DataLine (Format tm) obj])
            end
        end
      else
        match Write_err env with
        | Some e => inr (Decorate e "failed write to deduplication file")
        | None => rewriteLines env needToConvert tm skip (S i) rest (out ++ [l])
        end
  end.

(** [table.SortedColumnNames()] *)
Definition SortedColumnNames (t : Table) : list string := sortedStrings (dom (Columns t)).

(** [flushBatchFile] after [CreateTable], up to the deferred clean-up. The
    third component tells whether the working file is a new file. *)
Definition flushBatchFile_body (env : Env) (w : World) (ps : AbstractTransactionalSQLStream)
  (table : Table) : World * AbstractTransactionalSQLStream * outcome * bool :=
  if bool_decide (0 < eventsInBatch ps) then
    match marshaller ps with
    | None => (w, ps, Panicked, false)
    | Some m =>
    match Flush_err env with
    | Some e => (w, ps, Returned (Some (Decorate e "failed to flush marshaller")), false)
    | None =>
    match syncFile (batchFile ps) (Sync_err env) with
    | Some e => (w, ps, Returned (Some (Decorate e "failed to sync batch file")), false)
    | None =>
    match targetMarshaller ps with
    | None => (w, ps, Panicked, false)
    | Some tm =>
      let needToConvert := negb (Marshaller_Equal tm m) in
      let batchLines := from_option flines [] (batchFile ps) in
      let load (w : World) (ps : AbstractTransactionalSQLStream) (rewritten : bool)
               (lines : list Line) :=
        match s3 ps with
        | Some _ =>
            match Open_err env with
            | Some e => (w, ps, Returned (Some (Decorate e "failed to open tmp file")), rewritten)
            | None =>
                let s3FileName := "workingFile" in
                let w := logOp (OpS3Upload s3FileName lines) w in
                match S3Upload_err env with
                | Some e =>
                    (w, ps, Returned (Some (Decorate e "failed to upload file to s3")), rewritten)
                | None =>
                    if txPanics env ps
                    then (logOp (OpS3DeleteObject s3FileName) w, ps, Panicked, rewritten)
                    else
                      let w := logOp (OpLoadTable table AmazonS3 lines) w in
                      let w := logOp (OpS3DeleteObject s3FileName) w in
                      match LoadTable_err env with
                      | Some e =>
                          (w, ps,
                           Returned (Some (Decorate e "failed to flush tmp file to the warehouse")),
                           rewritten)
                      | None => (w, ps, Returned None, rewritten)
                      end
                end
            end
        | None =>
            if txPanics env ps then (w, ps, Panicked, rewritten)
            else
              let w := logOp (OpLoadTable table LocalFile lines) w in
              match LoadTable_err env with
              | Some e =>
                  (w, ps,
                   Returned (Some (Decorate e "failed to flush tmp file to the warehouse")),
                   rewritten)
              | None => (w, ps, Returned None, rewritten)
              end
        end in
      if bool_decide (0 < size (batchFileSkipLines ps)) || needToConvert then
        match CreateTemp_err env with
        | Some e =>
            (w, ps, Returned (Some (Decorate e "failed to create tmp file for deduplication")),
             false)
        | None =>
            let inited :=
              if needToConvert then
                match targetInitSchema_err env with
                | Some e => inr e
                | None => inl (Marshaller_Init tm (SortedColumnNames table))
                end
              else inl (tm, []) in
            match inited with
            | inr e =>
                (w, ps,
                 Returned (Some (Decorate e "failed to write header for converted batch file")),
                 true)
            | inl (tm, hdr) =>
                let ps := set_targetMarshaller (Some tm) ps in
                match Open_err env with
                | Some e => (w, ps, Returned (Some (Decorate e "failed to open tmp file")), true)
                | None =>
                    match rewriteLines env needToConvert tm (batchFileSkipLines ps) 0
                            batchLines hdr with
                    | inr e => (w, ps, Returned (Some e), true)
                    | inl out => load w ps true out
                    end
                end
            end
        end
      else load w ps false batchLines
    end end end end
  else (w, ps, Returned None, false).

(** [flushBatchFile]: [CreateTable] on the temporary table comes first; the
    deferred clean-up is registered after it. *)
Definition flushBatchFile (env : Env) (w : World) (ps : AbstractTransactionalSQLStream)
  : World * AbstractTransactionalSQLStream * outcome * bool :=
  match tmpTable ps with
  | None => (w, ps, Panicked, false)
  | Some table =>
      if txPanics env ps then (w, ps, Panicked, false)
      else
        let w := logOp (OpCreateTable table) w in
        match CreateTable_err env with
        | Some e => (w, ps, Returned (Some (Decorate e "failed to create table")), false)
        | None =>
            let '(w, ps, out, rewritten) := flushBatchFile_body env w ps table in
            let ps :=
              if merge (abs ps)
              then set_batchFileSkipLines ∅ (set_batchFileLinesByPK ∅ ps) else ps in
            match batchFile ps with
            | None => (w, ps, Panicked, rewritten)
            | Some f => (w, set_batchFile (Some (closeAndRemove f)) ps, out, rewritten)
            end
        end
  end.

(** *** ReplacePartitionStream *)

(** The [tmpTableFunc] that [newReplacePartitionStream] installs. The table
    found in the warehouse only feeds a local variable; what stays is what
    [MapPutAll] did to the columns of the table for the object. *)
Definition ReplacePartition_tmpTableFunc : TmpTableFunc :=
  fun env tx tableName w tableForObject batchFile =>
    let tmp (t : Table) :=
      mkTable ("jitsu_tmp_" +:+ String.substring 0 8 (NewLettersNumbers env)) (Columns t) [] true false in
    if batchFile then (w, Some (tableForObject, tmp tableForObject))
    else
      if match tx with None => nilTx_panics env | Some _ => false end then (w, None)
      else
        let w := logOp (OpGetTableSchema ViaTx tableName) w in
        let existingTable :=
          match GetTableSchema_err env with
          | Some _ => zeroTable
          | None => destination w
          end in
        let tableForObject :=
          if Exists_ existingTable
          then set_Columns (MapPutAll env (Columns tableForObject) (Columns existingTable))
                 tableForObject
          else tableForObject in
        (w, Some (tableForObject, tmp tableForObject)).

Definition newReplacePartitionStream (id tableName : string) (options : StreamOptions)
  : ReplacePartitionStream + error :=
  let partitionId := PartitionIdOption options in
  if bool_decide (partitionId = EmptyString)
  then inr "WithPartition is required option for ReplacePartitionStream"
  else
    match newAbstractTransactionalStream id tableName options with
    | inr e => inr e
    | inl ps =>
        inl (mkReplacePartition
               (set_tmpTableFunc (Some ReplacePartition_tmpTableFunc) ps) partitionId)
    end.

(** [ReplacePartitionStream.Consume]: the object is stamped with the
    partition before anything else looks at it. *)
Definition ReplacePartition_Consume_body (env : Env) (w : World) (rp : ReplacePartitionStream)
  (object : Object) : World * AbstractTransactionalSQLStream * outcome :=
  match init env w (base rp) with
  | (w, ps, Some e) => (w, ps, Returned (Some e))
  | (w, ps, None) =>
      let object := <[PartitonIdKeyword := VStr (partitionId rp)]> object in
      match AbstractSQLStream_preprocess env object with
      | inr e => (w, ps, Returned (Some e))
      | inl (tableForObject, processedObjects) =>
          if bool_decide (batchFile ps ≠ None)
          then writeToBatchFile env w ps tableForObject processedObjects
          else insert env w ps tableForObject processedObjects
      end
  end.

Definition ReplacePartition_Consume (env : Env) (w : World) (rp : ReplacePartitionStream)
  (object : Object) : World * ReplacePartitionStream * outcome :=
  match ReplacePartition_Consume_body env w rp object with
  | (w, ps, Returned err) =>
      let '(ps, err) := postConsume ps err in (w, set_base ps rp, Returned err)
  | (w, ps, Panicked) => (w, set_base (fst (postConsume ps None)) rp, Panicked)
  end.

Definition clearPartition (env : Env) (w : World) (rp : ReplacePartitionStream)
  : World * option error :=
  let tableName := tableName (abs (base rp)) in
  let w := logOp (OpGetTableSchema ViaSqlAdapter tableName) w in
  match GetTableSchema_err env with
  | Some e =>
      (w, Some ("couldn't start ReplacePartitionStream: failed to check existence of table: "
                +:+ tableName +:+ " error: " +:+ e))
  | None =>
      let table := destination w in
      if Exists_ table then
        match Columns table !! PartitonIdKeyword with
        | None =>
            (w, Some ("couldn't start ReplacePartitionStream: destination table ["
                      +:+ tableName
                      +:+ "] exist but it is not managed by ReplacePartitionStream: "
                      +:+ PartitonIdKeyword +:+ " column is missing"))
        | Some _ =>
            let w := logOp (OpDelete ViaSqlAdapter tableName (partitionId rp)) w in
            match Delete_err env with
            | Some e =>
                (w, Some ("couldn't start ReplacePartitionStream: failed to delete data for partitionId: "
                          +:+ partitionId rp +:+ " error: " +:+ e))
            | None => (w, None)
            end
        end
      else (w, None)
  end.

(** The body of [Complete] after the status check, before the deferred
    function. *)
Definition ReplacePartition_Complete_body (env : Env) (w : World) (rp : ReplacePartitionStream)
  : World * AbstractTransactionalSQLStream * outcome :=
  let ps := base rp in
  match LastError (state (abs ps)) with
  | Some e => (w, ps, Returned (Some e))
  | None =>
      match clearPartition env w rp with
      | (w, Some e) => (w, ps, Returned (Some e))
      | (w, None) =>
          if bool_decide (0 < SuccessfulRows (state (abs ps))) then
            let flushed :=
              match batchFile ps with
              | Some _ => let '(w, ps, out, _) := flushBatchFile env w ps in (w, ps, out)
              | None => (w, ps, Returned None)
              end in
            match flushed with
            | (w, ps, Panicked) => (w, ps, Panicked)
            | (w, ps, Returned (Some e)) => (w, ps, Returned (Some e))
            | (w, ps, Returned None) =>
                match dstTable ps, tmpTable ps with
                | Some dst, Some tmp =>
                    let dst := set_Columns (Columns tmp) dst in
                    match EnsureTableWithCaching env w dst with
                    | (w, inr e) =>
                        (w, set_dstTable None ps,
                         Returned (Some (Decorate e "failed to ensure destination table")))
                    | (w, inl dst) =>
                        let ps := set_dstTable (Some dst) ps in
                        if txPanics env ps then (w, ps, Panicked)
                        else
                          (logOp (OpCopyTables dst tmp (merge (abs ps))) w, ps,
                           Returned (CopyTables_err env))
                    end
                | _, _ => (w, ps, Panicked)
                end
            end
          else (w, ps, Returned None)
      end
  end.

(** The deferred function of [Complete], on what the body left: it zeroes the
    successful rows and rolls back on an error, then runs [postComplete]. A
    panic in the body leaves [err] nil; a panic of the roll-back through a nil
    transaction ends the deferred function before [postComplete]. *)
Definition ReplacePartition_Complete_deferred (env : Env) (rp : ReplacePartitionStream)
  (r : World * AbstractTransactionalSQLStream * outcome)
  : World * ReplacePartitionStream * outcome :=
  match r with
  | (w, ps, Returned (Some e)) =>
      let ps := set_state (set_SuccessfulRows 0 (state (abs ps))) ps in
      if txPanics env ps then (w, set_base ps rp, Panicked)
      else
        let w := logOp OpRollback w in
        let '(w, ps, err) := postComplete env w ps (Some e) in
        (w, set_base ps rp, Returned err)
  | (w, ps, Returned None) =>
      let '(w, ps, err) := postComplete env w ps None in
      (w, set_base ps rp, Returned err)
  | (w, ps, Panicked) =>
      let '(w, ps, _) := postComplete env w ps None in
      (w, set_base ps rp, Panicked)
  end.

(** [ReplacePartitionStream.Complete] *)
Definition ReplacePartition_Complete (env : Env) (w : World) (rp : ReplacePartitionStream)
  : World * ReplacePartitionStream * outcome :=
  if bool_decide (Status_ (state (abs (base rp))) ≠ Active)
  then (w, rp, Returned (Some "stream is not active"))
  else ReplacePartition_Complete_deferred env rp (ReplacePartition_Complete_body env w rp).

(** The calls of the stream API on a ReplacePartition stream, and a stream
    driven through a list of them. [Abort] is the one of the embedded
    transactional stream. *)
Inductive Call :=
| CallConsume (env : Env) (object : Object)
| CallComplete (env : Env)
| CallAbort.

Definition step (c : Call) (w : World) (rp : ReplacePartitionStream)
  : World * ReplacePartitionStream * outcome :=
  match c with
  | CallConsume env object => ReplacePartition_Consume env w rp object
  | CallComplete env => ReplacePartition_Complete env w rp
  | CallAbort => let '(w, ps, out) := Abort w (base rp) in (w, set_base ps rp, out)
  end.

Definition run (calls : list Call) (w : World) (rp : ReplacePartitionStream)
  : World * ReplacePartitionStream :=
  foldl (fun '(w, rp) c => fst (step c w rp)) (w, rp) calls.

(** Consume calls of the transactional stream one after the other, as long as
    each returns nil. *)
Fixpoint ConsumeAll (inputs : list (Env * Object)) (w : World)
  (ps : AbstractTransactionalSQLStream) : World * AbstractTransactionalSQLStream * outcome :=
  match inputs with
  | [] => (w, ps, Returned None)
  | (env, object) :: rest =>
      match Consume env w ps object with
      | (w, ps, Returned None) => ConsumeAll rest w ps
      | r => r
      end
  end.

(** The calls that load the batch into the destination: flush, ensure-table
    and copy. *)
Definition isLoadStep (op : Op) : bool :=
  match op with
  | OpCreateTable _ | OpLoadTable _ _ _ | OpS3Upload _ _ | OpS3DeleteObject _
  | OpEnsureTableWithCaching _ | OpCopyTables _ _ _ => true
  | _ => false
  end.

(** The calls that remove rows of the destination. *)
Definition isDelete (op : Op) : bool :=
  match op with
  | OpDelete _ _ _ => true
  | _ => false
  end.

End Sql.

(** ** Vocabulary of the properties *)

(** A status stays, or leaves Active for one of the three final ones. *)
Definition moves (s s' : Status) : Prop :=
  s' = s \/ (s = Active /\ (s' = Completed \/ s' = Failed \/ s' = Aborted)).

(** The objects a batch file holds, read back. *)
Definition batchObjects (f : option File) : list Object :=
  objectsOf (from_option flines [] f).

#[global] Arguments batchObjects : simpl never.

(** A file-storage stream whose set-up did not stop half-way: with the batch
    file come both marshallers. *)
Definition fsReady (ps : FileStorage.AbstractFileStorageStream) : Prop :=
  (FileStorage.inited ps = true -> is_Some (FileStorage.batchFile ps))
  /\ (is_Some (FileStorage.batchFile ps) ->
      is_Some (FileStorage.marshaller ps) /\ is_Some (FileStorage.targetMarshaller ps)).

(** The primary keys of the data lines of a batch file, in file order: the
    occurrence at [k] is the latest of [pk], or a later line has the same
    key. *)
Definition latestAt (pks : list string) (k : nat) (pk : string) : Prop :=
  pks !! k = Some pk /\ forall k' : nat, k < k' -> pks !! k' <> Some pk.

Definition supersededAt (pks : list string) (k : nat) : Prop :=
  exists (pk : string) (k' : nat), pks !! k = Some pk /\ k < k' /\ pks !! k' = Some pk.

(** What the merge bookkeeping has to say when the data lines start at line
    [off]: [linesByPK] sends a key to the line of its latest occurrence and
    nothing else, [skipLines] holds the lines of the superseded occurrences
    and nothing else. *)
Definition DedupSpec (off : nat) (pks : list string)
  (linesByPK : gmap string nat) (skipLines : gset nat) : Prop :=
  (forall (pk : string) (i : nat),
      linesByPK !! pk = Some i <-> exists k : nat, i = off + k /\ latestAt pks k pk)
  /\ (forall i : nat, i ∈ skipLines <-> exists k : nat, i = off + k /\ supersededAt pks k).

(** A table of the warehouse keeps existing and keeps every column. *)
Definition keepsColumns (before after : Sql.Table) : Prop :=
  Sql.Exists_ before = true ->
  Sql.Exists_ after = true
  /\ dom (Sql.Columns before) ⊆ dom (Sql.Columns after).

(** The objects of a batch that are not skipped, the first of them being on
    line [i]. *)
Fixpoint keptFrom (skip : gset nat) (i : nat) (objs : list (gmap string Value))
  : list (gmap string Value) :=
  match objs with
  | [] => []
  | o :: rest =>
      if bool_decide (i ∈ skip) then keptFrom skip (S i) rest
      else o :: keptFrom skip (S i) rest
  end.

(** The number of header lines a marshaller puts before the data. *)
Definition offOf (m : Marshaller) : nat := if NeedHeader m then 1 else 0.

(** The batch side of a stream, the same for both kinds of stream. *)
Record BatchView := mkView {
  v_merge : bool;
  v_batchFile : option File;
  v_marshaller : option Marshaller;
  v_eventsInBatch : nat;
  v_linesByPK : gmap string nat;
  v_skipLines : gset nat
}.

Definition fsView (ps : FileStorage.AbstractFileStorageStream) : BatchView :=
  mkView (FileStorage.merge ps) (FileStorage.batchFile ps) (FileStorage.marshaller ps)
    (FileStorage.eventsInBatch ps) (FileStorage.batchFileLinesByPK ps)
    (FileStorage.batchFileSkipLines ps).

Definition sqlView (ps : Sql.AbstractTransactionalSQLStream) : BatchView :=
  mkView (Sql.merge (Sql.abs ps)) (Sql.batchFile ps) (Sql.marshaller ps)
    (Sql.eventsInBatch ps) (Sql.batchFileLinesByPK ps) (Sql.batchFileSkipLines ps).

(** A merge stream before its first object: nothing counted, nothing
    recorded, and no batch file yet or an empty one whose marshaller has not
    written its header. *)
Definition BatchStart (v : BatchView) : Prop :=
  v_merge v = true /\ v_eventsInBatch v = 0
  /\ v_linesByPK v = ∅ /\ v_skipLines v = ∅
  /\ (v_batchFile v = None
      \/ exists (f : File) (m : Marshaller),
           v_batchFile v = Some f /\ flines f = []
           /\ v_marshaller v = Some m /\ mInited m = false).

(** A merge stream whose batch file holds the objects of [recs], each with
    its primary-key string, after the header lines of its marshaller. *)
Definition BatchHolds (v : BatchView) (recs : list (gmap string Value * string)) : Prop :=
  exists (f : File) (m : Marshaller) (hdr : list Line),
    v_merge v = true
    /\ v_batchFile v = Some f /\ v_marshaller v = Some m /\ mInited m = true
    /\ length hdr = offOf m /\ objectsOf hdr = []
    /\ flines f = hdr ++ (DataLine (Format m) <$> recs.*1)
    /\ v_eventsInBatch v = length recs
    /\ DedupSpec (offOf m) (recs.*2) (v_linesByPK v) (v_skipLines v).

Definition BatchInv (v : BatchView) (recs : list (gmap string Value * string)) : Prop :=
  (recs = [] /\ BatchStart v) \/ BatchHolds v recs.

(** A transactional stream that stages its objects in a batch file: it has
    the file, or it is not set up yet and was given the local-batch-file
    option. *)
Definition sqlStages (ps : Sql.AbstractTransactionalSQLStream) : Prop :=
  is_Some (Sql.batchFile ps)
  \/ (Sql.inited (Sql.abs ps) = false
      /\ localBatchFileOption (Sql.options (Sql.abs ps)) <> EmptyString).

(** Inputs the examples run on. *)
Module Examples.

Definition row (idv : Z) (v : string) : gmap string Value :=
  {[ "id" := VInt idv; "v" := VStr v ]}.

Definition noKey : gmap string Value := {[ "v" := VStr "a" ]}.

Definition mergeById : StreamOptions := mkOptions true ["id"] EmptyString EmptyString EmptyString None.

Definition fsEnv : FileStorage.Env :=
  FileStorage.quiet FileFormatNDJSON FileCompressionNONE ["id"].

Definition fsCsvEnv : FileStorage.Env :=
  FileStorage.quiet FileFormatCSV FileCompressionNONE ["id"].

(** The stream a constructor answers; the zero value stands in where it
    answers an error. *)
Definition fsNew (options : StreamOptions) : FileStorage.AbstractFileStorageStream :=
  match FileStorage.newAbstractFileStorageStream "events" options with
  | inl ps => ps
  | inr _ => FileStorage.mkStream EmptyString false false ∅ EmptyString None None None 0 ∅ ∅ ∅
               (mkState Active 0 0 0 None) false
  end.

(** One object consumed, and the stream completed after it. *)
Definition fsOnce : FileStorage.AbstractFileStorageStream :=
  (FileStorage.Consume fsEnv (fsNew noOptions) (row 1 "a")).1.

Definition fsDone : FileStorage.AbstractFileStorageStream :=
  (FileStorage.Complete fsEnv fsOnce).1.1.

(** A file adapter whose format NewMarshaller does not know. *)
Definition fsUnknownFormat : FileStorage.Env :=
  FileStorage.quiet FileFormatOther FileCompressionNONE ["id"].

(** The upload to the file adapter fails. *)
Definition fsUploadFails : FileStorage.Env :=
  FileStorage.mkEnv FileFormatNDJSON FileCompressionNONE None inl ["id"] (fun _ => None)
    None None None None (fun _ => None) None None (Some "upload failed") lineSize.

(** The table the SQL stream infers for an object: every column a string. *)
Definition tableOf (o : gmap string Value) : Sql.Table :=
  Sql.mkTable "events" ((fun _ => Sql.TString) <$> o) [] false false.

Definition sqlEnv : Sql.Env :=
  Sql.quiet FileFormatNDJSON FileCompressionNONE (fun o => inl (tableOf o, o)).


(** The copy of the temporary table into the destination fails. *)
Definition sqlCopyFails : Sql.Env :=
  Sql.mkEnv FileFormatNDJSON FileCompressionNONE (fun s => s) false None None None None
    (fun o => inl (tableOf o, o)) "a1b2c3d4e5f6" (fun a b => b ∪ a) None None None None
    (fun _ => None) None None None None (fun _ => None) None lineSize
    None None None None None (Some "copy failed") None None.

Definition january : StreamOptions := mkOptions false [] EmptyString "2024-01" "batch" None.

Definition zeroAbs : Sql.AbstractSQLStream := Sql.mkAbs EmptyString EmptyString false [] noOptions newState false.

Definition zeroTx : Sql.AbstractTransactionalSQLStream :=
  Sql.mkStream zeroAbs None None Sql.zeroTable None None None None None 0 None ∅ ∅.

Definition mergeStaged : StreamOptions := mkOptions true ["id"] EmptyString EmptyString "batch" None.

Definition txNew (options : StreamOptions) : Sql.AbstractTransactionalSQLStream :=
  match Sql.newAbstractTransactionalStream "s1" "events" options with
  | inl ps => Sql.set_tmpTableFunc (Some Sql.ReplacePartition_tmpTableFunc) ps
  | inr _ => zeroTx
  end.

Definition threeRows : list (gmap string Value) := [row 1 "a"; row 1 "b"; row 2 "c"].

(** An object whose text has 70000 characters: its line on disk is longer
    than what a scanner with the default buffer takes. *)
Definition longText : string :=
  String.string_of_list_ascii (replicate (N.to_nat 70000%N) "a"%char).

Definition bigRow : gmap string Value := {[ "id" := VInt 1; "v" := VStr longText ]}.

Definition csvStaged : Sql.Env :=
  Sql.quiet FileFormatCSV FileCompressionNONE (fun o => inl (tableOf o, o)).

Definition staged : StreamOptions := mkOptions false [] EmptyString EmptyString "batch" None.

Definition rpNew (options : StreamOptions) : Sql.ReplacePartitionStream :=
  match Sql.newReplacePartitionStream "s1" "events" options with
  | inl rp => rp
  | inr _ => Sql.mkReplacePartition zeroTx EmptyString
  end.

(** A warehouse whose destination table is managed by ReplacePartition, one
    whose destination lacks the partition column, and one without the table. *)
Definition managed : Sql.World :=
  Sql.mkWorld
    (Sql.mkTable "events" {[ "__partition_id" := Sql.TString; "old" := Sql.TInt ]} [] false true)
    [].


Definition missing : Sql.World := Sql.mkWorld Sql.zeroTable [].

(** One object consumed by a ReplacePartition stream, and the stream
    completed after it. *)
Definition rpOnce : Sql.World * Sql.ReplacePartitionStream :=
  (Sql.ReplacePartition_Consume sqlEnv managed (rpNew january) (row 1 "a")).1.

Definition rpDone : Sql.World * Sql.ReplacePartitionStream :=
  (Sql.ReplacePartition_Complete sqlEnv rpOnce.1 rpOnce.2).1.

End Examples.

(** ** jitsubase/utils/strings.go *)

Module Utils.

(** A rune, as [range] over a string and [[]rune(str)] yield it. *)
Definition rune : Type := Z.

(** [NvlString]: the first argument that is not empty. *)
Fixpoint NvlString (args : list string) : string :=
  match args with
  | [] => EmptyString
  | str :: rest => if bool_decide (str ≠ EmptyString) then str else NvlString rest
  end.

Definition DefaultString (str defaultValue : string) : string :=
  if bool_decide (str = EmptyString) then defaultValue else str.

(** [ShortenString], on the runes of the string. [None] is the run-time panic
    of the slice expression [[:n]] with a negative bound. *)
Definition ShortenString (str : list rune) (n : Z) : option (list rune) :=
  if bool_decide (Z.of_nat (length str) ≤ n)%Z then Some str
  else if bool_decide (n < 0)%Z then None
       else Some (take (Z.to_nat n) str).

(** The three runes of ["..."]. *)
Definition ellipsis : list rune := [46%Z; 46%Z; 46%Z].

Definition ShortenStringWithEllipsis (str : list rune) (n : Z) : option (list rune) :=
  if bool_decide (Z.of_nat (length str) ≤ n)%Z then Some str
  else if bool_decide (n < 0)%Z then None
       else Some (take (Z.to_nat n) str ++ ellipsis).

(** The character classes. A byte of a string stands for the rune [range]
    yields there: a rune outside ASCII is made of bytes from 128 on, none of
    which is in a class, and so is the replacement rune of an invalid byte. *)
Definition IsLowerLetterOrNumber (symbol : Ascii.ascii) : bool :=
  let n := Ascii.nat_of_ascii symbol in
  (((97 <=? n) && (n <=? 122)) || ((48 <=? n) && (n <=? 57)))%nat.

Definition IsLetterOrUnderscore (symbol : Ascii.ascii) : bool :=
  let n := Ascii.nat_of_ascii symbol in
  (((97 <=? n) && (n <=? 122)) || ((65 <=? n) && (n <=? 90)) || (n =? 95))%nat.

Definition IsLowerLetterOrUnderscore (symbol : Ascii.ascii) : bool :=
  let n := Ascii.nat_of_ascii symbol in
  (((97 <=? n) && (n <=? 122)) || (n =? 95))%nat.

Definition IsNumber (symbol : Ascii.ascii) : bool :=
  let n := Ascii.nat_of_ascii symbol in
  ((48 <=? n) && (n <=? 57))%nat.

(** [IsAlphanumeric]: the loop answers false at the first symbol that is
    neither a letter, a digit nor an underscore. *)
Fixpoint IsAlphanumeric (str : string) : bool :=
  match str with
  | EmptyString => true
  | String symbol rest =>
      if negb (IsLetterOrNumber symbol) && negb (bool_decide (symbol = "_"%char))
      then false
      else IsAlphanumeric rest
  end.

Fixpoint IsLowerAlphanumeric (str : string) : bool :=
  match str with
  | EmptyString => true
  | String symbol rest =>
      if negb (IsLowerLetterOrNumber symbol) && negb (bool_decide (symbol = "_"%char))
      then false
      else IsLowerAlphanumeric rest
  end.

(** One turn of the loop of [JoinNonEmptyStrings] on the builder [b]. *)
Definition joinStep (sep : string) (b s : string) : string :=
  if bool_decide (0 < String.length s)
  then (if bool_decide (0 < String.length b) then b +:+ sep else b) +:+ s
  else b.

(** [JoinNonEmptyStrings]: no element and one element are answered before the
    loop; [b.Grow] only reserves room. *)
Definition JoinNonEmptyStrings (sep : string) (elems : list string) : string :=
  match elems with
  | [] => EmptyString
  | [e] => e
  | _ => foldl (joinStep sep) EmptyString elems
  end.

End Utils.

(** ** The streams repository (Streams, StreamsRepositoryData) *)

Module Repository.

(** A [time.Time], as the distance from the zero time. *)
Definition Time : Type := Z.

Record ApiKey := mkApiKey {
  ApiKey_Id : string;
  Plaintext : string;
  ApiKey_Hash : string;
  Hint : string
}.

Record ApiKeyBinding := mkBinding {
  Hash : string;
  KeyType : string;
  StreamId : string
}.

Record StreamConfig := mkStreamConfig {
  Id : string;
  Type_ : string;
  WorkspaceId : string;
  Slug : string;
  Name : string;
  Domains : list string;
  AuthorizedJavaScriptDomains : string;
  PublicKeys : list ApiKey;
  PrivateKeys : list ApiKey;
  DataLayout : string
}.

(** [ShortDestinationConfig], with the embedded [TagDestinationConfig]. *)
Record ShortDestinationConfig := mkDestination {
  Mode : string;
  Code : string;
  Destination_Id : string;
  ConnectionId : string;
  DestinationType : string;
  Options : gmap string Value;
  Credentials : gmap string Value
}.

(** [StreamWithDestinations]. The two slices of pointers are kept as what the
    pointers lead to once [init] has returned: nothing writes the variables
    they point to after that. *)
Record StreamWithDestinations := mkSWD {
  Stream : StreamConfig;
  UpdateAt : Time;
  BackupEnabled : bool;
  Destinations : list ShortDestinationConfig;
  SynchronousDestinations : list ShortDestinationConfig;
  AsynchronousDestinations : list ShortDestinationConfig
}.

(** How [for _, d := range] declares [d]: one variable for the whole loop (the
    language before Go 1.22) or one for every iteration (from Go 1.22 on). The
    sources do not tell which language version builds them. *)
Inductive LoopVar := OnePerLoop | OnePerIteration.

Record Env := mkEnv {
  loopVar : LoopVar;
  DeviceOptions : gset string;       (* the keys of the map DeviceOptions *)
  Encode_err : option error          (* encoder.Encode *)
}.

(** The loop of [init]: the variables [d] by address, and the addresses the
    two slices hold. *)
Record initLoop := mkInitLoop {
  vars : gmap nat ShortDestinationConfig;
  syncPtrs : list nat;
  asyncPtrs : list nat
}.

(** The address of [d] in iteration [i]. *)
Definition addrOf (lv : LoopVar) (i : nat) : nat :=
  match lv with
  | OnePerLoop => 0
  | OnePerIteration => i
  end.

(** One iteration: the element is copied into [d], then [&d] is appended to
    one of the slices unless the element is skipped. *)
Definition init_body (env : Env) (st : initLoop) (i : nat) (elem : ShortDestinationConfig)
  : initLoop :=
  let addr := addrOf (loopVar env) i in
  let vars := <[addr := elem]> (vars st) in
  if bool_decide (Destination_Id elem = EmptyString)
     || bool_decide (DestinationType elem = EmptyString)
  then mkInitLoop vars (syncPtrs st) (asyncPtrs st)
  else if bool_decide (DestinationType elem ∈ DeviceOptions env)
       then mkInitLoop vars (syncPtrs st ++ [addr]) (asyncPtrs st)
       else mkInitLoop vars (syncPtrs st) (asyncPtrs st ++ [addr]).

Fixpoint init_loop (env : Env) (st : initLoop) (i : nat) (dests : list ShortDestinationConfig)
  : initLoop :=
  match dests with
  | [] => st
  | elem :: rest => init_loop env (init_body env st i elem) (S i) rest
  end.

(** [init] of StreamWithDestinations *)
Definition StreamWithDestinations_init (env : Env) (s : StreamWithDestinations)
  : StreamWithDestinations :=
  let st := init_loop env (mkInitLoop ∅ [] []) 0 (Destinations s) in
  let deref := omap (fun addr => vars st !! addr) in
  mkSWD (Stream s) (UpdateAt s) (BackupEnabled s) (Destinations s)
    (deref (syncPtrs st)) (deref (asyncPtrs st)).

Record Streams := mkStreams {
  streams : list StreamWithDestinations;
  apiKeyBindings : gmap string ApiKeyBinding;
  streamsByIds : gmap string StreamWithDestinations;
  streamsByDomains : gmap string (list StreamWithDestinations);
  lastModified : Time
}.

(** The three look-ups; a key the map lacks reads as nil. *)
Definition getStreamByKeyId (s : Streams) (keyId : string) : option ApiKeyBinding :=
  apiKeyBindings s !! keyId.

Definition GetStreamById (s : Streams) (slug : string) : option StreamWithDestinations :=
  streamsByIds s !! slug.

Definition GetStreamsByDomain (s : Streams) (domain : string) : list StreamWithDestinations :=
  default [] (streamsByDomains s !! domain).

(** What the JSON decoder reads from the reader: the token of the open
    bracket, the elements of the array up to its end, each decoded or not,
    and the token of the closing bracket. *)
Record Input := mkInput {
  openBracket : option error;
  elements : list (StreamWithDestinations + error);
  closeBracket : option error
}.

(** The tag of the response: a [time.Time] or a value of another type. *)
Inductive Tag :=
| TagTime (t : Time)
| TagOther.

(** [StreamsRepositoryData]: the atomic pointer, nil before the first Init. *)
Definition StreamsRepositoryData : Type := option Streams.

(** The maps and the slice before the loop. *)
Definition noStreams : Streams := mkStreams [] ∅ ∅ ∅ 0%Z.

Definition bindKey (keyType streamId : string) (m : gmap string ApiKeyBinding) (key : ApiKey)
  : gmap string ApiKeyBinding :=
  <[ApiKey_Id key := mkBinding (ApiKey_Hash key) keyType streamId]> m.

Definition addDomain (swd : StreamWithDestinations)
  (m : gmap string (list StreamWithDestinations)) (domain : string)
  : gmap string (list StreamWithDestinations) :=
  <[domain := default [] (m !! domain) ++ [swd]]> m.

(** The body of the loop of [Init] on a decoded element. *)
Definition addStream (env : Env) (acc : Streams) (decoded : StreamWithDestinations) : Streams :=
  let swd := StreamWithDestinations_init env decoded in
  let streams := streams acc ++ [swd] in
  let streamsByIds := <[Id (Stream swd) := swd]> (streamsByIds acc) in
  let streamsByDomains := foldl (addDomain swd) (streamsByDomains acc) (Domains (Stream swd)) in
  let apiKeyBindings :=
    foldl (bindKey "browser" (Id (Stream swd))) (apiKeyBindings acc) (PublicKeys (Stream swd)) in
  let apiKeyBindings :=
    foldl (bindKey "s2s" (Id (Stream swd))) apiKeyBindings (PrivateKeys (Stream swd)) in
  mkStreams streams apiKeyBindings streamsByIds streamsByDomains (lastModified acc).

(** The loop [for dec.More()]: it ends at the end of the array, or with the
    error of the first element that does not decode. *)
Fixpoint decodeAll (env : Env) (acc : Streams) (elements : list (StreamWithDestinations + error))
  : Streams + error :=
  match elements with
  | [] => inl acc
  | inr err :: _ => inr ("Error unmarshalling stream config: " +:+ err)
  | inl swd :: rest => decodeAll env (addStream env acc swd) rest
  end.

(** [Init] of StreamsRepositoryData. The type assertion on a tag that is no
    [time.Time] panics, before the pointer is stored. *)
Definition Init (env : Env) (input : Input) (tag : option Tag) (s : StreamsRepositoryData)
  : StreamsRepositoryData * outcome :=
  match openBracket input with
  | Some err => (s, Returned (Some ("error reading open bracket: " +:+ err)))
  | None =>
      match decodeAll env noStreams (elements input) with
      | inr e => (s, Returned (Some e))
      | inl data =>
          match closeBracket input with
          | Some err => (s, Returned (Some ("error reading closing bracket: " +:+ err)))
          | None =>
              match tag with
              | None => (Some data, Returned None)
              | Some (TagTime t) =>
                  (Some (mkStreams (streams data) (apiKeyBindings data) (streamsByIds data)
                           (streamsByDomains data) t),
                   Returned None)
              | Some TagOther => (s, Panicked)
              end
          end
      end
  end.

Definition GetData (s : StreamsRepositoryData) : option Streams := s.

(** [Store]: what is handed to the encoder, and the error answered. *)
Definition Store (env : Env) (s : StreamsRepositoryData)
  : option (list StreamWithDestinations) * option error :=
  match s with
  | Some d => (Some (streams d), Encode_err env)
  | None => (None, None)
  end.

(** The bindings a stream asks for, in the order the loops make them: the
    public keys, then the private keys. *)
Definition keyBindings (swd : StreamWithDestinations) : list (string * ApiKeyBinding) :=
  ((fun key => (ApiKey_Id key, mkBinding (ApiKey_Hash key) "browser" (Id (Stream swd))))
     <$> PublicKeys (Stream swd))
  ++ ((fun key => (ApiKey_Id key, mkBinding (ApiKey_Hash key) "s2s" (Id (Stream swd))))
        <$> PrivateKeys (Stream swd)).

(** A destination [init] does not skip. *)
Definition usable (d : ShortDestinationConfig) : bool :=
  negb (bool_decide (Destination_Id d = EmptyString)
        || bool_decide (DestinationType d = EmptyString)).

Definition isDevice (env : Env) (d : ShortDestinationConfig) : bool :=
  bool_decide (DestinationType d ∈ DeviceOptions env).

End Repository.

(** ** Event times of the file-storage stream *)

Module EventTime.

(** A [time.Time] as an instant: its distance from the zero time (January 1 of
    year 1), which is what [IsZero], [After] and [Before] look at. *)
Definition Time : Type := Z.

Definition IsZero (t : Time) : bool := bool_decide (t = 0%Z).
Definition After (t u : Time) : bool := bool_decide (u < t)%Z.
Definition Before (t u : Time) : bool := bool_decide (t < u)%Z.

Record Env := mkEnv {
  ReformatTimeValue : Value -> option Time;  (* types.ReformatTimeValue(v).(time.Time) *)
  Now : Time                                 (* time.Now() *)
}.

(** [getEventTime]: the time in the timestamp column when the stream has one
    and the value there reformats to a time, the time of the call otherwise.
    A column the object lacks reads as nil. *)
Definition getEventTime (env : Env) (ps : FileStorage.AbstractFileStorageStream)
  (object : Object) : Time :=
  if bool_decide (FileStorage.timestampColumn ps ≠ EmptyString) then
    match ReformatTimeValue env (default VNil (object !! FileStorage.timestampColumn ps)) with
    | Some tm => tm
    | None => Now env
    end
  else Now env.

(** The fields [firstEventTime] and [lastEventTime] of the stream. *)
Record Times := mkTimes {
  firstEventTime : Time;
  lastEventTime : Time
}.

(** The zero value of the two fields, as the constructor leaves them. *)
Definition noTimes : Times := mkTimes 0%Z 0%Z.

(** The two assignments of [Consume] that follow [getEventTime]. *)
Definition track (t : Times) (eventTime : Time) : Times :=
  let lastEventTime :=
    if IsZero (lastEventTime t) || After eventTime (lastEventTime t)
    then eventTime else lastEventTime t in
  let firstEventTime :=
    if IsZero (firstEventTime t) || Before eventTime (firstEventTime t)
    then eventTime else firstEventTime t in
  mkTimes firstEventTime lastEventTime.

(** What [Consume] does to the two fields: nothing when [init] answers an
    error, the tracking of the event time otherwise, whatever happens to the
    object afterwards. *)
Definition Consume_times (fs : FileStorage.Env) (env : Env)
  (ps : FileStorage.AbstractFileStorageStream) (t : Times) (object : Object) : Times :=
  match FileStorage.init fs ps with
  | (_, Some _) => t
  | (ps, None) => track t (getEventTime env ps object)
  end.

End EventTime.

(** ** The ingress manager (Manager.Init, AddDomain, CheckCertificate) *)

Module Ingress.

Definition Time : Type := Z.

Inductive DomainStatus :=
| DomainStatusError
| DomainStatusCNAME
| DomainStatusOK
| DomainStatusIssuingCert.

Inductive CertificateStatus :=
| CertificateStatusError
| CertificateStatusPending
| CertificateStatusOK.

#[global] Instance DomainStatus_eq_dec : EqDecision DomainStatus.
Proof. solve_decision. Defined.

(** The fields of [Config] the manager reads. *)
Record Config := mkConfig {
  KubernetesNamespace : string;
  IngressName : string;
  InitialSetup : bool;
  CertificateIssuerName : string;
  StaticIPName : string;
  StaticIPAddress : string;
  BackendServiceName : string;
  BackendServicePort : Z
}.

Record IngressTLS := mkTLS {
  Hosts : list string;
  SecretName : string
}.

(** An ingress of the cluster, as far as the manager writes and reads it. *)
Record IngressObject := mkIngress {
  Name : string;
  Namespace : string;
  Labels : gmap string string;
  Annotations : gmap string string;
  BackendName : string;
  BackendPort : Z;
  TLS : list IngressTLS
}.

Record Secret := mkSecret {
  SecretType : string;
  Data : gmap string string
}.

(** The calls that leave the process. *)
Inductive Call :=
| CallLookupIP (domain : string)
| CallGetIngress (name : string)
| CallCreateIngress (ingress : IngressObject)
| CallPatchIngress (name path : string) (value : IngressTLS)
| CallGetSecret (name : string)
| CallCreateSecret (name : string)
| CallDial (address : string).

(** The namespace of the cluster the manager works in: its ingresses and
    secrets by name, and the calls made so far. *)
Record Cluster := mkCluster {
  ingresses : gmap string IngressObject;
  secrets : gmap string Secret;
  calls : list Call
}.

Definition logCall (c : Call) (k : Cluster) : Cluster :=
  mkCluster (ingresses k) (secrets k) (calls k ++ [c]).

(** How a Get can go wrong other than by finding nothing: with an error, or
    with a nil object and no error (the manager checks for both). *)
Inductive GetFault :=
| GetFails (err : error)
| GetNothing.

(** What [tls.Dial] and the connection answer. *)
Inductive DialResult :=
| DialFails (err : error)
| Connected (verifyHostname : option error) (notAfter : Time).

Record Env := mkEnv {
  LookupIP : string -> list string + error;  (* net.LookupIP, each address as ip.String() *)
  GetIngress_fault : option GetFault;
  CreateIngress_err : option error;
  Marshal_err : option error;                (* json.Marshal of the patch *)
  PatchIngress_err : option error;
  GetSecret_fault : option GetFault;
  CreateSecret_err : option error;
  Dial : string -> DialResult;
  Now : Time;
  notFound : string -> error;                (* what [%v] prints for the API's not-found error *)
  alreadyExists : string -> error;           (* and for its already-exists error *)
  showTime : Time -> string;                 (* what [%v] prints for a time *)
  NewError : string -> error                 (* Service.NewError on the formatted message *)
}.

(** What a Get answers: the object, not found, an error, or nil. *)
Inductive Got (A : Type) :=
| GotObject (a : A)
| GotNotFound
| GotError (err : error)
| GotNil.

Arguments GotObject {A} a.
Arguments GotNotFound {A}.
Arguments GotError {A} err.
Arguments GotNil {A}.

Definition get {A : Type} (fault : option GetFault) (found : option A) : Got A :=
  match fault with
  | Some (GetFails err) => GotError err
  | Some GetNothing => GotNil
  | None =>
      match found with
      | Some a => GotObject a
      | None => GotNotFound
      end
  end.

(** A Create of the API: it fails when the call fails and when the name is
    taken. *)
Definition create {A : Type} (fault : option error) (taken : error) (name : string) (a : A)
  (objects : gmap string A) : gmap string A + error :=
  match fault with
  | Some err => inr err
  | None =>
      match objects !! name with
      | Some _ => inr taken
      | None => inl (<[name := a]> objects)
      end
  end.

(** [int32(n)] on a Go [int]: the low 32 bits, read as a signed number. *)
Definition int32 (n : Z) : Z := ((n + 2147483648) mod 4294967296 - 2147483648)%Z.

(** The ingress [Init] creates. *)
Definition newIngress (cfg : Config) : IngressObject :=
  mkIngress (IngressName cfg) (KubernetesNamespace cfg)
    {[ "jitsu.com/creator" := "bulker-ingress-manager" ]}
    {[ "kubernetes.io/ingress.class" := "gce";
       "cert-manager.io/cluster-issuer" := CertificateIssuerName cfg;
       "kubernetes.io/ingress.allow-http" := "true";
       "kubernetes.io/ingress.global-static-ip-name" := StaticIPName cfg ]}
    (BackendServiceName cfg) (int32 (BackendServicePort cfg)) [].

(** [Manager.Init] *)
Definition Init (env : Env) (cfg : Config) (k : Cluster) : Cluster * option error :=
  let k := logCall (CallGetIngress (IngressName cfg)) k in
  let createIngress (k : Cluster) :=
    if negb (InitialSetup cfg)
    then (k, Some (NewError env "ingress not found. And initial setup is disabled"))
    else
      let ingress := newIngress cfg in
      let k := logCall (CallCreateIngress ingress) k in
      match create (CreateIngress_err env) (alreadyExists env (IngressName cfg))
              (IngressName cfg) ingress (ingresses k) with
      | inr err => (k, Some (NewError env ("error creating ingress: " +:+ err)))
      | inl ingresses => (mkCluster ingresses (secrets k) (calls k), None)
      end in
  match get (GetIngress_fault env) (ingresses k !! IngressName cfg) with
  | GotError err => (k, Some (NewError env ("error getting ingress: " +:+ err)))
  | GotNotFound => createIngress k
  | GotNil => createIngress k
  | GotObject _ => (k, None)
  end.

(** [CheckCertificate] *)
Definition CheckCertificate (env : Env) (k : Cluster) (domain : string)
  : Cluster * (CertificateStatus * option error) :=
  let k := logCall (CallDial (domain +:+ ":443")) k in
  match Dial env (domain +:+ ":443") with
  | DialFails _ => (k, (CertificateStatusPending, None))
  | Connected (Some _) _ => (k, (CertificateStatusPending, None))
  | Connected None expiry =>
      if bool_decide (expiry < Now env)%Z
      then (k, (CertificateStatusError, Some ("certificate expired: " +:+ showTime env expiry)))
      else (k, (CertificateStatusOK, None))
  end.

(** The loop of [AddDomain] over the TLS entries of the ingress: whether an
    entry has the domain as its first host. [None] is the run-time panic of
    [t.Hosts[0]] on an entry without hosts. *)
Fixpoint domainInIngress (ingressTLS : list IngressTLS) (domain : string) : option bool :=
  match ingressTLS with
  | [] => Some false
  | t :: rest =>
      match Hosts t with
      | [] => None
      | host :: _ =>
          if bool_decide (host = domain) then Some true else domainInIngress rest domain
      end
  end.

(** The patch [AddDomain] sends: the path, and the entry it adds. *)
Definition patchOf (ingressTLS : list IngressTLS) (domain : string) : string * IngressTLS :=
  if bool_decide (length ingressTLS = 0)
  then ("/spec/tls", mkTLS [domain] domain)
  else ("/spec/tls/-", mkTLS [domain] domain).

(** The JSON patch on the ingress of the cluster: [add] at [/spec/tls] sets
    the array, [add] at [/spec/tls/-] appends to it. *)
Definition applyPatch (path : string) (value : IngressTLS) (ingress : IngressObject)
  : IngressObject :=
  let tls := if bool_decide (path = "/spec/tls") then [value] else TLS ingress ++ [value] in
  mkIngress (Name ingress) (Namespace ingress) (Labels ingress) (Annotations ingress)
    (BackendName ingress) (BackendPort ingress) tls.

(** The TLS secret [AddDomain] creates, with an empty certificate and key. *)
Definition emptySecret : Secret :=
  mkSecret "kubernetes.io/tls" {[ "tls.crt" := EmptyString; "tls.key" := EmptyString ]}.

(** [AddDomain]. [None] in place of the results is a panic. *)
Definition AddDomain (env : Env) (cfg : Config) (k : Cluster) (domain : string)
  : Cluster * option (DomainStatus * option error) :=
  let k := logCall (CallLookupIP domain) k in
  match LookupIP env domain with
  | inr _ => (k, Some (DomainStatusCNAME, None))
  | inl ips =>
      if negb (bool_decide (ips = [StaticIPAddress cfg]))
      then (k, Some (DomainStatusCNAME, None))
      else
        let k := logCall (CallGetIngress (IngressName cfg)) k in
        let failed (err : error) :=
          (k, Some (DomainStatusError, Some ("error getting ingress: " +:+ err))) in
        match get (GetIngress_fault env) (ingresses k !! IngressName cfg) with
        | GotError err => failed err
        | GotNotFound => failed (notFound env (IngressName cfg))
        | GotNil => failed "<nil>"
        | GotObject ingress =>
            let ingressTLS := TLS ingress in
            match domainInIngress ingressTLS domain with
            | None => (k, None)
            | Some domainAlreadyExists =>
                let patched :=
                  if domainAlreadyExists then inl k
                  else
                    let '(path, value) := patchOf ingressTLS domain in
                    match Marshal_err env with
                    | Some err => inr (k, "error marshaling patch json: " +:+ err)
                    | None =>
                        let k := logCall (CallPatchIngress (IngressName cfg) path value) k in
                        match PatchIngress_err env with
                        | Some err => inr (k, "error patching ingress: " +:+ err)
                        | None =>
                            inl (mkCluster
                                   (<[IngressName cfg := applyPatch path value ingress]>
                                      (ingresses k))
                                   (secrets k) (calls k))
                        end
                    end in
                match patched with
                | inr (k, err) => (k, Some (DomainStatusError, Some err))
                | inl k =>
                    let k := logCall (CallGetSecret domain) k in
                    let createSecret (k : Cluster) :=
                      let k := logCall (CallCreateSecret domain) k in
                      match create (CreateSecret_err env) (alreadyExists env domain)
                              domain emptySecret (secrets k) with
                      | inr err => inr (k, "error creating tls secret: " +:+ err)
                      | inl secrets => inl (mkCluster (ingresses k) secrets (calls k), false)
                      end in
                    let secret :=
                      match get (GetSecret_fault env) (secrets k !! domain) with
                      | GotError err => inr (k, "error getting tls secret: " +:+ err)
                      | GotNotFound => createSecret k
                      | GotNil => createSecret k
                      | GotObject _ => inl (k, true)
                      end in
                    match secret with
                    | inr (k, err) => (k, Some (DomainStatusError, Some err))
                    | inl (k, secretAlreadyExists) =>
                        if negb domainAlreadyExists || negb secretAlreadyExists
                        then (k, Some (DomainStatusIssuingCert, None))
                        else
                          match CheckCertificate env k domain with
                          | (k, (CertificateStatusError, err)) =>
                              (k, Some (DomainStatusError, err))
                          | (k, (CertificateStatusPending, _)) =>
                              (k, Some (DomainStatusIssuingCert, None))
                          | (k, (CertificateStatusOK, _)) =>
                              (k, Some (DomainStatusOK, None))
                          end
                    end
                end
            end
        end
  end.

End Ingress.

(** ** Vocabulary of the further properties *)

(** A destination [init] of StreamWithDestinations puts into the synchronous
    ([sync] true) or the asynchronous slice. *)
Definition picks (env : Repository.Env) (sync : bool) (d : Repository.ShortDestinationConfig)
  : Prop :=
  Repository.usable d = true /\ Repository.isDevice env d = sync.

#[global] Instance picks_dec env sync d : Decision (picks env sync d).
Proof. unfold picks. apply _. Defined.

(** The objects of a batch that no later object of the batch shares its
    primary key with, in the order of the batch. *)
Fixpoint latestOnly (recs : list (gmap string Value * string)) : list (gmap string Value) :=
  match recs with
  | [] => []
  | (o, pk) :: rest =>
      if bool_decide (pk ∈ rest.*2) then latestOnly rest else o :: latestOnly rest
  end.

(** An environment in which nothing the flush of the file-storage stream
    calls fails. *)
Definition fsFlushes (env : FileStorage.Env) : Prop :=
  FileStorage.Flush_err env = None /\ FileStorage.Sync_err env = None
  /\ FileStorage.CreateTemp_err env = None /\ FileStorage.Init_err env = None
  /\ FileStorage.Open_err env = None /\ FileStorage.Write_err env = None
  /\ FileStorage.Seek_err env = None /\ FileStorage.Upload_err env = None
  /\ (forall o, FileStorage.targetMarshal_err env o = None).

(** A merge stream of the file-storage kind in the middle of a run without
    errors: it holds the objects of [recs], Active, every row a success. *)
Definition fsRuns (ps : FileStorage.AbstractFileStorageStream)
  (recs : list (gmap string Value * string)) : Prop :=
  BatchInv (fsView ps) recs
  /\ fsReady ps
  /\ Status_ (FileStorage.state ps) = Active
  /\ LastError (FileStorage.state ps) = None
  /\ SuccessfulRows (FileStorage.state ps) = length recs
  /\ (forall m, FileStorage.marshaller ps = Some m -> Format m = FileFormatNDJSON).

(** A call that hands a file to the warehouse or to S3 hands it the objects
    [objs]; any other call counts. *)
Definition handsOver (objs : list (gmap string Value)) (op : Sql.Op) : Prop :=
  match op with
  | Sql.OpLoadTable _ _ lines => objectsOf lines = objs
  | Sql.OpS3Upload _ lines => objectsOf lines = objs
  | _ => True
  end.

(** A call of the ingress manager that patches the ingress. *)
Definition isPatch (c : Ingress.Call) : bool :=
  match c with
  | Ingress.CallPatchIngress _ _ _ => true
  | _ => false
  end.

(** Further inputs. *)
Module Scenarios.

(** A warehouse side that reports every line of a batch file as 10 MiB
    long. *)
Definition tenMiBLines : Sql.Env :=
  Sql.mkEnv FileFormatCSV FileCompressionNONE (fun s => s) false None None None None
    (fun o => inl (Examples.tableOf o, o)) "a1b2c3d4e5f6" (fun a b => b ∪ a) None None None None
    (fun _ => None) None None None None (fun _ => None) None (fun _ => 10485760%N)
    None None None None None None None None.

(** A transaction whose Insert fails. *)
Definition insertFails : Sql.Env :=
  Sql.mkEnv FileFormatNDJSON FileCompressionNONE (fun s => s) false None None None None
    (fun o => inl (Examples.tableOf o, o)) "a1b2c3d4e5f6" (fun a b => b ∪ a) None None None None
    (fun _ => None) None None None None (fun _ => None) None lineSize
    None None None None (Some "insert failed") None None None.

(** A ReplacePartition stream that inserts row by row: no batch file. *)
Definition direct : StreamOptions :=
  mkOptions false [] EmptyString "2024-01" EmptyString None.

(** A stream that stages its batch in a local file and loads it through the
    bucket [bucket] of S3. *)
Definition viaS3 : StreamOptions :=
  mkOptions false [] EmptyString EmptyString "batch" (Some "bucket").

(** The ingress manager of a cluster whose static address is 203.0.113.7. *)
Definition ingressConfig : Ingress.Config :=
  Ingress.mkConfig "default" "jitsu-ingress" true "letsencrypt" "jitsu-ip" "203.0.113.7"
    "ingest" 3049%Z.

(** A network in which every domain resolves to the static address and
    serves a certificate that is valid until 1000; it is 500 now. *)
Definition resolves : Ingress.Env :=
  Ingress.mkEnv (fun _ => inl ["203.0.113.7"]) None None None None None None
    (fun _ => Ingress.Connected None 1000%Z) 500%Z
    (fun name => name +:+ " not found") (fun name => name +:+ " already exists")
    pretty (fun msg => msg).

(** A network in which every domain resolves to another address. *)
Definition otherAddress : Ingress.Env :=
  Ingress.mkEnv (fun _ => inl ["198.51.100.1"]) None None None None None None
    (fun _ => Ingress.Connected None 1000%Z) 500%Z
    (fun name => name +:+ " not found") (fun name => name +:+ " already exists")
    pretty (fun msg => msg).

Definition emptyCluster : Ingress.Cluster := Ingress.mkCluster ∅ ∅ [].

(** The cluster after Init. *)
Definition readyCluster : Ingress.Cluster := (Ingress.Init resolves ingressConfig emptyCluster).1.

End Scenarios.

(** ** Properties *)

(** Case analysis on the branches a call took. *)
Ltac branches H :=
  repeat match type of H with
         | context [if ?b then _ else _] => destruct b eqn:?
         | context [match ?x with _ => _ end] => destruct x eqn:?
         end.

Lemma fs_init_keeps (env : FileStorage.Env) (ps ps1 : FileStorage.AbstractFileStorageStream)
  (err : option error) :
  FileStorage.init env ps = (ps1, err) ->
  FileStorage.merge ps1 = FileStorage.merge ps
  /\ FileStorage.pkColumns ps1 = FileStorage.pkColumns ps
  /\ FileStorage.eventsInBatch ps1 = FileStorage.eventsInBatch ps
  /\ FileStorage.state ps1 = FileStorage.state ps
  /\ FileStorage.batchFileLinesByPK ps1 = FileStorage.batchFileLinesByPK ps
  /\ FileStorage.batchFileSkipLines ps1 = FileStorage.batchFileSkipLines ps
  /\ batchObjects (FileStorage.batchFile ps1) = batchObjects (FileStorage.batchFile ps)
  /\ (err = None -> fsReady ps ->
      is_Some (FileStorage.marshaller ps1) /\ is_Some (FileStorage.targetMarshaller ps1)
      /\ is_Some (FileStorage.batchFile ps1)).
Proof.
  unfold FileStorage.init, fsReady. intros H.
  branches H; simplify_eq; cbn;
    (repeat split; try reflexivity; try congruence; try (intros; naive_solver)).
  all: rewrite Heqo; reflexivity.
Qed.

Lemma objectsOf_app (a b : list Line) : objectsOf (a ++ b) = objectsOf a ++ objectsOf b.
Proof. unfold objectsOf. apply omap_app. Qed.

Lemma Marshaller_Init_spec (m m' : Marshaller) (header : list string) (hdr : list Line) :
  Marshaller_Init m header = (m', hdr) ->
  Format m' = Format m /\ Compression m' = Compression m /\ objectsOf hdr = []
  /\ (mInited m = true -> m' = m /\ hdr = [])
  /\ (mInited m = false -> mInited m' = true /\ hdr = if NeedHeader m then [HeaderLine header] else []).
Proof.
  unfold Marshaller_Init. intros H.
  destruct (mInited m) eqn:Hi; simplify_eq; cbn.
  - repeat split; auto; discriminate.
  - repeat split; auto; try discriminate. destruct (NeedHeader m); reflexivity.
Qed.

Lemma writeLinesTo_objects (hdr : list Line) (f : option File) :
  objectsOf hdr = [] ->
  batchObjects (writeLinesTo hdr f).1 = batchObjects f.
Proof.
  intros Hh. unfold writeLinesTo, writeLines, batchObjects.
  destruct f as [f|]; [|reflexivity].
  destruct (fclosed f); cbn; [reflexivity|].
  rewrite objectsOf_app, Hh. apply app_nil_r.
Qed.

(** A merge stream with the single primary-key column [col] whose set-up did
    not stop half-way ([fsReady]): an object without that column is a
    row-level error. The call returns the error, the batch file holds the
    same objects as before, [eventsInBatch] and [successfulRows] keep their
    values, [errorRowIndex] is the number of processed rows and [lastError]
    is the error. *)
Lemma consume_without_primary_key (env : FileStorage.Env)
  (ps : FileStorage.AbstractFileStorageStream) (object : gmap string Value) (col : string) :
  FileStorage.merge ps = true ->
  FileStorage.pkColumns ps = {[ col ]} ->
  FileStorage.pkRange env = [col] ->
  fsReady ps ->
  object !! col = None ->
  (forall flat, FileStorage.FlattenObject env object = inl flat -> flat !! col = None) ->
  exists (ps' : FileStorage.AbstractFileStorageStream) (e : error),
    FileStorage.Consume env ps object = (ps', Returned (Some e))
    /\ batchObjects (FileStorage.batchFile ps') = batchObjects (FileStorage.batchFile ps)
    /\ FileStorage.eventsInBatch ps' = FileStorage.eventsInBatch ps
    /\ SuccessfulRows (FileStorage.state ps') = SuccessfulRows (FileStorage.state ps)
    /\ ErrorRowIndex (FileStorage.state ps') = ProcessedRows (FileStorage.state ps)
    /\ LastError (FileStorage.state ps') = Some e.
Proof.
  intros Hmerge Hpk Hrange Hready Hobj Hflat.
  unfold FileStorage.Consume, FileStorage.Consume_body.
  destruct (FileStorage.init env ps) as [ps1 err1] eqn:Hinit.
  destruct (fs_init_keeps _ _ _ _ Hinit)
    as (Hm & Hp & Hev & Hst & _ & _ & Hobjs & Hsome).
  destruct err1 as [e|].
  { exists (FileStorage.postConsume ps1 (Some e)).1, e. cbn. rewrite Hst.
    repeat split; auto. }
  destruct (Hsome eq_refl Hready) as ([m Hmar] & [tm Htm] & _).
  destruct (FileStorage.preprocess env ps1 object) as [po|e] eqn:Hpre.
  2:{ exists (FileStorage.postConsume ps1 (Some e)).1, e. cbn. rewrite Hst.
      repeat split; auto. }
  assert (Hpo : po !! col = None).
  { unfold FileStorage.preprocess in Hpre. destruct (FileStorage.flatten ps1); [auto|].
    by simplify_eq. }
  rewrite Htm.
  set (ps2 := if bool_decide (Format tm = FileFormatCSV) then _ else ps1).
  assert (H2 : FileStorage.merge ps2 = true /\ FileStorage.pkColumns ps2 = {[col]}
               /\ FileStorage.marshaller ps2 = Some m
               /\ FileStorage.batchFile ps2 = FileStorage.batchFile ps1
               /\ FileStorage.eventsInBatch ps2 = FileStorage.eventsInBatch ps1
               /\ FileStorage.state ps2 = FileStorage.state ps1).
  { subst ps2. destruct (bool_decide _); cbn; rewrite ?Hm, ?Hp; repeat split; auto. }
  destruct H2 as (Hm2 & Hp2 & Hmar2 & Hbf2 & Hev2 & Hst2).
  unfold FileStorage.writeToBatchFile. rewrite Hmar2.
  destruct (Marshaller_Init m (sortedStrings (FileStorage.csvHeader ps2))) as [m' hdr] eqn:HI.
  destruct (Marshaller_Init_spec _ _ _ _ HI) as (_ & _ & Hhdr & _).
  cbn. rewrite Hm2.
  unfold FileStorage.getPKValue. cbn. rewrite Hp2, size_singleton. cbn.
  rewrite Hrange, Hpo. cbn.
  eexists _, _. split; [reflexivity|]. cbn.
  rewrite writeLinesTo_objects by exact Hhdr.
  rewrite Hbf2, Hobjs, Hev2, Hev, Hst2, Hst. repeat split; auto.
Qed.

Lemma consume_without_primary_key_witness :
  exists (ps' : FileStorage.AbstractFileStorageStream) (e : error),
    FileStorage.Consume Examples.fsEnv (Examples.fsNew Examples.mergeById) Examples.noKey
    = (ps', Returned (Some e))
    /\ batchObjects (FileStorage.batchFile ps')
       = batchObjects (FileStorage.batchFile (Examples.fsNew Examples.mergeById))
    /\ FileStorage.eventsInBatch ps'
       = FileStorage.eventsInBatch (Examples.fsNew Examples.mergeById)
    /\ SuccessfulRows (FileStorage.state ps')
       = SuccessfulRows (FileStorage.state (Examples.fsNew Examples.mergeById))
    /\ ErrorRowIndex (FileStorage.state ps')
       = ProcessedRows (FileStorage.state (Examples.fsNew Examples.mergeById))
    /\ LastError (FileStorage.state ps') = Some e.
Proof.
  apply (consume_without_primary_key Examples.fsEnv (Examples.fsNew Examples.mergeById)
           Examples.noKey "id").
  - reflexivity.
  - vm_compute. reflexivity.
  - reflexivity.
  - split; intros H; vm_compute in H; [discriminate | destruct H; discriminate].
  - vm_compute. reflexivity.
  - intros flat H. vm_compute in H. injection H as <-. vm_compute. reflexivity.
Defined.

(** C10, at an input where the code leaves the claim: a merge stream with
    the primary key [id] on a file adapter whose format NewMarshaller does
    not know. The first Consume stops in [init] after the batch file was
    created and before there is a target marshaller, and returns the error
    of NewMarshaller. The [init] of the second Consume finds the batch file,
    skips the set-up and marks the stream inited. Consume of an object
    without [id] then panics at [ps.targetMarshaller.Format()], before
    [getPKValue] is reached; the deferred [postConsume] sees no error and
    counts a successful row, and neither [errorRowIndex] nor [lastError] is
    written. *)
Theorem consume_without_key_after_failed_init :
  let first := FileStorage.Consume Examples.fsUnknownFormat
                 (Examples.fsNew Examples.mergeById) (Examples.row 1 "a") in
  let ps := first.1 in
  let r := FileStorage.Consume Examples.fsUnknownFormat ps Examples.noKey in
  first.2 = Returned (Some "Unknown file format")
  /\ FileStorage.merge ps = true
  /\ FileStorage.pkColumns ps = {[ "id" ]}
  /\ is_Some (FileStorage.batchFile ps)
  /\ FileStorage.targetMarshaller ps = None
  /\ FileStorage.inited ps = false
  /\ Examples.noKey !! "id" = None
  /\ r.2 = Panicked
  /\ FileStorage.inited r.1 = true
  /\ SuccessfulRows (FileStorage.state r.1) = S (SuccessfulRows (FileStorage.state ps))
  /\ ErrorRowIndex (FileStorage.state r.1) = ErrorRowIndex (FileStorage.state ps)
  /\ LastError (FileStorage.state r.1) = LastError (FileStorage.state ps).
Proof.
  cbv zeta. split; [reflexivity|]. split; [reflexivity|].
  split; [vm_compute; reflexivity|]. split; [vm_compute; eauto|].
  repeat split; vm_compute; reflexivity.
Qed.

(** C8, at the input where the code leaves the claim: a new stream consumes
    one object without error; the successful rows are 1 and the processed
    rows still 0. *)
Theorem consume_leaves_processed_rows :
  exists ps' : FileStorage.AbstractFileStorageStream,
    FileStorage.Consume Examples.fsEnv (Examples.fsNew noOptions) (Examples.row 1 "a")
    = (ps', Returned None)
    /\ ProcessedRows (FileStorage.state ps') = 0
    /\ SuccessfulRows (FileStorage.state ps') = 1.
Proof. eexists. vm_compute. repeat split; reflexivity. Qed.

(** The general fact behind it: no Consume call touches the processed rows. *)
Lemma fs_writeToBatchFile_state (env : FileStorage.Env)
  (ps : FileStorage.AbstractFileStorageStream) (o : gmap string Value) :
  FileStorage.state (FileStorage.writeToBatchFile env ps o).1 = FileStorage.state ps.
Proof.
  unfold FileStorage.writeToBatchFile, writeLinesTo.
  repeat case_match; simplify_eq; cbn; try reflexivity.
Qed.

Lemma fs_Consume_body_state (env : FileStorage.Env)
  (ps : FileStorage.AbstractFileStorageStream) (o : gmap string Value) :
  FileStorage.state (FileStorage.Consume_body env ps o).1 = FileStorage.state ps.
Proof.
  unfold FileStorage.Consume_body.
  destruct (FileStorage.init env ps) as [ps1 err1] eqn:Hinit.
  destruct (fs_init_keeps _ _ _ _ Hinit) as (_ & _ & _ & Hst & _).
  repeat case_match; simplify_eq; cbn; try assumption.
  all: rewrite fs_writeToBatchFile_state; cbn; assumption.
Qed.

Lemma fs_Consume_counters (env : FileStorage.Env)
  (ps : FileStorage.AbstractFileStorageStream) (o : gmap string Value) :
  let st := FileStorage.state ps in
  let st' := FileStorage.state (FileStorage.Consume env ps o).1 in
  ProcessedRows st' = ProcessedRows st
  /\ Status_ st' = Status_ st
  /\ match (FileStorage.Consume env ps o).2 with
     | Returned None => SuccessfulRows st' = S (SuccessfulRows st)
     | Returned (Some e) =>
         SuccessfulRows st' = SuccessfulRows st
         /\ ErrorRowIndex st' = ProcessedRows st /\ LastError st' = Some e
     | Panicked => SuccessfulRows st' = S (SuccessfulRows st)
     end.
Proof.
  cbn. unfold FileStorage.Consume.
  pose proof (fs_Consume_body_state env ps o) as Hst.
  destruct (FileStorage.Consume_body env ps o) as [ps1 [[e|]|]]; cbn in *; rewrite Hst; auto.
Qed.

(** *** Status transitions *)

Lemma moves_refl (s : Status) : moves s s.
Proof. by left. Qed.

Lemma fs_flushBatchFile_state (env : FileStorage.Env)
  (ps : FileStorage.AbstractFileStorageStream) :
  FileStorage.state (FileStorage.flushBatchFile env ps).1.1 = FileStorage.state ps.
Proof.
  unfold FileStorage.flushBatchFile, FileStorage.flushBatchFile_body.
  repeat case_match; simplify_eq; cbn; reflexivity.
Qed.

Lemma fs_Complete_body_state (env : FileStorage.Env)
  (ps : FileStorage.AbstractFileStorageStream) :
  FileStorage.state (FileStorage.Complete_body env ps).1.1 = FileStorage.state ps.
Proof.
  unfold FileStorage.Complete_body.
  destruct (LastError (FileStorage.state ps)); [reflexivity|].
  destruct (bool_decide _); [|reflexivity].
  destruct (FileStorage.batchFile ps); [|reflexivity].
  apply fs_flushBatchFile_state.
Qed.

Lemma fs_Complete_status (env : FileStorage.Env)
  (ps : FileStorage.AbstractFileStorageStream) :
  Status_ (FileStorage.state ps) = Active ->
  match (FileStorage.Complete env ps).1.2 with
  | Returned (Some _) => Status_ (FileStorage.state (FileStorage.Complete env ps).1.1) = Failed
  | Returned None => Status_ (FileStorage.state (FileStorage.Complete env ps).1.1) = Completed
  | Panicked =>
      Status_ (FileStorage.state (FileStorage.Complete env ps).1.1) = Active
      \/ Status_ (FileStorage.state (FileStorage.Complete env ps).1.1) = Completed
  end.
Proof.
  intros Hact. unfold FileStorage.Complete.
  rewrite bool_decide_eq_false_2 by (intros H; apply H, Hact).
  pose proof (fs_Complete_body_state env ps) as Hst.
  destruct (FileStorage.Complete_body env ps) as [[ps1 out] up]. cbn in Hst.
  unfold FileStorage.postComplete.
  destruct out as [[e|]|]; destruct (FileStorage.batchFile ps1); cbn; auto.
  all: rewrite Hst; auto.
Qed.

Lemma sql_init_state (env : Sql.Env) (w : Sql.World) (ps : Sql.AbstractTransactionalSQLStream) :
  Sql.state (Sql.abs (Sql.init env w ps).1.2) = Sql.state (Sql.abs ps).
Proof.
  unfold Sql.init. repeat case_match; simplify_eq; cbn; reflexivity.
Qed.

Lemma sql_adjustTables_state (env : Sql.Env) (w : Sql.World)
  (ps : Sql.AbstractTransactionalSQLStream) (t : Sql.Table) :
  Sql.abs (Sql.adjustTables env w ps t).1.2 = Sql.abs ps.
Proof.
  unfold Sql.adjustTables. repeat case_match; simplify_eq; cbn; reflexivity.
Qed.

Lemma sql_writeToBatchFile_state (env : Sql.Env) (w : Sql.World)
  (ps : Sql.AbstractTransactionalSQLStream) (t : Sql.Table) (o : gmap string Value) :
  Sql.abs (Sql.writeToBatchFile env w ps t o).1.2 = Sql.abs ps.
Proof.
  unfold Sql.writeToBatchFile.
  pose proof (sql_adjustTables_state env w ps t) as Ha.
  destruct (Sql.adjustTables env w ps t) as [[w1 ps1] out1]. cbn in Ha.
  unfold writeLinesTo.
  repeat case_match; simplify_eq; cbn; assumption.
Qed.

Lemma sql_insert_state (env : Sql.Env) (w : Sql.World)
  (ps : Sql.AbstractTransactionalSQLStream) (t : Sql.Table) (o : gmap string Value) :
  Sql.abs (Sql.insert env w ps t o).1.2 = Sql.abs ps.
Proof.
  unfold Sql.insert.
  pose proof (sql_adjustTables_state env w ps t) as Ha.
  destruct (Sql.adjustTables env w ps t) as [[w1 ps1] out1]. cbn in Ha.
  repeat case_match; simplify_eq; cbn; assumption.
Qed.

Lemma sql_Consume_body_state (env : Sql.Env) (w : Sql.World)
  (rp : Sql.ReplacePartitionStream) (o : gmap string Value) :
  Sql.state (Sql.abs (Sql.ReplacePartition_Consume_body env w rp o).1.2)
  = Sql.state (Sql.abs (Sql.base rp)).
Proof.
  unfold Sql.ReplacePartition_Consume_body.
  pose proof (sql_init_state env w (Sql.base rp)) as Hi.
  destruct (Sql.init env w (Sql.base rp)) as [[w1 ps1] err1]. cbn in Hi.
  repeat case_match; simplify_eq; cbn; try assumption.
  - rewrite sql_writeToBatchFile_state. assumption.
  - rewrite sql_insert_state. assumption.
Qed.

Lemma sql_postConsume_status (ps : Sql.AbstractTransactionalSQLStream) (err : option error) :
  Status_ (Sql.state (Sql.abs (Sql.postConsume ps err).1)) = Status_ (Sql.state (Sql.abs ps)).
Proof. destruct err; reflexivity. Qed.

Lemma sql_Consume_status (env : Sql.Env) (w : Sql.World)
  (rp : Sql.ReplacePartitionStream) (o : gmap string Value) :
  Status_ (Sql.state (Sql.abs (Sql.base (Sql.ReplacePartition_Consume env w rp o).1.2)))
  = Status_ (Sql.state (Sql.abs (Sql.base rp))).
Proof.
  unfold Sql.ReplacePartition_Consume.
  pose proof (sql_Consume_body_state env w rp o) as Hb.
  destruct (Sql.ReplacePartition_Consume_body env w rp o) as [[w1 ps1] [err|]]; cbn in *.
  - destruct err; cbn; rewrite Hb; reflexivity.
  - rewrite Hb. reflexivity.
Qed.

Lemma sql_flushBatchFile_state (env : Sql.Env) (w : Sql.World)
  (ps : Sql.AbstractTransactionalSQLStream) :
  Sql.abs (Sql.flushBatchFile env w ps).1.1.2 = Sql.abs ps.
Proof.
  unfold Sql.flushBatchFile, Sql.flushBatchFile_body.
  repeat case_match; simplify_eq; cbn; reflexivity.
Qed.

Lemma sql_Complete_body_state (env : Sql.Env) (w : Sql.World)
  (rp : Sql.ReplacePartitionStream) :
  Sql.abs (Sql.ReplacePartition_Complete_body env w rp).1.2 = Sql.abs (Sql.base rp).
Proof.
  unfold Sql.ReplacePartition_Complete_body.
  destruct (LastError _); [reflexivity|].
  destruct (Sql.clearPartition env w rp) as [w1 [e|]]; [reflexivity|].
  destruct (bool_decide _); [|reflexivity].
  assert (Hf : forall r : Sql.World * Sql.AbstractTransactionalSQLStream * outcome,
             r = match Sql.batchFile (Sql.base rp) with
                 | Some _ => let '(w, ps, out, _) := Sql.flushBatchFile env w1 (Sql.base rp) in
                             (w, ps, out)
                 | None => (w1, Sql.base rp, Returned None)
                 end -> Sql.abs r.1.2 = Sql.abs (Sql.base rp)).
  { intros r ->. destruct (Sql.batchFile (Sql.base rp)); [|reflexivity].
    pose proof (sql_flushBatchFile_state env w1 (Sql.base rp)) as Hs.
    destruct (Sql.flushBatchFile env w1 (Sql.base rp)) as [[[w2 ps2] out2] b2]. exact Hs. }
  specialize (Hf _ eq_refl).
  destruct (match Sql.batchFile (Sql.base rp) with Some _ => _ | None => _ end)
    as [[w2 ps2] out2]. cbn in Hf.
  unfold Sql.EnsureTableWithCaching.
  repeat case_match; simplify_eq; cbn; assumption.
Qed.

Lemma moves_from_Active (s : Status) : moves Active s.
Proof. destruct s; [by left | right; auto ..]. Qed.

Lemma fs_step_moves (c : FileStorage.Call) (ps : FileStorage.AbstractFileStorageStream) :
  moves (Status_ (FileStorage.state ps)) (Status_ (FileStorage.state (FileStorage.step c ps).1)).
Proof.
  destruct (decide (Status_ (FileStorage.state ps) = Active)) as [Hact|Hact].
  { rewrite Hact. apply moves_from_Active. }
  left. destruct c as [env o|env|]; cbn.
  - apply (fs_Consume_counters env ps o).
  - unfold FileStorage.Complete. rewrite bool_decide_eq_true_2 by exact Hact. reflexivity.
  - unfold FileStorage.Abort. rewrite bool_decide_eq_true_2 by exact Hact. reflexivity.
Qed.

Lemma sql_step_moves (c : Sql.Call) (w : Sql.World) (rp : Sql.ReplacePartitionStream) :
  moves (Status_ (Sql.state (Sql.abs (Sql.base rp))))
        (Status_ (Sql.state (Sql.abs (Sql.base (Sql.step c w rp).1.2)))).
Proof.
  destruct (decide (Status_ (Sql.state (Sql.abs (Sql.base rp))) = Active)) as [Hact|Hact].
  { rewrite Hact. apply moves_from_Active. }
  left. destruct c as [env o|env|]; cbn.
  - apply sql_Consume_status.
  - unfold Sql.ReplacePartition_Complete. rewrite bool_decide_eq_true_2 by exact Hact.
    reflexivity.
  - unfold Sql.Abort. rewrite bool_decide_eq_true_2 by exact Hact. reflexivity.
Qed.

(** C7. The status of a stream only leaves Active, for Completed, Failed or
    Aborted: every call moves it that way, and no list of calls brings a
    stream that is not Active to another status. Complete and Abort on a
    stream that is not Active return an error and leave the stream (and, for
    the SQL stream, the warehouse) as it was. *)
Theorem status_only_leaves_active :
  (forall (c : FileStorage.Call) (ps : FileStorage.AbstractFileStorageStream),
      moves (Status_ (FileStorage.state ps))
            (Status_ (FileStorage.state (FileStorage.step c ps).1)))
  /\ (forall (calls : list FileStorage.Call) (ps : FileStorage.AbstractFileStorageStream),
         Status_ (FileStorage.state ps) <> Active ->
         Status_ (FileStorage.state (FileStorage.run calls ps)) = Status_ (FileStorage.state ps))
  /\ (forall (env : FileStorage.Env) (ps : FileStorage.AbstractFileStorageStream),
         Status_ (FileStorage.state ps) <> Active ->
         exists e : error, FileStorage.Complete env ps = (ps, Returned (Some e), None))
  /\ (forall ps : FileStorage.AbstractFileStorageStream,
         Status_ (FileStorage.state ps) <> Active ->
         exists e : error, FileStorage.Abort ps = (ps, Returned (Some e)))
  /\ (forall (c : Sql.Call) (w : Sql.World) (rp : Sql.ReplacePartitionStream),
         moves (Status_ (Sql.state (Sql.abs (Sql.base rp))))
               (Status_ (Sql.state (Sql.abs (Sql.base (Sql.step c w rp).1.2)))))
  /\ (forall (calls : list Sql.Call) (w : Sql.World) (rp : Sql.ReplacePartitionStream),
         Status_ (Sql.state (Sql.abs (Sql.base rp))) <> Active ->
         Status_ (Sql.state (Sql.abs (Sql.base (Sql.run calls w rp).2)))
         = Status_ (Sql.state (Sql.abs (Sql.base rp))))
  /\ (forall (env : Sql.Env) (w : Sql.World) (rp : Sql.ReplacePartitionStream),
         Status_ (Sql.state (Sql.abs (Sql.base rp))) <> Active ->
         exists e : error, Sql.ReplacePartition_Complete env w rp = (w, rp, Returned (Some e)))
  /\ (forall (w : Sql.World) (ps : Sql.AbstractTransactionalSQLStream),
         Status_ (Sql.state (Sql.abs ps)) <> Active ->
         exists e : error, Sql.Abort w ps = (w, ps, Returned (Some e))).
Proof.
  split; [exact fs_step_moves|].
  split.
  { intros calls. induction calls as [|c calls IH]; intros ps Hna; [reflexivity|].
    cbn. destruct (fs_step_moves c ps) as [Heq|[Hact _]]; [|contradiction].
    unfold FileStorage.run in IH. rewrite IH; [exact Heq | rewrite Heq; exact Hna]. }
  split.
  { intros env ps Hna. eexists. unfold FileStorage.Complete.
    rewrite bool_decide_eq_true_2 by exact Hna. reflexivity. }
  split.
  { intros ps Hna. eexists. unfold FileStorage.Abort.
    rewrite bool_decide_eq_true_2 by exact Hna. reflexivity. }
  split; [exact sql_step_moves|].
  split.
  { intros calls. induction calls as [|c calls IH]; intros w rp Hna; [reflexivity|].
    cbn. destruct (sql_step_moves c w rp) as [Heq|[Hact _]]; [|contradiction].
    destruct (Sql.step c w rp) as [[w1 rp1] out1]. cbn in *.
    unfold Sql.run in IH. rewrite IH; [exact Heq | rewrite Heq; exact Hna]. }
  split.
  { intros env w rp Hna. eexists. unfold Sql.ReplacePartition_Complete.
    rewrite bool_decide_eq_true_2 by exact Hna. reflexivity. }
  intros w ps Hna. eexists. unfold Sql.Abort.
  rewrite bool_decide_eq_true_2 by exact Hna. reflexivity.
Qed.

Lemma status_only_leaves_active_witness :
  Status_ (FileStorage.state
             (FileStorage.run [FileStorage.CallConsume Examples.fsEnv (Examples.row 2 "b");
                               FileStorage.CallAbort;
                               FileStorage.CallComplete Examples.fsEnv] Examples.fsDone))
  = Status_ (FileStorage.state Examples.fsDone)
  /\ (exists e : error,
         FileStorage.Complete Examples.fsEnv Examples.fsDone
         = (Examples.fsDone, Returned (Some e), None))
  /\ (exists e : error, FileStorage.Abort Examples.fsDone = (Examples.fsDone, Returned (Some e)))
  /\ Status_ (Sql.state (Sql.abs (Sql.base
        (Sql.run [Sql.CallConsume Examples.sqlEnv (Examples.row 2 "b"); Sql.CallAbort;
                  Sql.CallComplete Examples.sqlEnv] Examples.rpDone.1 Examples.rpDone.2).2)))
     = Status_ (Sql.state (Sql.abs (Sql.base Examples.rpDone.2)))
  /\ (exists e : error,
         Sql.ReplacePartition_Complete Examples.sqlEnv Examples.rpDone.1 Examples.rpDone.2
         = (Examples.rpDone.1, Examples.rpDone.2, Returned (Some e)))
  /\ (exists e : error,
         Sql.Abort Examples.rpDone.1 (Sql.base Examples.rpDone.2)
         = (Examples.rpDone.1, Sql.base Examples.rpDone.2, Returned (Some e))).
Proof.
  destruct status_only_leaves_active as (_ & H2 & H3 & H4 & _ & H6 & H7 & H8).
  split; [apply H2; vm_compute; discriminate|].
  split; [apply H3; vm_compute; discriminate|].
  split; [apply H4; vm_compute; discriminate|].
  split; [apply H6; vm_compute; discriminate|].
  split; [apply H7; vm_compute; discriminate|].
  apply H8; vm_compute; discriminate.
Defined.

(** *** Constructors *)

(** C9. A constructor that misses a required option answers an error and no
    stream: ReplacePartition without a partition id, and file storage with
    MergeRows but without a primary key. *)
Theorem missing_option_creates_no_stream :
  (forall (id tableName : string) (options : StreamOptions),
      PartitionIdOption options = EmptyString ->
      exists e : error, Sql.newReplacePartitionStream id tableName options = inr e)
  /\ (forall (id : string) (options : StreamOptions),
         MergeRowsOption options = true ->
         PrimaryKeyOption options = [] ->
         exists e : error, FileStorage.newAbstractFileStorageStream id options = inr e).
Proof.
  split.
  - intros id tableName options Hp. unfold Sql.newReplacePartitionStream.
    rewrite Hp. cbn. eexists. reflexivity.
  - intros id options Hm Hpk. unfold FileStorage.newAbstractFileStorageStream.
    rewrite Hm, Hpk. cbn. eexists. reflexivity.
Qed.

Lemma missing_option_creates_no_stream_witness :
  (exists e : error, Sql.newReplacePartitionStream "s1" "events" Examples.mergeById = inr e)
  /\ (exists e : error,
         FileStorage.newAbstractFileStorageStream "s1" (mkOptions true [] EmptyString EmptyString EmptyString None) = inr e).
Proof.
  destruct missing_option_creates_no_stream as (H1 & H2).
  split; [apply H1; reflexivity | apply H2; reflexivity].
Defined.

(** *** The state after a failed Complete *)

(** A ReplacePartition stream that is Active when Complete is called and for
    which Complete returns an error ends Failed with no successful rows. *)
Lemma sql_Complete_error (env : Sql.Env) (w w' : Sql.World)
  (rp rp' : Sql.ReplacePartitionStream) (e : error) :
  Status_ (Sql.state (Sql.abs (Sql.base rp))) = Active ->
  Sql.ReplacePartition_Complete env w rp = (w', rp', Returned (Some e)) ->
  Status_ (Sql.state (Sql.abs (Sql.base rp'))) = Failed
  /\ SuccessfulRows (Sql.state (Sql.abs (Sql.base rp'))) = 0.
Proof.
  intros Hact. unfold Sql.ReplacePartition_Complete, Sql.ReplacePartition_Complete_deferred.
  rewrite bool_decide_eq_false_2 by (intros H; apply H, Hact).
  destruct (Sql.ReplacePartition_Complete_body env w rp) as [[w1 ps1] [[e1|]|]].
  - destruct (Sql.txPanics env _); [discriminate|].
    unfold Sql.postComplete. cbn. intros H. simplify_eq. cbn. auto.
  - unfold Sql.postComplete. cbn.
    destruct (Sql.tx ps1); cbn; [|discriminate].
    destruct (Sql.Commit_err env) as [ec|] eqn:Hc; cbn; [|discriminate].
    intros H. simplify_eq. cbn. auto.
  - destruct (Sql.postComplete env w1 ps1 None) as [[? ?] ?]. discriminate.
Qed.

(** A stream that is Active when Complete is called and for which Complete
    returns an error ends Failed; the transactional SQL stream has no
    successful rows then. *)
Lemma complete_error_ends_failed :
  (forall (env : FileStorage.Env) (ps ps' : FileStorage.AbstractFileStorageStream)
          (e : error) (up : option FileStorage.Upload),
      Status_ (FileStorage.state ps) = Active ->
      FileStorage.Complete env ps = (ps', Returned (Some e), up) ->
      Status_ (FileStorage.state ps') = Failed)
  /\ (forall (env : Sql.Env) (w w' : Sql.World) (rp rp' : Sql.ReplacePartitionStream)
             (e : error),
         Status_ (Sql.state (Sql.abs (Sql.base rp))) = Active ->
         Sql.ReplacePartition_Complete env w rp = (w', rp', Returned (Some e)) ->
         Status_ (Sql.state (Sql.abs (Sql.base rp'))) = Failed
         /\ SuccessfulRows (Sql.state (Sql.abs (Sql.base rp'))) = 0).
Proof.
  split.
  - intros env ps ps' e up Hact H.
    pose proof (fs_Complete_status env ps Hact) as Hs. rewrite H in Hs. exact Hs.
  - exact sql_Complete_error.
Qed.

(** The file-storage [postComplete] writes the status and the error and
    nothing else of the state: the successful rows stay what they were. *)
Lemma fs_postComplete_keeps_rows (ps : FileStorage.AbstractFileStorageStream)
  (err : option error) :
  match FileStorage.postComplete ps err with
  | (ps', Returned _) =>
      SuccessfulRows (FileStorage.state ps') = SuccessfulRows (FileStorage.state ps)
  | (_, Panicked) => True
  end.
Proof.
  unfold FileStorage.postComplete.
  destruct (FileStorage.batchFile ps); [|exact I].
  destruct err; reflexivity.
Qed.

(** C1, at an input where the file-storage stream leaves the claim: a stream
    that consumed one object is completed and the upload to the file adapter
    fails. Complete returns the error and the stream ends Failed with its
    one successful row still counted. The ReplacePartition stream at the
    like input (one object consumed, the copy into the destination fails)
    ends Failed with no successful rows. *)
Theorem complete_error_keeps_successful_rows :
  (let r := FileStorage.Complete Examples.fsUploadFails Examples.fsOnce in
   Status_ (FileStorage.state Examples.fsOnce) = Active
   /\ r.1.2 = Returned (Some "failed to flush tmp file to the warehouse: upload failed")
   /\ Status_ (FileStorage.state r.1.1) = Failed
   /\ SuccessfulRows (FileStorage.state r.1.1) = 1)
  /\ (let r := Sql.ReplacePartition_Complete Examples.sqlCopyFails
                 Examples.rpOnce.1 Examples.rpOnce.2 in
      SuccessfulRows (Sql.state (Sql.abs (Sql.base Examples.rpOnce.2))) = 1
      /\ r.2 = Returned (Some "copy failed")
      /\ Status_ (Sql.state (Sql.abs (Sql.base r.1.2))) = Failed
      /\ SuccessfulRows (Sql.state (Sql.abs (Sql.base r.1.2))) = 0).
Proof. vm_compute. repeat split; reflexivity. Qed.

(** *** ReplacePartition: what Complete asks of the warehouse *)

Lemma logOp_log (op : Sql.Op) (w : Sql.World) : Sql.log (Sql.logOp op w) = Sql.log w ++ [op].
Proof. reflexivity. Qed.

Lemma sql_flush_extends (env : Sql.Env) (w : Sql.World)
  (ps : Sql.AbstractTransactionalSQLStream) :
  Sql.log w `prefix_of` Sql.log (Sql.flushBatchFile env w ps).1.1.1
  /\ Sql.destination (Sql.flushBatchFile env w ps).1.1.1 = Sql.destination w.
Proof.
  unfold Sql.flushBatchFile, Sql.flushBatchFile_body.
  repeat case_match; simplify_eq; cbn; split; try reflexivity;
    repeat (etrans; [|apply prefix_app_r; reflexivity]); reflexivity.
Qed.

Lemma sql_postComplete_log (env : Sql.Env) (w : Sql.World)
  (ps : Sql.AbstractTransactionalSQLStream) (err : option error) :
  exists added : list Sql.Op,
    Sql.log (Sql.postComplete env w ps err).1.1 = Sql.log w ++ added
    /\ Sql.destination (Sql.postComplete env w ps err).1.1 = Sql.destination w
    /\ Forall (fun op => Sql.isDelete op = false /\ Sql.isLoadStep op = false) added.
Proof.
  unfold Sql.postComplete.
  destruct err as [e|]; cbn; destruct (Sql.tx ps); cbn;
    try destruct (Sql.Commit_err env); try destruct (Sql.tmpTable ps); cbn.
  all: first
    [ exists []; rewrite app_nil_r; repeat split; constructor
    | eexists [_; _]; rewrite <- app_assoc; repeat split; repeat constructor
    | eexists [_]; repeat split; repeat constructor ].
Qed.




Lemma sql_deferred_log (env : Sql.Env) (rp : Sql.ReplacePartitionStream)
  (r : Sql.World * Sql.AbstractTransactionalSQLStream * outcome) :
  exists added : list Sql.Op,
    Sql.log (Sql.ReplacePartition_Complete_deferred env rp r).1.1 = Sql.log r.1.1 ++ added
    /\ Sql.destination (Sql.ReplacePartition_Complete_deferred env rp r).1.1
       = Sql.destination r.1.1
    /\ Forall (fun op => Sql.isDelete op = false /\ Sql.isLoadStep op = false) added.
Proof.
  destruct r as [[w ps] [[e|]|]]; unfold Sql.ReplacePartition_Complete_deferred.
  - destruct (Sql.txPanics env _).
    + exists []. rewrite app_nil_r. repeat split; constructor.
    + set (ps1 := Sql.set_state _ ps).
      destruct (sql_postComplete_log env (Sql.logOp Sql.OpRollback w) ps1 (Some e))
        as (added & Hlog & Hdest & Hall).
      destruct (Sql.postComplete env (Sql.logOp Sql.OpRollback w) ps1 (Some e))
        as [[w2 ps2] err2].
      cbn in *. exists (Sql.OpRollback :: added).
      rewrite Hlog, <- app_assoc. repeat split; auto.
  - destruct (sql_postComplete_log env w ps None) as (added & Hlog & Hdest & Hall).
    destruct (Sql.postComplete env w ps None) as [[w2 ps2] err2].
    cbn in *. exists added. auto.
  - destruct (sql_postComplete_log env w ps None) as (added & Hlog & Hdest & Hall).
    destruct (Sql.postComplete env w ps None) as [[w2 ps2] err2].
    cbn in *. exists added. auto.
Qed.

Lemma sql_clearPartition_log (env : Sql.Env) (w : Sql.World) (rp : Sql.ReplacePartitionStream) :
  let name := Sql.tableName (Sql.abs (Sql.base rp)) in
  exists d : list Sql.Op,
    Sql.log (Sql.clearPartition env w rp).1
    = Sql.log w ++ Sql.OpGetTableSchema Sql.ViaSqlAdapter name :: d
    /\ Sql.destination (Sql.clearPartition env w rp).1 = Sql.destination w
    /\ Forall (fun op => Sql.isLoadStep op = false) d
    /\ (Sql.GetTableSchema_err env = None ->
        Sql.Exists_ (Sql.destination w) = true ->
        is_Some (Sql.Columns (Sql.destination w) !! Sql.PartitonIdKeyword) ->
        d = [Sql.OpDelete Sql.ViaSqlAdapter name (Sql.partitionId rp)])
    /\ (Sql.GetTableSchema_err env = None ->
        Sql.Delete_err env = None ->
        (Sql.Exists_ (Sql.destination w) = true ->
         is_Some (Sql.Columns (Sql.destination w) !! Sql.PartitonIdKeyword)) ->
        (Sql.clearPartition env w rp).2 = None).
Proof.
  cbn. unfold Sql.clearPartition.
  destruct (Sql.GetTableSchema_err env) as [eg|].
  { exists []. cbn. repeat split; try constructor; discriminate. }
  replace (Sql.destination (Sql.logOp _ w)) with (Sql.destination w) by reflexivity.
  destruct (Sql.Exists_ (Sql.destination w)) eqn:Hex.
  2:{ exists []. cbn. repeat split; try constructor; try discriminate. }
  destruct (Sql.Columns (Sql.destination w) !! Sql.PartitonIdKeyword) as [c|] eqn:Hcol.
  2:{ exists []. cbn. repeat split; try constructor.
      - intros _ _ [? ?]. discriminate.
      - intros _ _ H. destruct (H eq_refl). discriminate. }
  destruct (Sql.Delete_err env) as [ed|].
  - eexists [_]. cbn. rewrite <- app_assoc.
    repeat split; try (repeat constructor); discriminate.
  - eexists [_]. cbn. rewrite <- app_assoc. repeat split; repeat constructor.
Qed.

Lemma sql_Complete_body_log (env : Sql.Env) (w : Sql.World) (rp : Sql.ReplacePartitionStream) :
  LastError (Sql.state (Sql.abs (Sql.base rp))) = None ->
  exists more : list Sql.Op,
    Sql.log (Sql.ReplacePartition_Complete_body env w rp).1.1
    = Sql.log (Sql.clearPartition env w rp).1 ++ more
    /\ (SuccessfulRows (Sql.state (Sql.abs (Sql.base rp))) = 0 ->
        Sql.ReplacePartition_Complete_body env w rp
        = ((Sql.clearPartition env w rp).1, Sql.base rp,
           Returned (Sql.clearPartition env w rp).2)).
Proof.
  intros Hlast. unfold Sql.ReplacePartition_Complete_body. rewrite Hlast.
  destruct (Sql.clearPartition env w rp) as [w1 [e|]]; cbn.
  { exists []. rewrite app_nil_r. auto. }
  destruct (bool_decide _) eqn:Hpos.
  2:{ exists []. rewrite app_nil_r. auto. }
  apply bool_decide_eq_true_1 in Hpos.
  assert (Hf : forall r : Sql.World * Sql.AbstractTransactionalSQLStream * outcome,
             r = match Sql.batchFile (Sql.base rp) with
                 | Some _ => let '(w, ps, out, _) := Sql.flushBatchFile env w1 (Sql.base rp) in
                             (w, ps, out)
                 | None => (w1, Sql.base rp, Returned None)
                 end -> Sql.log w1 `prefix_of` Sql.log r.1.1).
  { intros r ->. destruct (Sql.batchFile (Sql.base rp)); [|reflexivity].
    pose proof (sql_flush_extends env w1 (Sql.base rp)) as [Hs _].
    destruct (Sql.flushBatchFile env w1 (Sql.base rp)) as [[[w2 ps2] out2] b2]. exact Hs. }
  specialize (Hf _ eq_refl).
  destruct (match Sql.batchFile (Sql.base rp) with Some _ => _ | None => _ end)
    as [[w2 ps2] out2]. cbn in Hf. destruct Hf as [k Hk].
  assert (Hgoal : forall r : Sql.World * Sql.AbstractTransactionalSQLStream * outcome,
             Sql.log w2 `prefix_of` Sql.log r.1.1 ->
             exists more, Sql.log r.1.1 = Sql.log w1 ++ more
               /\ (SuccessfulRows (Sql.state (Sql.abs (Sql.base rp))) = 0 ->
                   r = (w1, Sql.base rp, Returned None))).
  { intros r [k' Hk']. exists (k ++ k'). rewrite Hk', Hk, <- app_assoc.
    split; [reflexivity|]. intros Hz. rewrite Hz in Hpos. inversion Hpos. }
  apply Hgoal. unfold Sql.EnsureTableWithCaching.
  repeat case_match; simplify_eq; cbn;
    repeat (etrans; [|apply prefix_app_r; reflexivity]); reflexivity.
Qed.

Lemma existsb_none {A : Type} (f : A -> bool) (l : list A) :
  Forall (fun x => f x = false) l -> existsb f l = false.
Proof. induction 1 as [|x l Hx _ IH]; cbn; [reflexivity | rewrite Hx, IH; reflexivity]. Qed.

(** C3. A ReplacePartition stream that is Active and has no recorded error:
    Complete first asks the SQL adapter itself, not the transaction, for the
    destination table; when the table exists and carries the partition
    column the next call deletes the rows of the stream's partition, again on
    the SQL adapter, whatever the number of successful rows. A flush,
    ensure-table or copy call occurs only when there are successful rows.
    With no successful rows, and the adapter's calls succeeding, Complete
    returns no error and the stream ends Completed. *)
Theorem replace_partition_clears_first (env : Sql.Env) (w : Sql.World)
  (rp : Sql.ReplacePartitionStream) :
  Status_ (Sql.state (Sql.abs (Sql.base rp))) = Active ->
  LastError (Sql.state (Sql.abs (Sql.base rp))) = None ->
  let r := Sql.ReplacePartition_Complete env w rp in
  let name := Sql.tableName (Sql.abs (Sql.base rp)) in
  exists rest : list Sql.Op,
    Sql.log r.1.1 = Sql.log w ++ Sql.OpGetTableSchema Sql.ViaSqlAdapter name :: rest
    /\ (Sql.GetTableSchema_err env = None ->
        Sql.Exists_ (Sql.destination w) = true ->
        is_Some (Sql.Columns (Sql.destination w) !! Sql.PartitonIdKeyword) ->
        exists rest' : list Sql.Op,
          rest = Sql.OpDelete Sql.ViaSqlAdapter name (Sql.partitionId rp) :: rest')
    /\ (existsb Sql.isLoadStep rest = true ->
        0 < SuccessfulRows (Sql.state (Sql.abs (Sql.base rp))))
    /\ (SuccessfulRows (Sql.state (Sql.abs (Sql.base rp))) = 0 ->
        Sql.GetTableSchema_err env = None ->
        Sql.Delete_err env = None ->
        (Sql.Exists_ (Sql.destination w) = true ->
         is_Some (Sql.Columns (Sql.destination w) !! Sql.PartitonIdKeyword)) ->
        (is_Some (Sql.tx (Sql.base rp)) -> Sql.Commit_err env = None) ->
        r.2 = Returned None
        /\ Status_ (Sql.state (Sql.abs (Sql.base r.1.2))) = Completed
        /\ Sql.destination r.1.1 = Sql.destination w).
Proof.
  intros Hact Hlast. cbn zeta.
  unfold Sql.ReplacePartition_Complete.
  rewrite bool_decide_eq_false_2 by (intros H; apply H, Hact).
  destruct (sql_clearPartition_log env w rp) as (d & Hd & Hddest & Hdall & Hdel & Hok).
  destruct (sql_Complete_body_log env w rp Hlast) as (more & Hmore & Hzero).
  destruct (sql_deferred_log env rp (Sql.ReplacePartition_Complete_body env w rp))
    as (added & Hadd & Hadest & Haall).
  exists (d ++ more ++ added).
  split.
  { rewrite Hadd, Hmore, Hd. rewrite <- !app_assoc. reflexivity. }
  split.
  { intros Hg He Hc. rewrite (Hdel Hg He Hc). eexists. reflexivity. }
  split.
  { intros Hex.
    destruct (SuccessfulRows (Sql.state (Sql.abs (Sql.base rp)))) as [|n] eqn:Hn; [|lia].
    exfalso. specialize (Hzero eq_refl). rewrite Hzero in Hmore. cbn in Hmore.
    assert (more = []) as ->.
    { apply (app_inv_head (Sql.log (Sql.clearPartition env w rp).1)).
      rewrite app_nil_r. symmetry. exact Hmore. }
    rewrite !existsb_app in Hex. cbn in Hex.
    rewrite (existsb_none _ _ Hdall) in Hex.
    rewrite existsb_none in Hex; [discriminate|].
    eapply Forall_impl; [exact Haall|]. intros op [_ H]. exact H. }
  intros Hz Hg Hdl Hman Hcommit.
  rewrite (Hzero Hz) in *. rewrite (Hok Hg Hdl Hman) in *.
  split; [|split; [|rewrite Hadest; exact Hddest]].
  all: unfold Sql.ReplacePartition_Complete_deferred, Sql.postComplete.
  all: destruct (Sql.tx (Sql.base rp)) as [t|] eqn:Htx; cbn; rewrite Htx.
  all: try rewrite Hcommit by eauto; reflexivity.
Qed.

Lemma replace_partition_clears_first_witness :
  let r := Sql.ReplacePartition_Complete Examples.sqlEnv Examples.managed
             (Examples.rpNew Examples.january) in
  exists rest : list Sql.Op,
    Sql.log r.1.1
    = Sql.log Examples.managed ++ Sql.OpGetTableSchema Sql.ViaSqlAdapter "events" :: rest
    /\ (Sql.GetTableSchema_err Examples.sqlEnv = None ->
        Sql.Exists_ (Sql.destination Examples.managed) = true ->
        is_Some (Sql.Columns (Sql.destination Examples.managed) !! Sql.PartitonIdKeyword) ->
        exists rest' : list Sql.Op,
          rest = Sql.OpDelete Sql.ViaSqlAdapter "events" "2024-01" :: rest')
    /\ (existsb Sql.isLoadStep rest = true ->
        0 < SuccessfulRows (Sql.state (Sql.abs (Sql.base (Examples.rpNew Examples.january)))))
    /\ (SuccessfulRows (Sql.state (Sql.abs (Sql.base (Examples.rpNew Examples.january)))) = 0 ->
        Sql.GetTableSchema_err Examples.sqlEnv = None ->
        Sql.Delete_err Examples.sqlEnv = None ->
        (Sql.Exists_ (Sql.destination Examples.managed) = true ->
         is_Some (Sql.Columns (Sql.destination Examples.managed) !! Sql.PartitonIdKeyword)) ->
        (is_Some (Sql.tx (Sql.base (Examples.rpNew Examples.january))) ->
         Sql.Commit_err Examples.sqlEnv = None) ->
        r.2 = Returned None
        /\ Status_ (Sql.state (Sql.abs (Sql.base r.1.2))) = Completed
        /\ Sql.destination r.1.1 = Sql.destination Examples.managed).
Proof.
  apply (replace_partition_clears_first Examples.sqlEnv Examples.managed
           (Examples.rpNew Examples.january)); reflexivity.
Defined.

(** *** Merge bookkeeping *)

Lemma DedupSpec_nil (off : nat) : DedupSpec off [] ∅ ∅.
Proof.
  split.
  - intros pk i. rewrite lookup_empty. split; [discriminate|].
    intros (k & _ & Hk & _). rewrite lookup_nil in Hk. discriminate.
  - intros i. split; [intros H; exfalso; set_solver|].
    intros (k & _ & pk & k' & Hk & _). rewrite lookup_nil in Hk. discriminate.
Qed.

Lemma lookup_snoc_Some (pks : list string) (pk x : string) (k : nat) :
  (pks ++ [x]) !! k = Some pk <->
  pks !! k = Some pk \/ (k = length pks /\ x = pk).
Proof.
  split.
  - intros Hk. destruct (decide (k < length pks)) as [Hlt|Hge].
    + rewrite lookup_app_l in Hk by exact Hlt. auto.
    + rewrite lookup_app_r in Hk by lia.
      apply list_lookup_singleton_Some in Hk as [Hz ->]. right. split; [lia | reflexivity].
  - intros [Hk|[-> ->]].
    + apply lookup_app_l_Some. exact Hk.
    + rewrite lookup_app_r by lia. rewrite Nat.sub_diag. reflexivity.
Qed.

Lemma latest_exists (pks : list string) (pk : string) (k : nat) :
  pks !! k = Some pk -> exists kl : nat, k <= kl /\ latestAt pks kl pk.
Proof.
  revert k. induction pks as [|x l IH] using rev_ind; intros k Hk.
  { rewrite lookup_nil in Hk. discriminate. }
  destruct (decide (x = pk)) as [->|Hne].
  - exists (length l). split.
    + apply lookup_lt_Some in Hk. rewrite length_app in Hk. cbn in Hk. lia.
    + split.
      * apply lookup_snoc_Some. auto.
      * intros k' Hlt. rewrite lookup_ge_None_2; [discriminate|].
        rewrite length_app. cbn. lia.
  - apply lookup_snoc_Some in Hk as [Hk|[_ Heq]]; [|contradiction].
    destruct (IH k Hk) as (kl & Hle & Hl & Hlast).
    exists kl. split; [exact Hle|]. split.
    + apply lookup_snoc_Some. auto.
    + intros k' Hlt Hk'.
      apply lookup_snoc_Some in Hk' as [Hk'|[_ Heq]]; [|contradiction].
      exact (Hlast k' Hlt Hk').
Qed.

(** One more object with key [pk]: the bookkeeping of [writeToBatchFile]
    keeps the specification. *)
Lemma DedupSpec_step (off : nat) (pks : list string) (m : gmap string nat)
  (s : gset nat) (pk : string) :
  DedupSpec off pks m s ->
  DedupSpec off (pks ++ [pk]) (<[pk := off + length pks]> m)
    (match m !! pk with Some line => {[ line ]} ∪ s | None => s end).
Proof.
  intros [Hm Hs]. split.
  - intros pk' i. destruct (decide (pk = pk')) as [<-|Hne].
    + rewrite lookup_insert_eq. split.
      * intros [= <-]. exists (length pks). split; [reflexivity|]. split.
        -- apply lookup_snoc_Some. auto.
        -- intros k' Hlt. rewrite lookup_ge_None_2; [discriminate|].
           rewrite length_app. cbn. lia.
      * intros (k & -> & Hk & Hlast). f_equal. f_equal.
        apply lookup_snoc_Some in Hk as [Hk|[-> _]]; [|reflexivity].
        exfalso. apply (Hlast (length pks)).
        -- apply lookup_lt_Some in Hk. exact Hk.
        -- apply lookup_snoc_Some. auto.
    + rewrite lookup_insert_ne by exact Hne. rewrite Hm. split.
      * intros (k & -> & Hk & Hlast). exists k. split; [reflexivity|]. split.
        -- apply lookup_snoc_Some. auto.
        -- intros k' Hlt Hk'. apply lookup_snoc_Some in Hk' as [Hk'|[_ Heq]];
             [exact (Hlast k' Hlt Hk') | congruence].
      * intros (k & -> & Hk & Hlast). exists k. split; [reflexivity|].
        apply lookup_snoc_Some in Hk as [Hk|[_ Heq]]; [|congruence].
        split; [exact Hk|]. intros k' Hlt Hk'. apply (Hlast k' Hlt).
        apply lookup_snoc_Some. auto.
  - intros i.
    assert (Hin : i ∈ (match m !! pk with Some line => {[ line ]} ∪ s | None => s end)
                  <-> (m !! pk = Some i \/ i ∈ s)).
    { destruct (m !! pk) as [line|]; [|set_solver].
      rewrite elem_of_union, elem_of_singleton. split.
      - intros [->|H]; auto.
      - intros [[= ->]|H]; auto. }
    rewrite Hin, Hm, Hs. split.
    + intros [(k & -> & Hk & Hlast)|(k & -> & pk0 & k' & Hk & Hlt & Hk')].
      * exists k. split; [reflexivity|]. exists pk, (length pks).
        split; [apply lookup_snoc_Some; auto|].
        split; [apply lookup_lt_Some in Hk; exact Hk|].
        apply lookup_snoc_Some. auto.
      * exists k. split; [reflexivity|]. exists pk0, k'.
        split; [apply lookup_snoc_Some; auto|].
        split; [exact Hlt|]. apply lookup_snoc_Some. auto.
    + intros (k & -> & pk0 & k' & Hk & Hlt & Hk').
      apply lookup_snoc_Some in Hk' as [Hk'|[-> ->]].
      * right. exists k. split; [reflexivity|]. exists pk0, k'.
        apply lookup_snoc_Some in Hk as [Hk|[-> _]]; [auto|].
        apply lookup_lt_Some in Hk'. lia.
      * apply lookup_snoc_Some in Hk as [Hk|[-> _]]; [|lia].
        destruct (latest_exists pks pk0 k Hk) as (kl & Hle & Hl).
        destruct (decide (kl = k)) as [->|Hne].
        -- left. exists k. auto.
        -- right. exists k. split; [reflexivity|]. exists pk0, kl.
           destruct Hl as [Hl _]. split; [exact Hk|]. split; [lia | exact Hl].
Qed.

(** The superseded lines lie below the number of events. *)
Lemma DedupSpec_skip_bound (off : nat) (pks : list string) (m : gmap string nat)
  (s : gset nat) (i : nat) :
  off <= 1 -> DedupSpec off pks m s -> i ∈ s -> i < length pks.
Proof.
  intros Hoff [_ Hs] Hi. apply Hs in Hi as (k & -> & pk & k' & _ & Hlt & Hk').
  apply lookup_lt_Some in Hk'. lia.
Qed.

Lemma offOf_le (m : Marshaller) : offOf m <= 1.
Proof. unfold offOf. destruct (NeedHeader m); lia. Qed.

Lemma offOf_line (m : Marshaller) (n : nat) :
  (if NeedHeader m then S n else n) = offOf m + n.
Proof. unfold offOf. destruct (NeedHeader m); reflexivity. Qed.

Lemma NeedHeader_Format (m m' : Marshaller) : Format m' = Format m -> offOf m' = offOf m.
Proof. unfold offOf, NeedHeader. intros ->. reflexivity. Qed.

(** The step both streams take in [writeToBatchFile], on the batch view: the
    marshaller is initialised, the header (if any) and the object are
    written, the key is recorded. *)
Lemma BatchInv_step (v : BatchView) (recs : list (gmap string Value * string))
  (m m' : Marshaller) (header : list string) (hdr0 : list Line) (f g : File)
  (po : gmap string Value) (pk : string) :
  BatchInv v recs ->
  v_marshaller v = Some m ->
  Marshaller_Init m header = (m', hdr0) ->
  (writeLinesTo hdr0 (v_batchFile v)).1 = Some f ->
  writeLines [DataLine (Format m') po] f = (g, None) ->
  BatchHolds
    (mkView true (Some g) (Some m') (S (v_eventsInBatch v))
       (<[pk := if NeedHeader m' then S (v_eventsInBatch v) else v_eventsInBatch v]>
          (v_linesByPK v))
       (match v_linesByPK v !! pk with
        | Some line => {[ line ]} ∪ v_skipLines v
        | None => v_skipLines v
        end))
    (recs ++ [(po, pk)]).
Proof.
  intros Hinv Hm HI Hf Hg.
  destruct (Marshaller_Init_spec _ _ _ _ HI) as (HF & _ & Hh0 & Hinited & Huninit).
  assert (Hgl : fclosed f = false /\ flines g = flines f ++ [DataLine (Format m') po]).
  { unfold writeLines in Hg. destruct (fclosed f); [discriminate|]. by simplify_eq. }
  destruct Hgl as [Hopen Hgl].
  assert (Hfl : exists f0, v_batchFile v = Some f0 /\ flines f = flines f0 ++ hdr0).
  { unfold writeLinesTo in Hf. destruct (v_batchFile v) as [f0|]; [|discriminate].
    exists f0. split; [reflexivity|]. unfold writeLines in Hf.
    destruct (fclosed f0) eqn:Hc; cbn in Hf; simplify_eq; [congruence | reflexivity]. }
  destruct Hfl as (f0 & Hf0 & Hfl).
  rewrite offOf_line.
  destruct Hinv as [[-> (_ & Hev & Hlines & Hskip & Hfile)]
                   |(f1 & m1 & hdr & _ & Hf1 & Hm1 & Hin1 & Hlen & Hobj & Hfl1 & Hev & Hspec)].
  - destruct Hfile as [Hnone|(f1 & m1 & Hf1 & Hfl1 & Hm1 & Hun)]; [congruence|].
    assert (f1 = f0) as -> by congruence. assert (m1 = m) as -> by congruence.
    destruct (Huninit Hun) as [Hin' Hhdr].
    exists g, m', hdr0. cbn.
    split; [reflexivity|]. split; [reflexivity|]. split; [reflexivity|].
    split; [exact Hin'|].
    split; [rewrite Hhdr, (NeedHeader_Format _ _ HF); unfold offOf;
            destruct (NeedHeader m); reflexivity|].
    split; [exact Hh0|].
    split; [rewrite Hgl, Hfl, Hfl1; reflexivity|].
    split; [rewrite Hev; reflexivity|].
    rewrite Hlines, Hskip, Hev, lookup_empty.
    pose proof (DedupSpec_step (offOf m') [] ∅ ∅ pk (DedupSpec_nil _)) as Hstep.
    rewrite lookup_empty in Hstep. exact Hstep.
  - assert (f1 = f0) as -> by congruence. assert (m1 = m) as -> by congruence.
    destruct (Hinited Hin1) as [-> ->].
    exists g, m, hdr. cbn.
    split; [reflexivity|]. split; [reflexivity|]. split; [reflexivity|].
    split; [exact Hin1|]. split; [exact Hlen|]. split; [exact Hobj|].
    split.
    { rewrite Hgl, Hfl, Hfl1, app_nil_r, fmap_app, fmap_app, <- app_assoc. reflexivity. }
    split; [rewrite Hev, length_app; cbn; lia|].
    rewrite fmap_app. cbn.
    pose proof (DedupSpec_step (offOf m) (recs.*2) _ _ pk Hspec) as Hstep.
    rewrite length_fmap, <- Hev in Hstep. exact Hstep.
Qed.

(** What a successful [writeToBatchFile] of a merge stream leaves. *)
Lemma fs_write_view (env : FileStorage.Env) (ps ps1 : FileStorage.AbstractFileStorageStream)
  (po : gmap string Value) :
  FileStorage.merge ps = true ->
  FileStorage.writeToBatchFile env ps po = (ps1, Returned None) ->
  exists (m m' : Marshaller) (hdr0 : list Line) (f g : File) (pk : string),
    FileStorage.marshaller ps = Some m
    /\ Marshaller_Init m (sortedStrings (FileStorage.csvHeader ps)) = (m', hdr0)
    /\ (writeLinesTo hdr0 (FileStorage.batchFile ps)).1 = Some f
    /\ writeLines [DataLine (Format m') po] f = (g, None)
    /\ FileStorage.getPKValue env ps po = inl pk
    /\ FileStorage.pkColumns ps1 = FileStorage.pkColumns ps
    /\ fsView ps1
       = mkView true (Some g) (Some m') (S (FileStorage.eventsInBatch ps))
           (<[pk := if NeedHeader m' then S (FileStorage.eventsInBatch ps)
                    else FileStorage.eventsInBatch ps]> (FileStorage.batchFileLinesByPK ps))
           (match FileStorage.batchFileLinesByPK ps !! pk with
            | Some line => {[ line ]} ∪ FileStorage.batchFileSkipLines ps
            | None => FileStorage.batchFileSkipLines ps
            end).
Proof.
  intros Hmerge H. unfold FileStorage.writeToBatchFile in H.
  destruct (FileStorage.marshaller ps) as [m|] eqn:Hm; [|discriminate].
  destruct (Marshaller_Init m (sortedStrings (FileStorage.csvHeader ps))) as [m' hdr0] eqn:HI.
  cbn in H. rewrite Hmerge in H.
  change (FileStorage.getPKValue env _ po) with (FileStorage.getPKValue env ps po) in H.
  destruct (FileStorage.getPKValue env ps po) as [pk|e] eqn:Hpk; [|discriminate].
  destruct (FileStorage.Marshal_err env po) as [e|]; [discriminate|].
  destruct (FileStorage.batchFileLinesByPK ps !! pk) as [line|] eqn:Hline; cbn in H.
  all: destruct (writeLinesTo hdr0 (FileStorage.batchFile ps)) as [[f|] e0] eqn:Hw;
    cbn in H; [|discriminate].
  all: destruct (writeLines [DataLine (Format m') po] f) as [g [e1|]] eqn:Hg;
    cbn in H; [discriminate|].
  all: simplify_eq; exists m, m', hdr0, f, g, pk; cbn; rewrite ?Hmerge, ?Hline;
    repeat split; try reflexivity; try assumption.
  all: first [ rewrite Hw; reflexivity | unfold fsView; cbn; rewrite Hmerge; reflexivity ].
Qed.

Lemma fs_init_inv (env : FileStorage.Env) (ps psi : FileStorage.AbstractFileStorageStream)
  (recs : list (gmap string Value * string)) :
  FileStorage.init env ps = (psi, None) ->
  BatchInv (fsView ps) recs ->
  BatchInv (fsView psi) recs /\ FileStorage.pkColumns psi = FileStorage.pkColumns ps.
Proof.
  unfold FileStorage.init. intros H Hinv.
  destruct (FileStorage.inited ps); [by simplify_eq|].
  destruct (FileStorage.batchFile ps) as [f|] eqn:Hbf.
  { simplify_eq. split; [|reflexivity].
    replace (fsView (FileStorage.set_inited true ps)) with (fsView ps); [exact Hinv|].
    unfold fsView. cbn. reflexivity. }
  destruct (FileStorage.CreateTemp_err env); [discriminate|].
  destruct (NewMarshaller _ _) as [tm|e]; [|discriminate].
  assert (Hv : fsView psi
               = mkView (FileStorage.merge ps)
                   (Some (mkFile ("bulker_" +:+ SanitizeString (FileStorage.id ps)) [] false false))
                   (Some JSONMarshaller) (FileStorage.eventsInBatch ps)
                   (FileStorage.batchFileLinesByPK ps) (FileStorage.batchFileSkipLines ps)
               /\ FileStorage.pkColumns psi = FileStorage.pkColumns ps).
  { destruct (_ || _); simplify_eq; split; reflexivity. }
  destruct Hv as [Hv Hpk]. split; [|exact Hpk]. rewrite Hv.
  destruct Hinv as [[-> (Hm & Hev & Hl & Hs & _)]|(f & m & hdr & _ & Hf & _)].
  - left. split; [reflexivity|]. repeat split; try assumption.
    right. eexists _, _. cbn. repeat split; reflexivity.
  - cbn in Hf. congruence.
Qed.

Lemma fs_getPKValue_ext (env : FileStorage.Env) (ps ps' : FileStorage.AbstractFileStorageStream)
  (o : gmap string Value) :
  FileStorage.pkColumns ps' = FileStorage.pkColumns ps ->
  FileStorage.getPKValue env ps' o = FileStorage.getPKValue env ps o.
Proof. intros H. unfold FileStorage.getPKValue. rewrite H. reflexivity. Qed.

Lemma BatchInv_merge (v : BatchView) (recs : list (gmap string Value * string)) :
  BatchInv v recs -> v_merge v = true.
Proof. intros [[_ H]|(f & m & hdr & H & _)]; [apply H | exact H]. Qed.

Lemma fs_Consume_inv (env : FileStorage.Env) (ps ps' : FileStorage.AbstractFileStorageStream)
  (o : gmap string Value) (recs : list (gmap string Value * string)) :
  BatchInv (fsView ps) recs ->
  FileStorage.Consume env ps o = (ps', Returned None) ->
  exists (po : gmap string Value) (pk : string),
    FileStorage.getPKValue env ps' po = inl pk
    /\ BatchInv (fsView ps') (recs ++ [(po, pk)])
    /\ FileStorage.pkColumns ps' = FileStorage.pkColumns ps.
Proof.
  intros Hinv H. unfold FileStorage.Consume in H.
  destruct (FileStorage.Consume_body env ps o) as [ps1 [[e|]|]] eqn:Hb;
    cbn in H; try discriminate.
  assert (ps' = (FileStorage.postConsume ps1 None).1) as -> by (by simplify_eq).
  clear H. unfold FileStorage.Consume_body in Hb.
  destruct (FileStorage.init env ps) as [psi [e|]] eqn:Hi; [discriminate|].
  destruct (fs_init_inv _ _ _ _ Hi Hinv) as [Hinvi Hpki].
  destruct (FileStorage.preprocess env psi o) as [po|e]; [|discriminate].
  destruct (FileStorage.targetMarshaller psi) as [tm|]; [|discriminate].
  set (ps2 := if bool_decide (Format tm = FileFormatCSV) then _ else psi) in Hb.
  assert (H2 : fsView ps2 = fsView psi
               /\ FileStorage.pkColumns ps2 = FileStorage.pkColumns psi
               /\ FileStorage.csvHeader ps2 = FileStorage.csvHeader ps2).
  { subst ps2. destruct (bool_decide _); repeat split; reflexivity. }
  destruct H2 as (Hv2 & Hpk2 & _).
  assert (Hmerge2 : FileStorage.merge ps2 = true).
  { change (v_merge (fsView ps2) = true). rewrite Hv2. exact (BatchInv_merge _ _ Hinvi). }
  destruct (fs_write_view env ps2 ps1 po Hmerge2 Hb)
    as (m & m' & hdr0 & f & g & pk & Hm & HI & Hf & Hg & Hpk & Hpk1 & Hv1).
  exists po, pk.
  split.
  { rewrite <- Hpk. apply fs_getPKValue_ext. cbn. exact Hpk1. }
  split.
  { right. replace (fsView (FileStorage.postConsume ps1 None).1) with (fsView ps1)
      by reflexivity.
    rewrite Hv1.
    rewrite <- Hv2 in Hinvi.
    exact (BatchInv_step (fsView ps2) recs m m' _ hdr0 f g po pk Hinvi Hm HI Hf Hg). }
  cbn. rewrite Hpk1, Hpk2, Hpki. reflexivity.
Qed.

Lemma fs_ConsumeAll_inv (inputs : list (FileStorage.Env * gmap string Value)) :
  forall (ps ps' : FileStorage.AbstractFileStorageStream)
         (recs : list (gmap string Value * string)),
    BatchInv (fsView ps) recs ->
    FileStorage.ConsumeAll inputs ps = (ps', Returned None) ->
    exists more : list (gmap string Value * string),
      Forall2 (fun inp rec => FileStorage.getPKValue inp.1 ps' rec.1 = inl rec.2) inputs more
      /\ BatchInv (fsView ps') (recs ++ more)
      /\ FileStorage.pkColumns ps' = FileStorage.pkColumns ps.
Proof.
  induction inputs as [|[env o] inputs IH]; intros ps ps' recs Hinv H; cbn in H.
  { simplify_eq. exists []. rewrite app_nil_r. repeat split; [constructor | exact Hinv]. }
  destruct (FileStorage.Consume env ps o) as [ps1 [[e|]|]] eqn:Hc; try discriminate.
  destruct (fs_Consume_inv _ _ _ _ _ Hinv Hc) as (po & pk & Hpk & Hinv1 & Hcols1).
  destruct (IH _ _ _ Hinv1 H) as (more & Hall & Hinv' & Hcols').
  exists ((po, pk) :: more). split.
  { constructor; [|exact Hall]. cbn. rewrite <- Hpk. apply fs_getPKValue_ext. exact Hcols'. }
  split; [rewrite <- app_assoc in Hinv'; exact Hinv'|].
  rewrite Hcols', Hcols1. reflexivity.
Qed.

Lemma BatchInv_skip_bound (v : BatchView) (recs : list (gmap string Value * string)) (i : nat) :
  BatchInv v recs -> i ∈ v_skipLines v -> i < v_eventsInBatch v.
Proof.
  intros [[_ (_ & _ & _ & Hs & _)]|(f & m & hdr & _ & _ & _ & _ & _ & _ & _ & Hev & Hspec)] Hi.
  - rewrite Hs in Hi. exfalso. set_solver.
  - rewrite Hev, <- (length_fmap snd recs).
    exact (DedupSpec_skip_bound _ _ _ _ _ (offOf_le m) Hspec Hi).
Qed.

Lemma sql_adjustTables_view (env : Sql.Env) (w : Sql.World)
  (ps : Sql.AbstractTransactionalSQLStream) (t : Sql.Table) :
  sqlView (Sql.adjustTables env w ps t).1.2 = sqlView ps.
Proof.
  unfold Sql.adjustTables. repeat case_match; simplify_eq; reflexivity.
Qed.

Lemma sql_write_view (env : Sql.Env) (w w' : Sql.World)
  (ps ps1 : Sql.AbstractTransactionalSQLStream) (t : Sql.Table) (po : gmap string Value) :
  Sql.merge (Sql.abs ps) = true ->
  Sql.writeToBatchFile env w ps t po = (w', ps1, Returned None) ->
  exists (m m' : Marshaller) (hdr0 : list Line) (f g : File) (pk : string),
    Sql.marshaller ps = Some m
    /\ Marshaller_Init m [] = (m', hdr0)
    /\ (writeLinesTo hdr0 (Sql.batchFile ps)).1 = Some f
    /\ writeLines [DataLine (Format m') po] f = (g, None)
    /\ Sql.getPKValue env ps po = inl pk
    /\ Sql.abs ps1 = Sql.abs ps
    /\ sqlView ps1
       = mkView true (Some g) (Some m') (S (Sql.eventsInBatch ps))
           (<[pk := if NeedHeader m' then S (Sql.eventsInBatch ps)
                    else Sql.eventsInBatch ps]> (Sql.batchFileLinesByPK ps))
           (match Sql.batchFileLinesByPK ps !! pk with
            | Some line => {[ line ]} ∪ Sql.batchFileSkipLines ps
            | None => Sql.batchFileSkipLines ps
            end).
Proof.
  intros Hmerge H. unfold Sql.writeToBatchFile in H.
  pose proof (sql_adjustTables_view env w ps t) as Hv.
  pose proof (sql_adjustTables_state env w ps t) as Ha.
  destruct (Sql.adjustTables env w ps t) as [[wa psa] [erra|]]; [|discriminate].
  cbn in Hv, Ha.
  assert (Hc : Sql.marshaller psa = Sql.marshaller ps
               /\ Sql.batchFile psa = Sql.batchFile ps
               /\ Sql.eventsInBatch psa = Sql.eventsInBatch ps
               /\ Sql.batchFileLinesByPK psa = Sql.batchFileLinesByPK ps
               /\ Sql.batchFileSkipLines psa = Sql.batchFileSkipLines ps).
  { unfold sqlView in Hv. by simplify_eq. }
  destruct Hc as (Hc1 & Hc2 & Hc3 & Hc4 & Hc5).
  rewrite Hc1 in H.
  destruct (Sql.marshaller ps) as [m|] eqn:Hm; [|discriminate].
  destruct (Sql.InitSchema_err env); [discriminate|].
  destruct (Marshaller_Init m []) as [m' hdr0] eqn:HI.
  cbn in H. rewrite Ha, Hmerge in H.
  change (Sql.getPKValue env _ po) with (Sql.getPKValue env psa po) in H.
  assert (Hpke : Sql.getPKValue env psa po = Sql.getPKValue env ps po).
  { unfold Sql.getPKValue. rewrite Ha. reflexivity. }
  rewrite Hpke in H.
  destruct (Sql.getPKValue env ps po) as [pk|e] eqn:Hpk; [|discriminate].
  destruct (Sql.Marshal_err env po) as [e|]; [discriminate|].
  rewrite ?Hc4 in H.
  destruct (Sql.batchFileLinesByPK ps !! pk) as [line|] eqn:Hline; cbn in H;
    rewrite ?Hc2, ?Hc3, ?Hc4, ?Hc5 in H.
  all: destruct (writeLinesTo hdr0 (Sql.batchFile ps)) as [[f|] e0] eqn:Hw;
    cbn in H; [|discriminate].
  all: destruct (writeLines [DataLine (Format m') po] f) as [g [e1|]] eqn:Hg;
    cbn in H; [discriminate|].
  all: simplify_eq; exists m, m', hdr0, f, g, pk; cbn; rewrite ?Hline;
    repeat split; try reflexivity; try assumption.
  all: try (rewrite Hw; reflexivity).
  all: unfold sqlView; cbn; rewrite Hv, Hmerge, ?Hc5; reflexivity.
Qed.

Lemma sql_init_inv (env : Sql.Env) (w w' : Sql.World)
  (ps psi : Sql.AbstractTransactionalSQLStream)
  (recs : list (gmap string Value * string)) :
  Sql.init env w ps = (w', psi, None) ->
  BatchInv (sqlView ps) recs ->
  sqlStages ps ->
  BatchInv (sqlView psi) recs
  /\ is_Some (Sql.batchFile psi)
  /\ Sql.pkColumns (Sql.abs psi) = Sql.pkColumns (Sql.abs ps).
Proof.
  unfold Sql.init. intros H Hinv Hst.
  pose proof (BatchInv_merge _ _ Hinv) as Hmerge. cbn in Hmerge.
  destruct (Sql.inited (Sql.abs ps)) eqn:Hin.
  { simplify_eq. destruct Hst as [Hs|[Hf _]]; [repeat split; auto | congruence]. }
  set (s3step := match s3BatchFileOption _ with Some _ => _ | None => _ end) in H.
  assert (Hs3 : match s3step with
                | inl ps3 => sqlView ps3 = sqlView ps /\ Sql.abs ps3 = Sql.abs ps
                | inr _ => True
                end).
  { subst s3step. repeat case_match; simplify_eq; auto. }
  destruct s3step as [ps3|[? ?]]; [|discriminate]. destruct Hs3 as [Hv3 Ha3].
  assert (Hc : Sql.batchFile ps3 = Sql.batchFile ps
               /\ Sql.marshaller ps3 = Sql.marshaller ps
               /\ Sql.eventsInBatch ps3 = Sql.eventsInBatch ps
               /\ Sql.batchFileLinesByPK ps3 = Sql.batchFileLinesByPK ps
               /\ Sql.batchFileSkipLines ps3 = Sql.batchFileSkipLines ps).
  { unfold sqlView in Hv3. by simplify_eq. }
  destruct Hc as (Hc1 & Hc2 & Hc3 & Hc4 & Hc5).
  rewrite Ha3 in H.
  set (filestep := if _ && _ then _ else _) in H.
  assert (Hfs : match filestep with
                | inl psf =>
                    BatchInv (sqlView psf) recs /\ is_Some (Sql.batchFile psf)
                    /\ Sql.abs psf = Sql.abs ps
                | inr _ => True
                end).
  { subst filestep.
    destruct (bool_decide (localBatchFileOption _ ≠ EmptyString)) eqn:Hl; cbn.
    - destruct (bool_decide (Sql.batchFile ps3 = None)) eqn:Hb; cbn.
      + apply bool_decide_eq_true_1 in Hb.
        destruct (NewMarshaller _ _) as [tm|e]; [|exact I].
        cbn. rewrite Ha3, Hmerge. cbn.
        destruct (Sql.CreateTemp_err env); [exact I|].
        split; [|split; [eauto | exact Ha3]].
        destruct Hinv as [[-> (_ & Hev & Hl' & Hs & _)]|(f & m & hdr & _ & Hf & _)].
        * left. split; [reflexivity|]. unfold sqlView. cbn.
          rewrite Ha3, Hmerge, Hc3, Hc4, Hc5. repeat split; try assumption.
          right. eexists _, _. repeat split; reflexivity.
        * cbn in Hf. congruence.
      + apply bool_decide_eq_false_1 in Hb. rewrite Hv3.
        split; [exact Hinv|]. split; [|exact Ha3].
        destruct (Sql.batchFile ps3); [eauto | contradiction].
    - apply bool_decide_eq_false_1 in Hl. rewrite Hv3.
      split; [exact Hinv|]. split; [|exact Ha3].
      destruct Hst as [Hs|[_ Hne]]; [rewrite Hc1; exact Hs|].
      exfalso. apply Hl. exact Hne. }
  destruct filestep as [psf|[? ?]]; [|discriminate]. destruct Hfs as (Hi & Hb & Ha).
  destruct (Sql.AbstractSQLStream_init_err env); [discriminate|].
  cbn in H.
  destruct (Sql.tx psf).
  - simplify_eq. split; [exact Hi|]. split; [exact Hb|]. cbn. rewrite Ha. reflexivity.
  - destruct (Sql.OpenTx_err env); [discriminate|]. simplify_eq.
    split; [exact Hi|]. split; [exact Hb|]. cbn. rewrite Ha. reflexivity.
Qed.

Lemma sql_getPKValue_ext (env : Sql.Env) (ps ps' : Sql.AbstractTransactionalSQLStream)
  (o : gmap string Value) :
  Sql.pkColumns (Sql.abs ps') = Sql.pkColumns (Sql.abs ps) ->
  Sql.getPKValue env ps' o = Sql.getPKValue env ps o.
Proof. intros H. unfold Sql.getPKValue. rewrite H. reflexivity. Qed.

Lemma sql_Consume_inv (env : Sql.Env) (w w' : Sql.World)
  (ps ps' : Sql.AbstractTransactionalSQLStream)
  (o : gmap string Value) (recs : list (gmap string Value * string)) :
  BatchInv (sqlView ps) recs ->
  sqlStages ps ->
  Sql.Consume env w ps o = (w', ps', Returned None) ->
  exists (po : gmap string Value) (pk : string),
    Sql.getPKValue env ps' po = inl pk
    /\ BatchInv (sqlView ps') (recs ++ [(po, pk)])
    /\ sqlStages ps'
    /\ Sql.pkColumns (Sql.abs ps') = Sql.pkColumns (Sql.abs ps).
Proof.
  intros Hinv Hst H. unfold Sql.Consume in H.
  destruct (Sql.Consume_body env w ps o) as [[w1 ps1] [[e|]|]] eqn:Hb;
    cbn in H; try discriminate.
  assert (ps' = (Sql.postConsume ps1 None).1) as -> by (by simplify_eq).
  clear H. unfold Sql.Consume_body in Hb.
  destruct (Sql.init env w ps) as [[wi psi] [e|]] eqn:Hi; [discriminate|].
  destruct (sql_init_inv _ _ _ _ _ _ Hi Hinv Hst) as (Hinvi & Hbf & Hpki).
  destruct (Sql.AbstractSQLStream_preprocess env o) as [[t po]|e]; [|discriminate].
  rewrite bool_decide_eq_true_2 in Hb by (destruct Hbf as [? ->]; discriminate).
  pose proof (BatchInv_merge _ _ Hinvi) as Hmerge. cbn in Hmerge.
  destruct (sql_write_view env wi w1 psi ps1 t po Hmerge Hb)
    as (m & m' & hdr0 & f & g & pk & Hm & HI & Hf & Hg & Hpk & Ha1 & Hv1).
  exists po, pk.
  assert (Hview : sqlView (Sql.postConsume ps1 None).1 = sqlView ps1) by reflexivity.
  assert (Hcols : Sql.pkColumns (Sql.abs (Sql.postConsume ps1 None).1)
                  = Sql.pkColumns (Sql.abs psi)).
  { cbn. rewrite Ha1. reflexivity. }
  split.
  { rewrite <- Hpk. apply sql_getPKValue_ext. exact Hcols. }
  split.
  { right. rewrite Hview, Hv1.
    exact (BatchInv_step (sqlView psi) recs m m' _ hdr0 f g po pk Hinvi Hm HI Hf Hg). }
  split.
  { left. change (is_Some (v_batchFile (sqlView (Sql.postConsume ps1 None).1))).
    rewrite Hview, Hv1. cbn. eauto. }
  rewrite Hcols. exact Hpki.
Qed.

Lemma sql_ConsumeAll_inv (inputs : list (Sql.Env * gmap string Value)) :
  forall (w w' : Sql.World) (ps ps' : Sql.AbstractTransactionalSQLStream)
         (recs : list (gmap string Value * string)),
    BatchInv (sqlView ps) recs ->
    sqlStages ps ->
    Sql.ConsumeAll inputs w ps = (w', ps', Returned None) ->
    exists more : list (gmap string Value * string),
      Forall2 (fun inp rec => Sql.getPKValue inp.1 ps' rec.1 = inl rec.2) inputs more
      /\ BatchInv (sqlView ps') (recs ++ more)
      /\ Sql.pkColumns (Sql.abs ps') = Sql.pkColumns (Sql.abs ps).
Proof.
  induction inputs as [|[env o] inputs IH]; intros w w' ps ps' recs Hinv Hst H; cbn in H.
  { simplify_eq. exists []. rewrite app_nil_r. repeat split; [constructor | exact Hinv]. }
  destruct (Sql.Consume env w ps o) as [[w1 ps1] [[e|]|]] eqn:Hc; try discriminate.
  destruct (sql_Consume_inv _ _ _ _ _ _ _ Hinv Hst Hc) as (po & pk & Hpk & Hinv1 & Hst1 & Hcols1).
  destruct (IH _ _ _ _ _ Hinv1 Hst1 H) as (more & Hall & Hinv' & Hcols').
  exists ((po, pk) :: more). split.
  { constructor; [|exact Hall]. cbn. rewrite <- Hpk. apply sql_getPKValue_ext. exact Hcols'. }
  split; [rewrite <- app_assoc in Hinv'; exact Hinv'|].
  rewrite Hcols', Hcols1. reflexivity.
Qed.

(** C2. A merge stream that starts with an empty batch and consumes a list
    of objects, every call returning nil: the batch file holds the consumed
    objects in order after the header lines of its marshaller, each with the
    primary-key string [getPKValue] gives it; [linesByPK] sends every key to
    the line of its latest occurrence (counted after the header lines) and
    holds nothing else; [skipLines] is the set of the lines of the
    superseded occurrences; and every line in [skipLines] is below
    [eventsInBatch]. For the file-storage stream and for the transactional
    SQL stream that stages in a batch file. *)
Theorem merge_bookkeeping :
  (forall (inputs : list (FileStorage.Env * gmap string Value))
          (ps0 ps : FileStorage.AbstractFileStorageStream),
      BatchStart (fsView ps0) ->
      FileStorage.ConsumeAll inputs ps0 = (ps, Returned None) ->
      exists recs : list (gmap string Value * string),
        Forall2 (fun inp rec => FileStorage.getPKValue inp.1 ps rec.1 = inl rec.2) inputs recs
        /\ BatchInv (fsView ps) recs
        /\ (forall i : nat,
               i ∈ FileStorage.batchFileSkipLines ps -> i < FileStorage.eventsInBatch ps))
  /\ (forall (inputs : list (Sql.Env * gmap string Value)) (w w' : Sql.World)
             (ps0 ps : Sql.AbstractTransactionalSQLStream),
         BatchStart (sqlView ps0) ->
         sqlStages ps0 ->
         Sql.ConsumeAll inputs w ps0 = (w', ps, Returned None) ->
         exists recs : list (gmap string Value * string),
           Forall2 (fun inp rec => Sql.getPKValue inp.1 ps rec.1 = inl rec.2) inputs recs
           /\ BatchInv (sqlView ps) recs
           /\ (forall i : nat,
                  i ∈ Sql.batchFileSkipLines ps -> i < Sql.eventsInBatch ps)).
Proof.
  split.
  - intros inputs ps0 ps Hstart Hrun.
    destruct (fs_ConsumeAll_inv inputs ps0 ps [] (or_introl (conj eq_refl Hstart)) Hrun)
      as (recs & Hall & Hinv & _).
    exists recs. split; [exact Hall|]. split; [exact Hinv|].
    intros i Hi. exact (BatchInv_skip_bound (fsView ps) recs i Hinv Hi).
  - intros inputs w w' ps0 ps Hstart Hst Hrun.
    destruct (sql_ConsumeAll_inv inputs w w' ps0 ps []
                (or_introl (conj eq_refl Hstart)) Hst Hrun)
      as (recs & Hall & Hinv & _).
    exists recs. split; [exact Hall|]. split; [exact Hinv|].
    intros i Hi. exact (BatchInv_skip_bound (sqlView ps) recs i Hinv Hi).
Qed.

Lemma merge_bookkeeping_witness :
  (exists recs : list (gmap string Value * string),
      Forall2 (fun inp rec =>
                 FileStorage.getPKValue inp.1
                   (FileStorage.ConsumeAll ((fun o => (Examples.fsCsvEnv, o)) <$> Examples.threeRows)
                      (Examples.fsNew Examples.mergeById)).1 rec.1 = inl rec.2)
        ((fun o => (Examples.fsCsvEnv, o)) <$> Examples.threeRows) recs
      /\ BatchInv
           (fsView (FileStorage.ConsumeAll
                      ((fun o => (Examples.fsCsvEnv, o)) <$> Examples.threeRows)
                      (Examples.fsNew Examples.mergeById)).1) recs
      /\ (forall i : nat,
             i ∈ FileStorage.batchFileSkipLines
                   (FileStorage.ConsumeAll
                      ((fun o => (Examples.fsCsvEnv, o)) <$> Examples.threeRows)
                      (Examples.fsNew Examples.mergeById)).1 ->
             i < FileStorage.eventsInBatch
                   (FileStorage.ConsumeAll
                      ((fun o => (Examples.fsCsvEnv, o)) <$> Examples.threeRows)
                      (Examples.fsNew Examples.mergeById)).1))
  /\ (exists recs : list (gmap string Value * string),
         BatchInv
           (sqlView (Sql.ConsumeAll ((fun o => (Examples.sqlEnv, o)) <$> Examples.threeRows)
                       Examples.managed (Examples.txNew Examples.mergeStaged)).1.2) recs).
Proof.
  destruct merge_bookkeeping as [Hfs Hsql]. split.
  - apply (Hfs ((fun o => (Examples.fsCsvEnv, o)) <$> Examples.threeRows)
             (Examples.fsNew Examples.mergeById)).
    + unfold BatchStart. vm_compute. auto 10.
    + vm_compute. reflexivity.
  - destruct (Hsql ((fun o => (Examples.sqlEnv, o)) <$> Examples.threeRows) Examples.managed
                (Sql.ConsumeAll ((fun o => (Examples.sqlEnv, o)) <$> Examples.threeRows)
                   Examples.managed (Examples.txNew Examples.mergeStaged)).1.1
                (Examples.txNew Examples.mergeStaged)
                (Sql.ConsumeAll ((fun o => (Examples.sqlEnv, o)) <$> Examples.threeRows)
                   Examples.managed (Examples.txNew Examples.mergeStaged)).1.2)
      as (recs & _ & Hinv & _).
    + unfold BatchStart. vm_compute. auto 10.
    + right. split; [reflexivity | vm_compute; discriminate].
    + vm_compute. reflexivity.
    + exists recs. exact Hinv.
Defined.

(** *** The flush of the batch file *)

Lemma fs_rewriteLines_spec (env : FileStorage.Env) (conv : bool) (tm : Marshaller)
  (skip : gset nat) (objs : list (gmap string Value)) :
  forall (i : nat) (out : list Line),
    Forall (fun o => (FileStorage.lineBytes env (DataLine FileFormatNDJSON o)
                      < MaxScanTokenSize)%N) objs ->
    FileStorage.Write_err env = None ->
    (forall o, FileStorage.targetMarshal_err env o = None) ->
    exists res : list Line,
      FileStorage.rewriteLines env conv tm skip i (DataLine FileFormatNDJSON <$> objs) out
      = inl res
      /\ objectsOf res = objectsOf out ++ keptFrom skip i objs.
Proof.
  induction objs as [|o objs IH]; intros i out Hshort Hw Hm; cbn.
  { exists out. rewrite app_nil_r. auto. }
  apply Forall_cons in Hshort as [Ho Hshort].
  rewrite bool_decide_eq_false_2 by lia.
  destruct (bool_decide (i ∈ skip)); [exact (IH (S i) out Hshort Hw Hm)|].
  destruct conv.
  - rewrite Hm.
    destruct (IH (S i) (out ++ [DataLine (Format tm) o]) Hshort Hw Hm) as (res & -> & Hres).
    exists res. split; [reflexivity|]. rewrite Hres, objectsOf_app, <- app_assoc. reflexivity.
  - rewrite Hw.
    destruct (IH (S i) (out ++ [DataLine FileFormatNDJSON o]) Hshort Hw Hm)
      as (res & -> & Hres).
    exists res. split; [reflexivity|]. rewrite Hres, objectsOf_app, <- app_assoc. reflexivity.
Qed.

Lemma sql_rewriteLines_spec (env : Sql.Env) (conv : bool) (tm : Marshaller)
  (skip : gset nat) (objs : list (gmap string Value)) :
  forall (i : nat) (out : list Line),
    Forall (fun o => (Sql.lineBytes env (DataLine FileFormatNDJSON o)
                      < Sql.scannerBufferMax)%N) objs ->
    Sql.Write_err env = None ->
    (forall o, Sql.targetMarshal_err env o = None) ->
    exists res : list Line,
      Sql.rewriteLines env conv tm skip i (DataLine FileFormatNDJSON <$> objs) out = inl res
      /\ objectsOf res = objectsOf out ++ keptFrom skip i objs.
Proof.
  induction objs as [|o objs IH]; intros i out Hshort Hw Hm; cbn.
  { exists out. rewrite app_nil_r. auto. }
  apply Forall_cons in Hshort as [Ho Hshort].
  rewrite bool_decide_eq_false_2 by lia.
  destruct (bool_decide (i ∈ skip)); [exact (IH (S i) out Hshort Hw Hm)|].
  destruct conv.
  - rewrite Hm.
    destruct (IH (S i) (out ++ [DataLine (Format tm) o]) Hshort Hw Hm) as (res & -> & Hres).
    exists res. split; [reflexivity|]. rewrite Hres, objectsOf_app, <- app_assoc. reflexivity.
  - rewrite Hw.
    destruct (IH (S i) (out ++ [DataLine FileFormatNDJSON o]) Hshort Hw Hm)
      as (res & -> & Hres).
    exists res. split; [reflexivity|]. rewrite Hres, objectsOf_app, <- app_assoc. reflexivity.
Qed.

Lemma objectsOf_data (f : FileFormat) (objs : list (gmap string Value)) :
  objectsOf (DataLine f <$> objs) = objs.
Proof.
  induction objs as [|o objs IH]; [reflexivity|]. cbn. unfold objectsOf in IH.
  rewrite IH. reflexivity.
Qed.

Lemma keptFrom_all (i : nat) (objs : list (gmap string Value)) : keptFrom ∅ i objs = objs.
Proof.
  revert i. induction objs as [|o objs IH]; intros i; [reflexivity|]. cbn.
  rewrite bool_decide_eq_false_2 by set_solver. rewrite IH. reflexivity.
Qed.

Lemma fs_flush_wrap (env : FileStorage.Env)
  (ps ps1 : FileStorage.AbstractFileStorageStream) (out : outcome)
  (up : option FileStorage.Upload) (f : File) :
  FileStorage.flushBatchFile_body env ps = (ps1, out, up) ->
  FileStorage.batchFile ps1 = Some f ->
  exists ps' : FileStorage.AbstractFileStorageStream,
    FileStorage.flushBatchFile env ps = (ps', out, up).
Proof.
  intros Hb Hf. unfold FileStorage.flushBatchFile. rewrite Hb.
  destruct (FileStorage.merge ps1); cbn; rewrite Hf; eexists; reflexivity.
Qed.

(** The flush of the file-storage stream, when nothing fails and every line
    fits the scanner: the batch is rewritten exactly when lines are to be
    skipped or the formats differ, and what is uploaded reads back as the
    objects of the batch without the skipped lines. *)
Lemma fs_flush_keeps_unskipped (env : FileStorage.Env)
  (ps : FileStorage.AbstractFileStorageStream) (m tm : Marshaller) (f : File)
  (objs : list (gmap string Value)) :
  0 < FileStorage.eventsInBatch ps ->
  FileStorage.marshaller ps = Some m ->
  FileStorage.targetMarshaller ps = Some tm ->
  FileStorage.batchFile ps = Some f ->
  flines f = DataLine FileFormatNDJSON <$> objs ->
  Forall (fun o => (FileStorage.lineBytes env (DataLine FileFormatNDJSON o)
                    < MaxScanTokenSize)%N) objs ->
  FileStorage.Flush_err env = None -> FileStorage.Sync_err env = None ->
  FileStorage.CreateTemp_err env = None -> FileStorage.Init_err env = None ->
  FileStorage.Open_err env = None -> FileStorage.Write_err env = None ->
  FileStorage.Seek_err env = None -> FileStorage.Upload_err env = None ->
  (forall o, FileStorage.targetMarshal_err env o = None) ->
  exists (ps' : FileStorage.AbstractFileStorageStream) (up : FileStorage.Upload),
    FileStorage.flushBatchFile env ps = (ps', Returned None, Some up)
    /\ (FileStorage.rewritten up = true
        <-> (FileStorage.batchFileSkipLines ps <> ∅ \/ Marshaller_Equal tm m = false))
    /\ objectsOf (FileStorage.uploaded up) = keptFrom (FileStorage.batchFileSkipLines ps) 0 objs.
Proof.
  intros Hev Hm Htm Hf Hl Hshort Hfl Hsy Hct Hin Hop Hwr Hse Hup Htma.
  assert (Hbody : exists (ps1 : FileStorage.AbstractFileStorageStream) (up : FileStorage.Upload),
             FileStorage.flushBatchFile_body env ps = (ps1, Returned None, Some up)
             /\ FileStorage.batchFile ps1 = Some f
             /\ (FileStorage.rewritten up = true
                 <-> (FileStorage.batchFileSkipLines ps <> ∅ \/ Marshaller_Equal tm m = false))
             /\ objectsOf (FileStorage.uploaded up)
                = keptFrom (FileStorage.batchFileSkipLines ps) 0 objs).
  { unfold FileStorage.flushBatchFile_body.
    rewrite bool_decide_eq_true_2 by exact Hev.
    rewrite Hm, Hfl, Hsy, Htm. cbn zeta.
    rewrite ?Hct, ?Hop, ?Hse, ?Hup, ?Hf, ?Hin. cbn [from_option]. rewrite Hl.
    assert (Hsz : bool_decide (0 < size (FileStorage.batchFileSkipLines ps)) = true
                  <-> FileStorage.batchFileSkipLines ps <> ∅).
    { rewrite bool_decide_eq_true. split.
      - intros Hpos Hempty. rewrite Hempty, size_empty in Hpos. lia.
      - intros Hne. destruct (decide (size (FileStorage.batchFileSkipLines ps) = 0))
          as [Hz|Hnz]; [|lia].
        apply size_empty_inv in Hz. exfalso. apply Hne. apply leibniz_equiv. exact Hz. }
    destruct (bool_decide (0 < size (FileStorage.batchFileSkipLines ps))) eqn:Hskip;
      destruct (Marshaller_Equal tm m) eqn:Heq; cbn.
    - destruct (fs_rewriteLines_spec env false tm (FileStorage.batchFileSkipLines ps)
                  objs 0 [] Hshort Hwr Htma) as (res & Hres & Hobjs).
      rewrite Hres. eexists _, _. split; [reflexivity|]. cbn.
      split; [exact Hf|]. split; [|exact Hobjs].
      split; [intros _; left; apply Hsz; reflexivity | reflexivity].
    - destruct (Marshaller_Init tm (sortedStrings (FileStorage.csvHeader ps)))
        as [tm' hdr] eqn:HI.
      destruct (Marshaller_Init_spec _ _ _ _ HI) as (_ & _ & Hh & _).
      destruct (fs_rewriteLines_spec env true tm' (FileStorage.batchFileSkipLines ps)
                  objs 0 hdr Hshort Hwr Htma) as (res & Hres & Hobjs).
      cbn. rewrite Hres. eexists _, _. split; [reflexivity|]. cbn.
      split; [exact Hf|]. split; [|change (objectsOf res = keptFrom (FileStorage.batchFileSkipLines ps) 0 objs); rewrite Hobjs, Hh; reflexivity].
      split; [intros _; right; reflexivity | reflexivity].
    - eexists _, _. split; [reflexivity|]. cbn.
      split; [exact Hf|]. split.
      + split; [discriminate|]. intros [Hne|Hd]; [|discriminate].
        apply Hsz in Hne. discriminate.
      + assert (Hempty : FileStorage.batchFileSkipLines ps = ∅).
        { destruct (decide (FileStorage.batchFileSkipLines ps = ∅)) as [He|Hne]; [exact He|].
          apply Hsz in Hne. discriminate. }
        rewrite Hempty, keptFrom_all. apply objectsOf_data.
    - destruct (Marshaller_Init tm (sortedStrings (FileStorage.csvHeader ps)))
        as [tm' hdr] eqn:HI.
      destruct (Marshaller_Init_spec _ _ _ _ HI) as (_ & _ & Hh & _).
      destruct (fs_rewriteLines_spec env true tm' (FileStorage.batchFileSkipLines ps)
                  objs 0 hdr Hshort Hwr Htma) as (res & Hres & Hobjs).
      cbn. rewrite Hres. eexists _, _. split; [reflexivity|]. cbn.
      split; [exact Hf|]. split; [|change (objectsOf res = keptFrom (FileStorage.batchFileSkipLines ps) 0 objs); rewrite Hobjs, Hh; reflexivity].
      split; [intros _; right; reflexivity | reflexivity]. }
  destruct Hbody as (ps1 & up & Hb & Hf1 & Hrw & Hobjs).
  destruct (fs_flush_wrap env ps ps1 _ _ f Hb Hf1) as [ps' Hfl'].
  exists ps', up. auto.
Qed.



(** The transactional SQL stream on the same object: its scanner was given a
    larger buffer, and the load receives one object. *)
Lemma sql_flush_keeps_long_line :
  let r := Sql.Consume Examples.csvStaged Examples.managed (Examples.txNew Examples.staged)
             Examples.bigRow in
  (fun op => match op with
             | Sql.OpLoadTable _ _ lines => length (objectsOf lines)
             | _ => 0
             end)
    <$> last (Sql.log (Sql.flushBatchFile Examples.csvStaged r.1.1 r.1.2).1.1.1)
  = Some 1.
Proof. vm_compute. reflexivity. Qed.

(** *** The schema of the destination *)

Lemma keepsColumns_refl (t : Sql.Table) : keepsColumns t t.
Proof. intros H. split; [exact H | reflexivity]. Qed.

Lemma keepsColumns_eq (a b : Sql.Table) : b = a -> keepsColumns a b.
Proof. intros ->. apply keepsColumns_refl. Qed.

Lemma keepsColumns_trans (a b c : Sql.Table) :
  keepsColumns a b -> keepsColumns b c -> keepsColumns a c.
Proof.
  intros Hab Hbc Ha. destruct (Hab Ha) as [Hb Hsub]. destruct (Hbc Hb) as [Hc Hsub'].
  split; [exact Hc | set_solver].
Qed.

Lemma dom_union_with_widen (a b : gmap string Sql.DataType) :
  dom (union_with (fun x y => Some (Sql.widen x y)) a b) = dom a ∪ dom b.
Proof.
  apply set_eq. intros k. rewrite elem_of_union, !elem_of_dom, lookup_union_with.
  destruct (a !! k), (b !! k); cbn; split; intros H; eauto;
    destruct H as [H|H]; try exact H; destruct H; discriminate.
Qed.

Lemma ensured_keeps (existing desired : Sql.Table) :
  keepsColumns existing (Sql.ensured existing desired)
  /\ dom (Sql.Columns desired) ⊆ dom (Sql.Columns (Sql.ensured existing desired)).
Proof.
  unfold Sql.ensured, keepsColumns. destruct (Sql.Exists_ existing) eqn:He; cbn.
  - rewrite dom_union_with_widen. split; [intros _; split; [exact He|]|]; set_solver.
  - split; [discriminate | reflexivity].
Qed.

Lemma adjustTableColumnTypes_dom (tmp existing target : Sql.Table) :
  dom (Sql.Columns (Sql.adjustTableColumnTypes tmp existing target))
  = dom (Sql.Columns tmp) ∪ dom (Sql.Columns target).
Proof.
  unfold Sql.adjustTableColumnTypes. cbn. rewrite dom_union_with_widen. f_equal.
  apply set_eq. intros k. rewrite !elem_of_dom, map_lookup_imap.
  destruct (Sql.Columns target !! k); cbn; split; intros [? ?]; eauto; discriminate.
Qed.

Lemma sql_init_dest (env : Sql.Env) (w : Sql.World) (ps : Sql.AbstractTransactionalSQLStream) :
  Sql.destination (Sql.init env w ps).1.1 = Sql.destination w
  /\ Sql.tmpTableFunc (Sql.init env w ps).1.2 = Sql.tmpTableFunc ps.
Proof.
  unfold Sql.init. repeat case_match; simplify_eq; cbn; split; reflexivity.
Qed.

Lemma sql_tmpTableFunc_dest (env : Sql.Env) (tx : option Sql.TxSQLAdapter) (name : string)
  (w : Sql.World) (t : Sql.Table) (b : bool) :
  Sql.destination (Sql.ReplacePartition_tmpTableFunc env tx name w t b).1 = Sql.destination w.
Proof.
  unfold Sql.ReplacePartition_tmpTableFunc. repeat case_match; simplify_eq; reflexivity.
Qed.

Lemma sql_adjustTables_dest (env : Sql.Env) (w : Sql.World)
  (ps : Sql.AbstractTransactionalSQLStream) (t : Sql.Table) :
  Sql.tmpTableFunc ps = Some Sql.ReplacePartition_tmpTableFunc ->
  Sql.destination (Sql.adjustTables env w ps t).1.1 = Sql.destination w
  /\ Sql.tmpTableFunc (Sql.adjustTables env w ps t).1.2 = Sql.tmpTableFunc ps.
Proof.
  intros Hf. unfold Sql.adjustTables.
  destruct (Sql.tmpTable ps) as [tmp|].
  - cbn. repeat case_match; simplify_eq; cbn; split; first [reflexivity | assumption].
  - cbn. rewrite Hf.
    pose proof (sql_tmpTableFunc_dest env (Sql.tx ps) (Sql.tableName (Sql.abs ps)) w t
                  (bool_decide (Sql.batchFile ps ≠ None))) as Hd.
    destruct (Sql.ReplacePartition_tmpTableFunc _ _ _ _ _ _) as [w1 [[t1 tmp1]|]]; cbn in *.
    + split; [exact Hd | exact Hf].
    + split; [exact Hd | exact Hf].
Qed.

Lemma sql_writeToBatchFile_dest (env : Sql.Env) (w : Sql.World)
  (ps : Sql.AbstractTransactionalSQLStream) (t : Sql.Table) (o : gmap string Value) :
  Sql.tmpTableFunc ps = Some Sql.ReplacePartition_tmpTableFunc ->
  Sql.destination (Sql.writeToBatchFile env w ps t o).1.1 = Sql.destination w
  /\ Sql.tmpTableFunc (Sql.writeToBatchFile env w ps t o).1.2 = Sql.tmpTableFunc ps.
Proof.
  intros Hf. unfold Sql.writeToBatchFile.
  destruct (sql_adjustTables_dest env w ps t Hf) as [Hd Hfa].
  destruct (Sql.adjustTables env w ps t) as [[w1 ps1] out1]. cbn in Hd, Hfa.
  unfold writeLinesTo.
  repeat case_match; simplify_eq; cbn; split; assumption.
Qed.

Lemma sql_insert_dest (env : Sql.Env) (w : Sql.World)
  (ps : Sql.AbstractTransactionalSQLStream) (t : Sql.Table) (o : gmap string Value) :
  Sql.tmpTableFunc ps = Some Sql.ReplacePartition_tmpTableFunc ->
  Sql.destination (Sql.insert env w ps t o).1.1 = Sql.destination w
  /\ Sql.tmpTableFunc (Sql.insert env w ps t o).1.2 = Sql.tmpTableFunc ps.
Proof.
  intros Hf. unfold Sql.insert.
  destruct (sql_adjustTables_dest env w ps t Hf) as [Hd Hfa].
  destruct (Sql.adjustTables env w ps t) as [[w1 ps1] out1]. cbn in Hd, Hfa.
  repeat case_match; simplify_eq; cbn; split; assumption.
Qed.

Lemma sql_Consume_dest (env : Sql.Env) (w : Sql.World) (rp : Sql.ReplacePartitionStream)
  (o : gmap string Value) :
  Sql.tmpTableFunc (Sql.base rp) = Some Sql.ReplacePartition_tmpTableFunc ->
  Sql.destination (Sql.ReplacePartition_Consume env w rp o).1.1 = Sql.destination w.
Proof.
  intros Hf. unfold Sql.ReplacePartition_Consume.
  assert (Hb : Sql.destination (Sql.ReplacePartition_Consume_body env w rp o).1.1
               = Sql.destination w).
  { unfold Sql.ReplacePartition_Consume_body.
    destruct (sql_init_dest env w (Sql.base rp)) as [Hd Hfi].
    destruct (Sql.init env w (Sql.base rp)) as [[w1 ps1] [e|]]; cbn in Hd, Hfi; [exact Hd|].
    rewrite Hf in Hfi.
    destruct (Sql.AbstractSQLStream_preprocess env _) as [[t po]|e]; [|exact Hd].
    destruct (bool_decide _).
    - rewrite (proj1 (sql_writeToBatchFile_dest env w1 ps1 t po Hfi)). exact Hd.
    - rewrite (proj1 (sql_insert_dest env w1 ps1 t po Hfi)). exact Hd. }
  destruct (Sql.ReplacePartition_Consume_body env w rp o) as [[w1 ps1] [err|]]; cbn in *.
  - destruct (Sql.postConsume ps1 err). exact Hb.
  - exact Hb.
Qed.

Lemma sql_Complete_body_dest (env : Sql.Env) (w : Sql.World) (rp : Sql.ReplacePartitionStream) :
  keepsColumns (Sql.destination w)
    (Sql.destination (Sql.ReplacePartition_Complete_body env w rp).1.1).
Proof.
  unfold Sql.ReplacePartition_Complete_body.
  destruct (LastError _); [apply keepsColumns_refl|].
  destruct (sql_clearPartition_log env w rp) as (d & _ & Hcd & _).
  destruct (Sql.clearPartition env w rp) as [w1 [e|]]; cbn in Hcd;
    [apply keepsColumns_eq; exact Hcd|].
  destruct (bool_decide _); [|apply keepsColumns_eq; exact Hcd].
  assert (Hf : forall r : Sql.World * Sql.AbstractTransactionalSQLStream * outcome,
             r = match Sql.batchFile (Sql.base rp) with
                 | Some _ => let '(w, ps, out, _) := Sql.flushBatchFile env w1 (Sql.base rp) in
                             (w, ps, out)
                 | None => (w1, Sql.base rp, Returned None)
                 end -> Sql.destination r.1.1 = Sql.destination w).
  { intros r ->. destruct (Sql.batchFile (Sql.base rp)); [|exact Hcd].
    pose proof (sql_flush_extends env w1 (Sql.base rp)) as [_ Hs].
    destruct (Sql.flushBatchFile env w1 (Sql.base rp)) as [[[w2 ps2] out2] b2].
    cbn in *. rewrite Hs. exact Hcd. }
  specialize (Hf _ eq_refl).
  destruct (match Sql.batchFile (Sql.base rp) with Some _ => _ | None => _ end)
    as [[w2 ps2] [[e|]|]]; cbn in Hf; try (apply keepsColumns_eq; exact Hf).
  destruct (Sql.dstTable ps2) as [dst|]; [|apply keepsColumns_eq; exact Hf].
  destruct (Sql.tmpTable ps2) as [tmp|]; [|apply keepsColumns_eq; exact Hf].
  unfold Sql.EnsureTableWithCaching.
  destruct (Sql.EnsureTableWithCaching_err env); [apply keepsColumns_eq; exact Hf|].
  assert (Hk : keepsColumns (Sql.destination w)
                 (Sql.ensured (Sql.destination w2) (Sql.set_Columns (Sql.Columns tmp) dst))).
  { rewrite <- Hf. apply ensured_keeps. }
  destruct (Sql.txPanics env _); exact Hk.
Qed.

Lemma sql_step_dest (c : Sql.Call) (w : Sql.World) (rp : Sql.ReplacePartitionStream) :
  Sql.tmpTableFunc (Sql.base rp) = Some Sql.ReplacePartition_tmpTableFunc ->
  keepsColumns (Sql.destination w) (Sql.destination (Sql.step c w rp).1.1).
Proof.
  intros Hf. destruct c as [env o|env|]; cbn.
  - apply keepsColumns_eq. apply sql_Consume_dest. exact Hf.
  - unfold Sql.ReplacePartition_Complete.
    destruct (bool_decide _); [apply keepsColumns_refl|].
    eapply keepsColumns_trans; [apply sql_Complete_body_dest|].
    apply keepsColumns_eq.
    destruct (sql_deferred_log env rp (Sql.ReplacePartition_Complete_body env w rp))
      as (added & _ & Hd & _). exact Hd.
  - apply keepsColumns_eq. unfold Sql.Abort.
    repeat case_match; simplify_eq; reflexivity.
Qed.

(** The table of the warehouse: after any call of a ReplacePartition stream
    the destination table still exists and has every column it had, whether
    or not the tables inferred for the batch have it (this rests on
    EnsureTable as the spec describes it). The descriptor of the stream: as
    long as the stream holds a temporary table whose columns contain the
    descriptor's, [adjustTables] leaves the descriptor with the columns of
    the temporary table, which contain the columns of the table for the
    object and the columns the descriptor had. *)
Lemma destination_columns_only_added :
  (forall (c : Sql.Call) (w : Sql.World) (rp : Sql.ReplacePartitionStream),
      Sql.tmpTableFunc (Sql.base rp) = Some Sql.ReplacePartition_tmpTableFunc ->
      keepsColumns (Sql.destination w) (Sql.destination (Sql.step c w rp).1.1))
  /\ (forall (env : Sql.Env) (w : Sql.World) (ps : Sql.AbstractTransactionalSQLStream)
             (t d tmp : Sql.Table),
         Sql.dstTable ps = Some d ->
         Sql.tmpTable ps = Some tmp ->
         dom (Sql.Columns d) ⊆ dom (Sql.Columns tmp) ->
         exists d' tmp' : Sql.Table,
           Sql.adjustTables env w ps t
           = (w, Sql.set_dstTable (Some d') (Sql.set_tmpTable (Some tmp') ps), Returned None)
           /\ Sql.Columns d' = Sql.Columns tmp'
           /\ dom (Sql.Columns d) ⊆ dom (Sql.Columns d')
           /\ dom (Sql.Columns t) ⊆ dom (Sql.Columns d')).
Proof.
  split; [exact sql_step_dest|].
  intros env w ps t d tmp Hd Ht Hsub.
  unfold Sql.adjustTables. rewrite Ht. cbn. rewrite Hd.
  eexists _, _. split; [reflexivity|]. cbn.
  split; [reflexivity|].
  pose proof (adjustTableColumnTypes_dom tmp (Sql.existingTable ps) t) as Hdom.
  unfold Sql.adjustTableColumnTypes in Hdom. cbn in Hdom. rewrite Hdom.
  split; set_solver.
Qed.

Lemma destination_columns_only_added_witness :
  (Sql.Exists_ (Sql.destination
                  (Sql.step (Sql.CallComplete Examples.sqlEnv)
                     Examples.rpOnce.1 Examples.rpOnce.2).1.1) = true
   /\ dom (Sql.Columns (Sql.destination Examples.rpOnce.1))
      ⊆ dom (Sql.Columns (Sql.destination
                            (Sql.step (Sql.CallComplete Examples.sqlEnv)
                               Examples.rpOnce.1 Examples.rpOnce.2).1.1)))
  /\ (exists d d' tmp' : Sql.Table,
         Sql.dstTable (Sql.base Examples.rpOnce.2) = Some d
         /\ Sql.Columns d' = Sql.Columns tmp'
         /\ dom (Sql.Columns d) ⊆ dom (Sql.Columns d')
         /\ dom (Sql.Columns (Examples.tableOf (Examples.row 2 "b"))) ⊆ dom (Sql.Columns d')).
Proof.
  destruct destination_columns_only_added as [H1 H2]. split.
  - apply (H1 (Sql.CallComplete Examples.sqlEnv) Examples.rpOnce.1 Examples.rpOnce.2).
    + vm_compute. reflexivity.
    + vm_compute. reflexivity.
  - destruct (H2 Examples.sqlEnv Examples.rpOnce.1 (Sql.base Examples.rpOnce.2)
                (Examples.tableOf (Examples.row 2 "b"))
                (default Sql.zeroTable (Sql.dstTable (Sql.base Examples.rpOnce.2)))
                (default Sql.zeroTable (Sql.tmpTable (Sql.base Examples.rpOnce.2))))
      as (d' & tmp' & _ & Hc & Hd & Ht).
    + vm_compute. reflexivity.
    + vm_compute. reflexivity.
    + apply (bool_decide_unpack _). vm_compute. exact I.
    + exists (default Sql.zeroTable (Sql.dstTable (Sql.base Examples.rpOnce.2))), d', tmp'.
      split; [vm_compute; reflexivity|]. auto.
Defined.


(** *** The scenarios of the spec, evaluated *)

(** Merge dedup within a batch: three objects with the keys 1, 1 and 2 leave
    line 0 to be skipped and the keys at lines 1 and 2. *)
Example merge_dedup_scenario :
  let ps := (FileStorage.ConsumeAll ((fun o => (Examples.fsEnv, o)) <$> Examples.threeRows)
               (Examples.fsNew Examples.mergeById)).1 in
  elements (FileStorage.batchFileSkipLines ps) = [0]
  /\ map_to_list (FileStorage.batchFileLinesByPK ps) = [("1", 1); ("2", 2)]
  /\ FileStorage.eventsInBatch ps = 3.
Proof. vm_compute. repeat split; reflexivity. Qed.

(** File storage with merge and conversion to CSV: two objects with the same
    key are uploaded as the header and the later object. *)
Example merge_convert_scenario :
  let ps := (FileStorage.ConsumeAll
               ((fun o => (Examples.fsCsvEnv, o)) <$> [Examples.row 1 "a"; Examples.row 1 "b"])
               (Examples.fsNew Examples.mergeById)).1 in
  FileStorage.uploaded <$> (FileStorage.Complete Examples.fsCsvEnv ps).2
  = Some [HeaderLine ["id"; "v"]; DataLine FileFormatCSV (Examples.row 1 "b")].
Proof. vm_compute. reflexivity. Qed.

(** ReplacePartition on an empty stream: the partition is deleted and the
    stream ends Completed. *)
Example replace_partition_empty_scenario :
  let r := Sql.ReplacePartition_Complete Examples.sqlEnv Examples.managed
             (Examples.rpNew Examples.january) in
  Sql.log r.1.1 = [Sql.OpGetTableSchema Sql.ViaSqlAdapter "events";
                   Sql.OpDelete Sql.ViaSqlAdapter "events" "2024-01"]
  /\ r.2 = Returned None
  /\ Status_ (Sql.state (Sql.abs (Sql.base r.1.2))) = Completed.
Proof. vm_compute. repeat split; reflexivity. Qed.

(** SanitizeString on a stream id. *)
Example SanitizeString_example : SanitizeString "s-1 .x_y" = "s_1_x_y".
Proof. reflexivity. Qed.

(** ** utils: strings *)

Lemma NvlString_head (args : list string) :
  Utils.NvlString args = default EmptyString (head (filter (fun s => s ≠ EmptyString) args)).
Proof.
  induction args as [|a rest IH]; [reflexivity|].
  cbn [Utils.NvlString]. rewrite filter_cons.
  destruct (decide (a ≠ EmptyString)) as [Ha|Ha].
  - rewrite bool_decide_eq_true_2 by exact Ha. reflexivity.
  - rewrite bool_decide_eq_false_2 by exact Ha. exact IH.
Qed.

Lemma NvlString_empty (args : list string) :
  Utils.NvlString args = EmptyString <-> Forall (fun s => s = EmptyString) args.
Proof.
  induction args as [|a rest IH]; cbn [Utils.NvlString].
  - split; [constructor | reflexivity].
  - destruct (decide (a ≠ EmptyString)) as [Ha|Ha].
    + rewrite bool_decide_eq_true_2 by exact Ha. split.
      * intros ->. contradiction.
      * intros Hall. inversion Hall; subst. contradiction.
    + rewrite bool_decide_eq_false_2 by exact Ha.
      assert (a = EmptyString) as -> by (destruct (decide (a = EmptyString)); [assumption|contradiction]).
      rewrite IH. split; [intros; constructor; auto | intros Hall; inversion Hall; auto].
Qed.

(** X1. NvlString answers the first of its arguments that is not empty, and
    the empty string exactly when all of them are empty; on a list in two
    parts it is NvlString of what the parts give, and DefaultString is
    NvlString on the string and the default. *)
Theorem NvlString_first_non_empty (args more : list string) (defaultValue str : string) :
  Utils.NvlString args = default EmptyString (head (filter (fun s => s ≠ EmptyString) args))
  /\ (Utils.NvlString args = EmptyString <-> Forall (fun s => s = EmptyString) args)
  /\ Utils.NvlString (args ++ more)
     = Utils.NvlString [Utils.NvlString args; Utils.NvlString more]
  /\ Utils.DefaultString str defaultValue = Utils.NvlString [str; defaultValue].
Proof.
  split; [apply NvlString_head|]. split; [apply NvlString_empty|]. split.
  - induction args as [|a rest IH]; cbn [app Utils.NvlString].
    + rewrite (bool_decide_eq_false_2 (EmptyString ≠ EmptyString)) by auto.
      destruct (decide (Utils.NvlString more ≠ EmptyString)) as [Hm|Hm].
      * rewrite bool_decide_eq_true_2 by exact Hm. reflexivity.
      * rewrite bool_decide_eq_false_2 by exact Hm.
        destruct (decide (Utils.NvlString more = EmptyString)); [assumption|contradiction].
    + destruct (decide (a ≠ EmptyString)) as [Ha|Ha].
      * rewrite !bool_decide_eq_true_2 by exact Ha. reflexivity.
      * rewrite (bool_decide_eq_false_2 (a ≠ EmptyString)) by exact Ha. exact IH.
  - unfold Utils.DefaultString. cbn [Utils.NvlString].
    destruct (decide (str = EmptyString)) as [->|Hs].
    + rewrite bool_decide_eq_true_2 by reflexivity.
      rewrite bool_decide_eq_false_2 by auto.
      destruct defaultValue; reflexivity.
    + rewrite bool_decide_eq_false_2 by exact Hs.
      rewrite bool_decide_eq_true_2 by exact Hs. reflexivity.
Qed.

Lemma sanitizeFrom_alphanumeric (inRun : bool) (s : string) :
  Utils.IsAlphanumeric (sanitizeFrom inRun s) = true.
Proof.
  revert inRun. induction s as [|c rest IH]; intros inRun; [reflexivity|].
  cbn [sanitizeFrom].
  destruct (IsLetterOrNumber c || bool_decide (c = "_"%char)) eqn:Hc.
  - cbn [Utils.IsAlphanumeric].
    apply orb_true_iff in Hc as [Hc|Hc]; rewrite Hc; cbn; rewrite ?andb_false_r; apply IH.
  - destruct inRun; [apply IH|].
    cbn [Utils.IsAlphanumeric]. rewrite (bool_decide_eq_true_2 ("_"%char = "_"%char)) by reflexivity.
    cbn. rewrite andb_false_r. apply IH.
Qed.

Lemma sanitizeFrom_fixes (inRun : bool) (s : string) :
  Utils.IsAlphanumeric s = true -> sanitizeFrom inRun s = s.
Proof.
  revert inRun. induction s as [|c rest IH]; intros inRun Hs; [reflexivity|].
  cbn [Utils.IsAlphanumeric] in Hs. cbn [sanitizeFrom].
  destruct (IsLetterOrNumber c) eqn:Hl; cbn in *.
  - rewrite (IH false Hs). reflexivity.
  - destruct (bool_decide (c = "_"%char)) eqn:Hu; cbn in *; [|discriminate].
    rewrite (IH false Hs). reflexivity.
Qed.

Lemma sanitizeFrom_length (inRun : bool) (s : string) :
  String.length (sanitizeFrom inRun s) <= String.length s.
Proof.
  revert inRun. induction s as [|c rest IH]; intros inRun; [reflexivity|].
  cbn [sanitizeFrom].
  destruct (IsLetterOrNumber c || bool_decide (c = "_"%char)).
  - cbn. specialize (IH false). lia.
  - destruct inRun; cbn; specialize (IH true); lia.
Qed.

(** X2. What SanitizeString answers holds letters, digits and underscores
    only, whatever the input, so sanitizing twice is sanitizing once; and it
    is never longer than the input. *)
Theorem SanitizeString_is_alphanumeric (s : string) :
  Utils.IsAlphanumeric (SanitizeString s) = true
  /\ SanitizeString (SanitizeString s) = SanitizeString s
  /\ String.length (SanitizeString s) <= String.length s.
Proof.
  split; [apply sanitizeFrom_alphanumeric|]. split.
  - apply sanitizeFrom_fixes, sanitizeFrom_alphanumeric.
  - apply sanitizeFrom_length.
Qed.

(** X3. SanitizeString changes a string exactly when IsAlphanumeric refuses
    it. *)
Theorem SanitizeString_fixes_alphanumeric (s : string) :
  SanitizeString s = s <-> Utils.IsAlphanumeric s = true.
Proof.
  split.
  - intros Hs. rewrite <- Hs. apply sanitizeFrom_alphanumeric.
  - apply sanitizeFrom_fixes.
Qed.

Lemma string_app_cons (x : Ascii.ascii) (a b : string) :
  String x a +:+ b = String x (a +:+ b).
Proof. reflexivity. Qed.

Lemma string_app_assoc (a b c : string) : (a +:+ b) +:+ c = a +:+ (b +:+ c).
Proof.
  induction a as [|x a IH]; [reflexivity|].
  rewrite !string_app_cons, IH. reflexivity.
Qed.

Lemma string_length_pos (s : string) : 0 < String.length s <-> s ≠ EmptyString.
Proof. destruct s; cbn; split; intros; try lia; try congruence. Qed.

Lemma joinStrings_cons (sep x : string) (l : list string) :
  l ≠ [] -> Sql.joinStrings sep (x :: l) = x +:+ sep +:+ Sql.joinStrings sep l.
Proof. destruct l; [contradiction | reflexivity]. Qed.

Lemma joinStrings_glue (sep b e : string) (l : list string) :
  Sql.joinStrings sep ((b +:+ sep +:+ e) :: l) = Sql.joinStrings sep (b :: e :: l).
Proof.
  destruct l as [|x l]; [reflexivity|].
  rewrite !joinStrings_cons by discriminate.
  rewrite !string_app_assoc. reflexivity.
Qed.

(** The loop on a builder that already holds something: the builder counts
    as the first element of the join. *)
Lemma foldl_joinStep_started (sep b : string) (elems : list string) :
  b ≠ EmptyString ->
  foldl (Utils.joinStep sep) b elems
  = Sql.joinStrings sep (b :: filter (fun s => s ≠ EmptyString) elems).
Proof.
  revert b. induction elems as [|e rest IH]; intros b Hb; cbn [foldl]; [reflexivity|].
  rewrite filter_cons. unfold Utils.joinStep at 2.
  destruct (decide (e ≠ EmptyString)) as [He|He].
  - rewrite bool_decide_eq_true_2 by (apply string_length_pos; exact He).
    rewrite bool_decide_eq_true_2 by (apply string_length_pos; exact Hb).
    rewrite string_app_assoc, IH by (destruct b; [contradiction | discriminate]).
    apply joinStrings_glue.
  - rewrite bool_decide_eq_false_2 by (rewrite string_length_pos; exact He).
    apply IH. exact Hb.
Qed.

Lemma foldl_joinStep_fresh (sep : string) (elems : list string) :
  foldl (Utils.joinStep sep) EmptyString elems
  = Sql.joinStrings sep (filter (fun s => s ≠ EmptyString) elems).
Proof.
  induction elems as [|e rest IH]; cbn [foldl]; [reflexivity|].
  rewrite filter_cons. unfold Utils.joinStep at 2.
  destruct (decide (e ≠ EmptyString)) as [He|He].
  - rewrite bool_decide_eq_true_2 by (apply string_length_pos; exact He).
    rewrite bool_decide_eq_false_2 by (cbn; lia).
    change (EmptyString +:+ e) with e.
    apply foldl_joinStep_started. exact He.
  - rewrite bool_decide_eq_false_2 by (rewrite string_length_pos; exact He).
    exact IH.
Qed.

(** X4. JoinNonEmptyStrings is strings.Join on the elements that are not
    empty: the two early answers and the loop agree with it, and empty
    elements never bring a separator. *)
Theorem JoinNonEmptyStrings_is_join_of_non_empty (sep : string) (elems : list string) :
  Utils.JoinNonEmptyStrings sep elems
  = Sql.joinStrings sep (filter (fun s => s ≠ EmptyString) elems).
Proof.
  destruct elems as [|e [|e2 rest]].
  - reflexivity.
  - cbn [Utils.JoinNonEmptyStrings]. rewrite filter_cons.
    destruct (decide (e ≠ EmptyString)) as [He|He]; [reflexivity|].
    destruct e; [reflexivity | exfalso; apply He; discriminate].
  - apply foldl_joinStep_fresh.
Qed.

Lemma ShortenString_take (str : list Utils.rune) (n : Z) :
  Utils.ShortenString str n
  = if bool_decide (n < 0)%Z then None else Some (take (Z.to_nat n) str).
Proof.
  unfold Utils.ShortenString.
  destruct (decide (Z.of_nat (length str) ≤ n)%Z) as [Hfit|Hfit].
  - rewrite bool_decide_eq_true_2 by exact Hfit.
    rewrite bool_decide_eq_false_2 by lia.
    rewrite take_ge by lia. reflexivity.
  - rewrite bool_decide_eq_false_2 by exact Hfit. reflexivity.
Qed.

(** X5. ShortenString keeps the first n runes (the whole string when it has
    no more), panics on every negative n, and shortening twice is shortening
    to the smaller bound. ShortenStringWithEllipsis answers the string itself
    or the first n runes and three dots, so up to n + 3 runes. *)
Theorem ShortenString_keeps_prefix (str : list Utils.rune) (n m : Z) :
  Utils.ShortenString str n
  = (if bool_decide (n < 0)%Z then None else Some (take (Z.to_nat n) str))
  /\ Utils.ShortenString str n ≫= (fun r => Utils.ShortenString r m)
     = Utils.ShortenString str (Z.min n m)
  /\ match Utils.ShortenStringWithEllipsis str n with
     | Some r =>
         (0 <= n)%Z
         /\ ((r = str /\ (Z.of_nat (length str) <= n)%Z)
             \/ (r = take (Z.to_nat n) str ++ Utils.ellipsis
                 /\ Z.of_nat (length r) = (n + 3)%Z
                 /\ (n < Z.of_nat (length str))%Z))
     | None => (n < 0)%Z
     end.
Proof.
  split; [apply ShortenString_take|]. split.
  - rewrite !ShortenString_take.
    destruct (decide (n < 0)%Z) as [Hn|Hn].
    + rewrite bool_decide_eq_true_2 by exact Hn.
      rewrite bool_decide_eq_true_2 by lia. reflexivity.
    + rewrite bool_decide_eq_false_2 by exact Hn. cbn.
      rewrite ShortenString_take.
      destruct (decide (m < 0)%Z) as [Hm|Hm].
      * rewrite !bool_decide_eq_true_2 by lia. reflexivity.
      * rewrite !bool_decide_eq_false_2 by lia.
        rewrite take_take. do 2 f_equal. lia.
  - unfold Utils.ShortenStringWithEllipsis.
    destruct (decide (Z.of_nat (length str) ≤ n)%Z) as [Hfit|Hfit].
    + rewrite bool_decide_eq_true_2 by exact Hfit.
      split; [lia|]. left. split; [reflexivity | exact Hfit].
    + rewrite bool_decide_eq_false_2 by exact Hfit.
      destruct (decide (n < 0)%Z) as [Hn|Hn].
      * rewrite bool_decide_eq_true_2 by exact Hn. exact Hn.
      * rewrite bool_decide_eq_false_2 by exact Hn.
        split; [lia|]. right. split; [reflexivity|].
        rewrite length_app, length_take. cbn. lia.
Qed.

Lemma IsLowerLetterOrNumber_IsLetterOrNumber (c : Ascii.ascii) :
  Utils.IsLowerLetterOrNumber c = true -> IsLetterOrNumber c = true.
Proof.
  unfold Utils.IsLowerLetterOrNumber, IsLetterOrNumber. cbn zeta.
  destruct (97 <=? Ascii.nat_of_ascii c)%nat, (Ascii.nat_of_ascii c <=? 122)%nat,
    (48 <=? Ascii.nat_of_ascii c)%nat, (Ascii.nat_of_ascii c <=? 57)%nat; cbn;
    intros; try discriminate; rewrite ?orb_true_r; reflexivity.
Qed.

Lemma IsAlphanumeric_app (a b : string) :
  Utils.IsAlphanumeric (a +:+ b) = Utils.IsAlphanumeric a && Utils.IsAlphanumeric b.
Proof.
  induction a as [|c a IH]; [reflexivity|].
  rewrite string_app_cons. cbn [Utils.IsAlphanumeric].
  destruct (negb (IsLetterOrNumber c) && negb (bool_decide (c = "_"%char))); [reflexivity | exact IH].
Qed.

Lemma IsLowerAlphanumeric_app (a b : string) :
  Utils.IsLowerAlphanumeric (a +:+ b)
  = Utils.IsLowerAlphanumeric a && Utils.IsLowerAlphanumeric b.
Proof.
  induction a as [|c a IH]; [reflexivity|].
  rewrite string_app_cons. cbn [Utils.IsLowerAlphanumeric].
  destruct (negb (Utils.IsLowerLetterOrNumber c) && negb (bool_decide (c = "_"%char)));
    [reflexivity | exact IH].
Qed.

(** X6. IsAlphanumeric and IsLowerAlphanumeric judge a concatenation by its
    parts, and what IsLowerAlphanumeric accepts IsAlphanumeric accepts. *)
Theorem IsLowerAlphanumeric_is_alphanumeric (a b : string) :
  Utils.IsAlphanumeric (a +:+ b) = Utils.IsAlphanumeric a && Utils.IsAlphanumeric b
  /\ Utils.IsLowerAlphanumeric (a +:+ b)
     = Utils.IsLowerAlphanumeric a && Utils.IsLowerAlphanumeric b
  /\ (Utils.IsLowerAlphanumeric a = true -> Utils.IsAlphanumeric a = true).
Proof.
  split; [apply IsAlphanumeric_app|]. split; [apply IsLowerAlphanumeric_app|].
  induction a as [|c a IH]; [reflexivity|].
  cbn [Utils.IsLowerAlphanumeric Utils.IsAlphanumeric].
  destruct (Utils.IsLowerLetterOrNumber c) eqn:Hc; cbn.
  - rewrite (IsLowerLetterOrNumber_IsLetterOrNumber c Hc). cbn. exact IH.
  - destruct (bool_decide (c = "_"%char)); cbn; [|discriminate].
    rewrite andb_false_r. exact IH.
Qed.

Lemma IsLowerAlphanumeric_is_alphanumeric_witness :
  Utils.IsLowerAlphanumeric "user_id1" = true /\ Utils.IsAlphanumeric "user_id1" = true.
Proof.
  split; [reflexivity|].
  apply (IsLowerAlphanumeric_is_alphanumeric "user_id1" EmptyString). reflexivity.
Defined.

(** ** The streams repository *)

Lemma last_filter_snoc {A} (P : A -> Prop) `{!forall x, Decision (P x)} (l : list A) (x : A) :
  last (filter P (l ++ [x])) = if decide (P x) then Some x else last (filter P l).
Proof.
  rewrite filter_app, filter_cons, filter_nil.
  destruct (decide (P x)); [apply last_snoc | rewrite app_nil_r; reflexivity].
Qed.

Lemma decodeAll_decoded (env : Repository.Env) (acc : Repository.Streams)
  (items : list Repository.StreamWithDestinations) :
  Repository.decodeAll env acc (inl <$> items) = inl (foldl (Repository.addStream env) acc items).
Proof.
  revert acc. induction items as [|x items IH]; intros acc; [reflexivity|].
  cbn. apply IH.
Qed.

Lemma addStream_streams (env : Repository.Env) (acc : Repository.Streams)
  (items : list Repository.StreamWithDestinations) :
  Repository.streams (foldl (Repository.addStream env) acc items)
  = Repository.streams acc ++ (Repository.StreamWithDestinations_init env <$> items).
Proof.
  revert acc. induction items as [|x items IH]; intros acc; cbn [foldl fmap list_fmap].
  - rewrite app_nil_r. reflexivity.
  - rewrite IH. cbn. rewrite <- app_assoc. reflexivity.
Qed.

Lemma addStream_byId (env : Repository.Env) (acc : Repository.Streams)
  (items : list Repository.StreamWithDestinations) (id : string) :
  Repository.streamsByIds (foldl (Repository.addStream env) acc items) !! id
  = match last (filter (fun x => Repository.Id (Repository.Stream x) = id)
                  (Repository.StreamWithDestinations_init env <$> items)) with
    | Some x => Some x
    | None => Repository.streamsByIds acc !! id
    end.
Proof.
  induction items as [|x items IH] using rev_ind; [reflexivity|].
  rewrite foldl_app, fmap_app. cbn [foldl fmap list_fmap].
  rewrite last_filter_snoc. cbn [Repository.addStream Repository.streamsByIds].
  destruct (decide _) as [Hid|Hid].
  - rewrite Hid. apply lookup_insert_eq.
  - rewrite lookup_insert_ne by exact Hid. exact IH.
Qed.

Lemma foldl_addDomain (swd : Repository.StreamWithDestinations)
  (m : gmap string (list Repository.StreamWithDestinations)) (doms : list string) (d : string) :
  default [] (foldl (Repository.addDomain swd) m doms !! d)
  = default [] (m !! d) ++ ((fun _ => swd) <$> filter (fun x => x = d) doms).
Proof.
  revert m. induction doms as [|x doms IH]; intros m; cbn [foldl].
  - rewrite filter_nil. cbn. rewrite app_nil_r. reflexivity.
  - rewrite IH, filter_cons. unfold Repository.addDomain.
    destruct (decide (x = d)) as [->|Hx].
    + rewrite lookup_insert_eq. cbn. rewrite <- app_assoc. reflexivity.
    + rewrite lookup_insert_ne by exact Hx. reflexivity.
Qed.

Lemma addStream_byDomain (env : Repository.Env) (acc : Repository.Streams)
  (items : list Repository.StreamWithDestinations) (d : string) :
  Repository.GetStreamsByDomain (foldl (Repository.addStream env) acc items) d
  = Repository.GetStreamsByDomain acc d
    ++ ((Repository.StreamWithDestinations_init env <$> items) ≫=
          (fun s => (fun _ => s) <$>
                      filter (fun x => x = d) (Repository.Domains (Repository.Stream s)))).
Proof.
  unfold Repository.GetStreamsByDomain.
  induction items as [|x items IH] using rev_ind.
  - cbn. rewrite app_nil_r. reflexivity.
  - rewrite foldl_app, fmap_app, bind_app. cbn [foldl fmap list_fmap].
    cbn [Repository.addStream Repository.streamsByDomains].
    rewrite foldl_addDomain, IH. cbn [mbind list_bind]. rewrite app_nil_r, <- app_assoc.
    reflexivity.
Qed.

(** Inserting pairs one after the other: a key reads as the last pair that
    carries it. *)
Lemma foldl_insert_last {A} (m : gmap string A) (l : list (string * A)) (k : string) :
  foldl (fun m p => <[p.1 := p.2]> m) m l !! k
  = match last (filter (fun p => p.1 = k) l) with
    | Some p => Some p.2
    | None => m !! k
    end.
Proof.
  induction l as [|p l IH] using rev_ind; [reflexivity|].
  rewrite foldl_app, last_filter_snoc. cbn [foldl].
  destruct (decide (p.1 = k)) as [Hp|Hp].
  - rewrite Hp. apply lookup_insert_eq.
  - rewrite lookup_insert_ne by exact Hp. exact IH.
Qed.

Lemma foldl_bindKey (keyType streamId : string) (m : gmap string Repository.ApiKeyBinding)
  (keys : list Repository.ApiKey) :
  foldl (Repository.bindKey keyType streamId) m keys
  = foldl (fun m p => <[p.1 := p.2]> m) m
      ((fun key => (Repository.ApiKey_Id key,
                    Repository.mkBinding (Repository.ApiKey_Hash key) keyType streamId))
         <$> keys).
Proof.
  revert m. induction keys as [|key keys IH]; intros m; [reflexivity|].
  cbn [foldl fmap list_fmap]. rewrite IH. reflexivity.
Qed.

Lemma addStream_bindings (env : Repository.Env) (acc : Repository.Streams)
  (items : list Repository.StreamWithDestinations) :
  Repository.apiKeyBindings (foldl (Repository.addStream env) acc items)
  = foldl (fun m p => <[p.1 := p.2]> m) (Repository.apiKeyBindings acc)
      ((Repository.StreamWithDestinations_init env <$> items) ≫= Repository.keyBindings).
Proof.
  induction items as [|x items IH] using rev_ind; [reflexivity|].
  rewrite foldl_app, fmap_app, bind_app, foldl_app. cbn [foldl fmap list_fmap].
  cbn [Repository.addStream Repository.apiKeyBindings].
  rewrite !foldl_bindKey, IH. cbn [mbind list_bind]. rewrite app_nil_r.
  unfold Repository.keyBindings. rewrite foldl_app. reflexivity.
Qed.

Lemma Init_decoded (env : Repository.Env) (items : list Repository.StreamWithDestinations)
  (tag : option Repository.Time) (s : Repository.StreamsRepositoryData) :
  let data := foldl (Repository.addStream env) Repository.noStreams items in
  Repository.Init env (Repository.mkInput None (inl <$> items) None)
    (Repository.TagTime <$> tag) s
  = (Some (Repository.mkStreams (Repository.streams data) (Repository.apiKeyBindings data)
             (Repository.streamsByIds data) (Repository.streamsByDomains data)
             (default 0%Z tag)),
     Returned None).
Proof.
  unfold Repository.Init. cbn [Repository.openBracket Repository.elements Repository.closeBracket].
  rewrite decodeAll_decoded. destruct tag as [t|]; cbn; [reflexivity|].
  destruct (foldl _ _ _) eqn:Hd. cbn.
  assert (lastModified = 0%Z) as ->; [|reflexivity].
  change lastModified with (Repository.lastModified
    (Repository.mkStreams streams apiKeyBindings streamsByIds streamsByDomains lastModified)).
  rewrite <- Hd. clear Hd.
  induction items as [|x items IH] using rev_ind; [reflexivity|].
  rewrite foldl_app. cbn. exact IH.
Qed.

(** X7. After an Init that read the whole array, the data holds the streams in
    the order of the array, each after its own init, and GetStreamById
    answers the last stream of the array that carries the id (nil when none
    does): of two streams with one id, the later one hides the earlier. *)
Theorem Init_indexes_streams_by_id (env : Repository.Env)
  (items : list Repository.StreamWithDestinations) (tag : option Repository.Time)
  (s : Repository.StreamsRepositoryData) (id : string) :
  exists d : Repository.Streams,
    Repository.Init env (Repository.mkInput None (inl <$> items) None)
      (Repository.TagTime <$> tag) s = (Some d, Returned None)
    /\ Repository.streams d = Repository.StreamWithDestinations_init env <$> items
    /\ Repository.lastModified d = default 0%Z tag
    /\ Repository.GetStreamById d id
       = last (filter (fun x => Repository.Id (Repository.Stream x) = id)
                 (Repository.streams d)).
Proof.
  eexists. split; [apply Init_decoded|]. cbn.
  rewrite addStream_streams. cbn. split; [reflexivity|]. split; [reflexivity|].
  unfold Repository.GetStreamById. cbn. rewrite addStream_byId.
  destruct (last _); reflexivity.
Qed.

(** X8. After an Init that read the whole array, GetStreamsByDomain answers
    the streams that list the domain, in the order of the array, a stream as
    many times as its Domains list names the domain; a domain no stream
    lists answers the empty slice. *)
Theorem Init_indexes_streams_by_domain (env : Repository.Env)
  (items : list Repository.StreamWithDestinations) (tag : option Repository.Time)
  (s : Repository.StreamsRepositoryData) (domain : string) :
  exists d : Repository.Streams,
    Repository.Init env (Repository.mkInput None (inl <$> items) None)
      (Repository.TagTime <$> tag) s = (Some d, Returned None)
    /\ Repository.GetStreamsByDomain d domain
       = Repository.streams d ≫=
           (fun x => (fun _ => x) <$>
                       filter (fun y => y = domain) (Repository.Domains (Repository.Stream x))).
Proof.
  eexists. split; [apply Init_decoded|].
  pose proof (addStream_byDomain env Repository.noStreams items domain) as Hd.
  unfold Repository.GetStreamsByDomain in *. cbn in *.
  rewrite Hd, addStream_streams. reflexivity.
Qed.

(** X9. After an Init that read the whole array, a key id is bound as the last
    key of the array that carries it asks: streams in the order of the array,
    in a stream the public keys before the private ones. The binding names
    the stream of that key; a private key hides a public key of its stream
    with the same id. *)
Theorem Init_binds_api_keys (env : Repository.Env)
  (items : list Repository.StreamWithDestinations) (tag : option Repository.Time)
  (s : Repository.StreamsRepositoryData) (keyId : string) :
  exists d : Repository.Streams,
    Repository.Init env (Repository.mkInput None (inl <$> items) None)
      (Repository.TagTime <$> tag) s = (Some d, Returned None)
    /\ Repository.getStreamByKeyId d keyId
       = snd <$> last (filter (fun p => p.1 = keyId)
                         (Repository.streams d ≫= Repository.keyBindings))
    /\ match Repository.getStreamByKeyId d keyId with
       | Some b =>
           exists x : Repository.StreamWithDestinations,
             x ∈ Repository.streams d
             /\ Repository.StreamId b = Repository.Id (Repository.Stream x)
             /\ ((Repository.KeyType b = "browser"
                  /\ exists key, key ∈ Repository.PublicKeys (Repository.Stream x)
                                 /\ Repository.ApiKey_Id key = keyId
                                 /\ Repository.ApiKey_Hash key = Repository.Hash b
                                 /\ keyId ∉ Repository.ApiKey_Id
                                            <$> Repository.PrivateKeys (Repository.Stream x))
                 \/ (Repository.KeyType b = "s2s"
                     /\ exists key, key ∈ Repository.PrivateKeys (Repository.Stream x)
                                    /\ Repository.ApiKey_Id key = keyId
                                    /\ Repository.ApiKey_Hash key = Repository.Hash b))
       | None =>
           keyId ∉ Repository.streams d ≫=
                     (fun x => Repository.ApiKey_Id
                                 <$> (Repository.PublicKeys (Repository.Stream x)
                                      ++ Repository.PrivateKeys (Repository.Stream x)))
       end.
Proof.
  eexists. split; [apply Init_decoded|].
  unfold Repository.getStreamByKeyId. cbn.
  rewrite addStream_bindings, addStream_streams, foldl_insert_last. cbn.
  rewrite lookup_empty.
  set (all := Repository.StreamWithDestinations_init env <$> items).
  split; [destruct (last _); reflexivity|].
  induction all as [|x all IH] using rev_ind.
  - cbn. apply not_elem_of_nil.
  - rewrite bind_app. cbn [mbind list_bind]. rewrite app_nil_r.
    rewrite filter_app, last_app.
    unfold Repository.keyBindings at 1. rewrite filter_app, last_app.
    destruct (last (filter _ (_ <$> Repository.PrivateKeys _))) as [p|] eqn:Hpriv.
    { apply last_Some_elem_of, list_elem_of_filter in Hpriv as [Hk Hp].
      apply list_elem_of_fmap in Hp as (key & -> & Hkey). cbn in Hk. cbn.
      exists x. split; [set_solver|]. split; [reflexivity|]. right.
      split; [reflexivity|]. exists key. auto. }
    apply last_None in Hpriv.
    assert (Hnone : keyId ∉ Repository.ApiKey_Id <$> Repository.PrivateKeys (Repository.Stream x)).
    { intros Hin. apply list_elem_of_fmap in Hin as (key & -> & Hkey).
      assert (Hmem : (Repository.ApiKey_Id key,
                      Repository.mkBinding (Repository.ApiKey_Hash key) "s2s"
                        (Repository.Id (Repository.Stream x)))
                     ∈ filter (fun p : string * Repository.ApiKeyBinding =>
                                 p.1 = Repository.ApiKey_Id key)
                         ((fun key0 => (Repository.ApiKey_Id key0,
                             Repository.mkBinding (Repository.ApiKey_Hash key0) "s2s"
                               (Repository.Id (Repository.Stream x))))
                            <$> Repository.PrivateKeys (Repository.Stream x))).
      { apply list_elem_of_filter. split; [reflexivity|].
        apply list_elem_of_fmap. exists key. auto. }
      rewrite Hpriv in Hmem. apply elem_of_nil in Hmem. exact Hmem. }
    destruct (last (filter _ (_ <$> Repository.PublicKeys _))) as [p|] eqn:Hpub.
    { apply last_Some_elem_of, list_elem_of_filter in Hpub as [Hk Hp].
      apply list_elem_of_fmap in Hp as (key & -> & Hkey). cbn in Hk. cbn.
      exists x. split; [set_solver|]. split; [reflexivity|]. left.
      split; [reflexivity|]. exists key. auto. }
    apply last_None in Hpub.
    assert (Hnopub : keyId ∉ Repository.ApiKey_Id <$> Repository.PublicKeys (Repository.Stream x)).
    { intros Hin. apply list_elem_of_fmap in Hin as (key & -> & Hkey).
      assert (Hmem : (Repository.ApiKey_Id key,
                      Repository.mkBinding (Repository.ApiKey_Hash key) "browser"
                        (Repository.Id (Repository.Stream x)))
                     ∈ filter (fun p : string * Repository.ApiKeyBinding =>
                                 p.1 = Repository.ApiKey_Id key)
                         ((fun key0 => (Repository.ApiKey_Id key0,
                             Repository.mkBinding (Repository.ApiKey_Hash key0) "browser"
                               (Repository.Id (Repository.Stream x))))
                            <$> Repository.PublicKeys (Repository.Stream x))).
      { apply list_elem_of_filter. split; [reflexivity|].
        apply list_elem_of_fmap. exists key. auto. }
      rewrite Hpub in Hmem. apply elem_of_nil in Hmem. exact Hmem. }
    destruct (last (filter _ (all ≫= Repository.keyBindings))) as [p|] eqn:Hprev.
    + cbn in IH |- *. destruct IH as (x0 & Hx0 & Hrest).
      exists x0. split; [set_solver | exact Hrest].
    + cbn in IH |- *. rewrite bind_app. cbn [mbind list_bind]. rewrite app_nil_r, fmap_app.
      rewrite !not_elem_of_app. auto.
Qed.

Lemma decodeAll_inl (env : Repository.Env) (acc data : Repository.Streams)
  (elements : list (Repository.StreamWithDestinations + error)) :
  Repository.decodeAll env acc elements = inl data ->
  exists items : list Repository.StreamWithDestinations,
    elements = inl <$> items /\ data = foldl (Repository.addStream env) acc items.
Proof.
  revert acc. induction elements as [|[x|e] rest IH]; intros acc Hd; cbn in Hd.
  - exists []. split; [reflexivity | cbn; congruence].
  - destruct (IH _ Hd) as (items & -> & ->). exists (x :: items). auto.
  - discriminate.
Qed.

(** X10. Init stores new data only when it read the whole array: when it
    answers an error (a bracket or an element that does not decode) or panics
    on the tag, the pointer is what it was, so GetData and Store go on with
    the data of the last Init that succeeded. On success the data holds
    every element of the array, in order. *)
Theorem Init_failure_keeps_data (env : Repository.Env) (input : Repository.Input)
  (tag : option Repository.Tag) (s : Repository.StreamsRepositoryData) :
  let r := Repository.Init env input tag s in
  match r.2 with
  | Returned None =>
      exists (items : list Repository.StreamWithDestinations) (d : Repository.Streams),
        Repository.elements input = inl <$> items
        /\ Repository.GetData r.1 = Some d
        /\ Repository.streams d = Repository.StreamWithDestinations_init env <$> items
        /\ Repository.Store env r.1 = (Some (Repository.streams d), Repository.Encode_err env)
  | _ => Repository.GetData r.1 = Repository.GetData s
         /\ Repository.Store env r.1 = Repository.Store env s
  end.
Proof.
  unfold Repository.Init. cbn zeta.
  destruct (Repository.openBracket input); [cbn; auto|].
  destruct (Repository.decodeAll env Repository.noStreams (Repository.elements input))
    as [data|e] eqn:Hd; [|cbn; auto].
  destruct (Repository.closeBracket input); [cbn; auto|].
  apply decodeAll_inl in Hd as (items & Hel & ->).
  destruct tag as [[t|]|]; cbn; auto.
  - exists items. eexists. split; [exact Hel|]. split; [reflexivity|]. cbn.
    rewrite addStream_streams. auto.
  - exists items. eexists. split; [exact Hel|]. split; [reflexivity|].
    rewrite addStream_streams. auto.
Qed.

(** What the loop of init appends to a slice. *)

Lemma init_body_spec (env : Repository.Env) (st : Repository.initLoop) (i : nat)
  (elem : Repository.ShortDestinationConfig) :
  let addr := Repository.addrOf (Repository.loopVar env) i in
  Repository.init_body env st i elem
  = Repository.mkInitLoop (<[addr := elem]> (Repository.vars st))
      (Repository.syncPtrs st ++ (if decide (picks env true elem) then [addr] else []))
      (Repository.asyncPtrs st ++ (if decide (picks env false elem) then [addr] else [])).
Proof.
  cbn zeta.
  destruct (decide (picks env true elem)) as [Ht|Ht];
    destruct (decide (picks env false elem)) as [Hf|Hf];
    unfold picks, Repository.usable, Repository.isDevice in Ht, Hf;
    unfold Repository.init_body; cbn zeta;
    destruct (bool_decide (Repository.Destination_Id elem = EmptyString)
              || bool_decide (Repository.DestinationType elem = EmptyString));
    destruct (bool_decide (Repository.DestinationType elem ∈ Repository.DeviceOptions env));
    cbn [negb] in *; rewrite ?app_nil_r; try reflexivity;
    try (destruct Ht; discriminate); try (destruct Hf; discriminate);
    exfalso; auto.
Qed.

(** One variable for every iteration: the pointers made so far lead below
    [i], the loop writes from [i] on. *)
Lemma init_loop_per_iteration (env : Repository.Env) (dests : list Repository.ShortDestinationConfig) :
  Repository.loopVar env = Repository.OnePerIteration ->
  forall (st : Repository.initLoop) (i : nat),
    Forall (fun a => a < i) (Repository.syncPtrs st ++ Repository.asyncPtrs st) ->
    let st' := Repository.init_loop env st i dests in
    omap (fun a => Repository.vars st' !! a) (Repository.syncPtrs st')
    = omap (fun a => Repository.vars st !! a) (Repository.syncPtrs st)
      ++ filter (picks env true) dests
    /\ omap (fun a => Repository.vars st' !! a) (Repository.asyncPtrs st')
       = omap (fun a => Repository.vars st !! a) (Repository.asyncPtrs st)
         ++ filter (picks env false) dests.
Proof.
  intros Hlv. induction dests as [|elem rest IH]; intros st i Hlt; cbn [Repository.init_loop].
  - cbn. rewrite ?filter_nil, !app_nil_r. auto.
  - apply Forall_app in Hlt as [Hs Ha].
    assert (Hkeep : forall l, Forall (fun a => a < i) l ->
              omap (fun a => <[i := elem]> (Repository.vars st) !! a) l
              = omap (fun a => Repository.vars st !! a) l).
    { intros l Hl. induction Hl as [|a l Hai Hl IHl]; [reflexivity|].
      cbn. rewrite lookup_insert_ne by lia. rewrite IHl. reflexivity. }
    specialize (IH (Repository.init_body env st i elem) (S i)).
    cbn zeta in IH |- *.
    rewrite init_body_spec in *. rewrite Hlv in *. cbn [Repository.addrOf] in *.
    cbn [Repository.vars Repository.syncPtrs Repository.asyncPtrs] in IH.
    destruct IH as [IHs IHa].
    { rewrite !Forall_app. repeat split.
      - eapply Forall_impl; eauto; cbn; lia.
      - destruct (decide _); [apply Forall_singleton; lia | constructor].
      - eapply Forall_impl; eauto; cbn; lia.
      - destruct (decide _); [apply Forall_singleton; lia | constructor]. }
    rewrite IHs, IHa, !omap_app, (Hkeep _ Hs), (Hkeep _ Ha), !filter_cons.
    split.
    + destruct (decide (picks env true elem)); cbn; rewrite ?lookup_insert_eq;
        cbn; rewrite <- ?app_assoc; reflexivity.
    + destruct (decide (picks env false elem)); cbn; rewrite ?lookup_insert_eq;
        cbn; rewrite <- ?app_assoc; reflexivity.
Qed.

(** One variable for the whole loop: every pointer is the one address, which
    holds the element of the last iteration. *)
Lemma init_loop_one_per_loop (env : Repository.Env) (dests : list Repository.ShortDestinationConfig) :
  Repository.loopVar env = Repository.OnePerLoop ->
  forall (st : Repository.initLoop) (i : nat),
    let st' := Repository.init_loop env st i dests in
    Repository.vars st' !! 0
    = match last dests with Some d => Some d | None => Repository.vars st !! 0 end
    /\ Repository.syncPtrs st'
       = Repository.syncPtrs st ++ ((fun _ => 0) <$> filter (picks env true) dests)
    /\ Repository.asyncPtrs st'
       = Repository.asyncPtrs st ++ ((fun _ => 0) <$> filter (picks env false) dests).
Proof.
  intros Hlv. induction dests as [|elem rest IH]; intros st i; cbn [Repository.init_loop].
  - cbn. rewrite ?filter_nil, !app_nil_r. auto.
  - specialize (IH (Repository.init_body env st i elem) (S i)).
    cbn zeta in IH |- *. destruct IH as (IHv & IHs & IHa).
    rewrite IHv, IHs, IHa. rewrite init_body_spec. rewrite Hlv. cbn [Repository.addrOf].
    cbn [Repository.vars Repository.syncPtrs Repository.asyncPtrs].
    rewrite !filter_cons, lookup_insert_eq. split.
    + destruct rest as [|x rest]; [reflexivity|]. rewrite last_cons_cons.
      destruct (last (x :: rest)) eqn:Hl; [reflexivity|].
      apply last_None in Hl. discriminate.
    + split.
      * destruct (decide (picks env true elem)); cbn; rewrite <- ?app_assoc; reflexivity.
      * destruct (decide (picks env false elem)); cbn; rewrite <- ?app_assoc; reflexivity.
Qed.

(** X11. init of StreamWithDestinations leaves out the destinations without
    an id or a type and sorts the others by DeviceOptions. With one loop
    variable per iteration (Go 1.22 on) the two slices hold those
    destinations, in order. With one variable for the whole loop (before Go
    1.22) every pointer of both slices leads to the last element of
    Destinations, whether or not init skipped it. *)
Theorem init_sorts_destinations (env : Repository.Env) (s : Repository.StreamWithDestinations) :
  let s' := Repository.StreamWithDestinations_init env s in
  let dests := Repository.Destinations s in
  Repository.Stream s' = Repository.Stream s
  /\ Repository.Destinations s' = dests
  /\ length (Repository.SynchronousDestinations s') = length (filter (picks env true) dests)
  /\ length (Repository.AsynchronousDestinations s') = length (filter (picks env false) dests)
  /\ match Repository.loopVar env with
     | Repository.OnePerIteration =>
         Repository.SynchronousDestinations s' = filter (picks env true) dests
         /\ Repository.AsynchronousDestinations s' = filter (picks env false) dests
     | Repository.OnePerLoop =>
         Forall (fun d => last dests = Some d)
           (Repository.SynchronousDestinations s' ++ Repository.AsynchronousDestinations s')
     end.
Proof.
  cbn zeta. unfold Repository.StreamWithDestinations_init. cbn.
  split; [reflexivity|]. split; [reflexivity|].
  destruct (Repository.loopVar env) eqn:Hlv.
  - destruct (init_loop_one_per_loop env (Repository.Destinations s) Hlv
                (Repository.mkInitLoop ∅ [] []) 0) as (Hv & Hs & Ha).
    cbn in Hv, Hs, Ha. rewrite Hs, Ha.
    assert (Hderef : forall l : list Repository.ShortDestinationConfig,
               omap (fun a => Repository.vars
                                (Repository.init_loop env (Repository.mkInitLoop ∅ [] []) 0
                                   (Repository.Destinations s)) !! a)
                 ((fun _ => 0) <$> l)
               = match last (Repository.Destinations s) with
                 | Some d => (fun _ => d) <$> l
                 | None => []
                 end).
    { intros l. induction l as [|x l IHl]; cbn [fmap list_fmap omap list_omap].
      - destruct (last _); reflexivity.
      - rewrite IHl, Hv. destruct (last _); [reflexivity|]. rewrite lookup_empty. reflexivity. }
    rewrite !Hderef.
    destruct (last (Repository.Destinations s)) as [d|] eqn:Hlast.
    + rewrite !length_fmap. split; [reflexivity|]. split; [reflexivity|].
      apply Forall_app. split; apply Forall_fmap, Forall_true; reflexivity.
    + apply last_None in Hlast. rewrite Hlast. cbn. auto.
  - destruct (init_loop_per_iteration env (Repository.Destinations s) Hlv
                (Repository.mkInitLoop ∅ [] []) 0) as (Hs & Ha); [constructor|].
    cbn in Hs, Ha. rewrite Hs, Ha. auto.
Qed.

(** ** Event times *)

Lemma track_bounds (ts : list EventTime.Time) :
  Forall (fun t => t <> 0%Z) ts ->
  ts <> [] ->
  let r := foldl EventTime.track EventTime.noTimes ts in
  EventTime.firstEventTime r ∈ ts /\ EventTime.lastEventTime r ∈ ts
  /\ Forall (fun t => (EventTime.firstEventTime r <= t <= EventTime.lastEventTime r)%Z) ts.
Proof.
  induction ts as [|e ts IH] using rev_ind; intros Hnz Hne; [contradiction|].
  apply Forall_app in Hnz as [Hnz He]. rewrite Forall_singleton in He.
  rewrite foldl_app. cbn [foldl]. cbn zeta.
  destruct ts as [|x ts'].
  - cbn. unfold EventTime.track, EventTime.IsZero. cbn.
    rewrite bool_decide_eq_true_2 by reflexivity. cbn.
    repeat split; try set_solver. apply Forall_singleton. lia.
  - specialize (IH Hnz ltac:(discriminate)). cbn zeta in IH.
    set (r := foldl EventTime.track EventTime.noTimes (x :: ts')) in *.
    destruct IH as (Hf & Hl & Hb).
    assert (Hfz : EventTime.firstEventTime r <> 0%Z).
    { rewrite Forall_forall in Hnz. apply Hnz. exact Hf. }
    assert (Hlz : EventTime.lastEventTime r <> 0%Z).
    { rewrite Forall_forall in Hnz. apply Hnz. exact Hl. }
    assert (Hfl : (EventTime.firstEventTime r <= EventTime.lastEventTime r)%Z).
    { rewrite Forall_forall in Hb. specialize (Hb _ Hf). lia. }
    clearbody r.
    unfold EventTime.track, EventTime.IsZero, EventTime.After, EventTime.Before.
    rewrite !(bool_decide_eq_false_2 (_ = 0%Z)) by assumption. cbn [orb].
    cbn [EventTime.firstEventTime EventTime.lastEventTime].
    destruct (decide (EventTime.lastEventTime r < e)%Z) as [Hlt|Hlt];
      destruct (decide (e < EventTime.firstEventTime r)%Z) as [Hgt|Hgt];
      rewrite ?(bool_decide_eq_true_2 _ Hlt), ?(bool_decide_eq_false_2 _ Hlt),
        ?(bool_decide_eq_true_2 _ Hgt), ?(bool_decide_eq_false_2 _ Hgt).
    all: split; [|split].
    all: try (apply elem_of_app; first [left; assumption | right; set_solver]).
    all: apply Forall_app; split;
      [eapply Forall_impl; [exact Hb|]; cbn; intros; lia | apply Forall_singleton; lia].
Qed.

(** X12. As long as no event carries the zero time, firstEventTime and
    lastEventTime are the earliest and the latest of the event times seen.
    The zero time is also what the fields hold before the first event: once
    an event carries it, the time of the next event becomes firstEventTime,
    whatever was seen before. *)
Theorem event_times_span_the_events (ts : list EventTime.Time) (t : EventTime.Times)
  (e : EventTime.Time) :
  (Forall (fun t => t <> 0%Z) ts ->
   ts <> [] ->
   let r := foldl EventTime.track EventTime.noTimes ts in
   EventTime.firstEventTime r ∈ ts /\ EventTime.lastEventTime r ∈ ts
   /\ Forall (fun t => (EventTime.firstEventTime r <= t <= EventTime.lastEventTime r)%Z) ts)
  /\ ((0 <= EventTime.firstEventTime t)%Z ->
      EventTime.firstEventTime (EventTime.track (EventTime.track t 0%Z) e) = e).
Proof.
  split; [apply track_bounds|].
  intros Hpos. unfold EventTime.track, EventTime.IsZero, EventTime.Before. cbn.
  destruct (decide (EventTime.firstEventTime t = 0%Z)) as [Hz|Hz].
  - rewrite (bool_decide_eq_true_2 _ Hz). cbn.
    rewrite bool_decide_eq_true_2 by reflexivity. reflexivity.
  - rewrite (bool_decide_eq_false_2 _ Hz). cbn.
    rewrite (bool_decide_eq_true_2 (0 < _)%Z) by lia.
    rewrite bool_decide_eq_true_2 by reflexivity. reflexivity.
Qed.

Lemma event_times_span_the_events_witness :
  (let r := foldl EventTime.track EventTime.noTimes [5%Z; 3%Z; 9%Z] in
   EventTime.firstEventTime r ∈ [5%Z; 3%Z; 9%Z] /\ EventTime.lastEventTime r ∈ [5%Z; 3%Z; 9%Z]
   /\ Forall (fun t => (EventTime.firstEventTime r <= t <= EventTime.lastEventTime r)%Z)
        [5%Z; 3%Z; 9%Z])
  /\ EventTime.firstEventTime
       (EventTime.track (EventTime.track (EventTime.mkTimes 5%Z 5%Z) 0%Z) 7%Z) = 7%Z.
Proof.
  destruct (event_times_span_the_events [5%Z; 3%Z; 9%Z] (EventTime.mkTimes 5%Z 5%Z) 7%Z)
    as [H1 H2].
  split.
  - apply H1; [repeat constructor; discriminate | discriminate].
  - apply H2. cbn. lia.
Defined.

(** ** More on the file-storage stream *)

(** X13. Complete on an Active file-storage stream that has no batch file
    panics in the deferred postComplete (the name of a nil file is asked
    for) and uploads nothing; a stream is in that state from its constructor
    until a Consume created the file. *)
Theorem complete_without_batch_file_panics :
  (forall (env : FileStorage.Env) (ps : FileStorage.AbstractFileStorageStream),
      Status_ (FileStorage.state ps) = Active ->
      FileStorage.batchFile ps = None ->
      FileStorage.Complete env ps = (ps, Panicked, None))
  /\ (forall (id : string) (options : StreamOptions) (ps : FileStorage.AbstractFileStorageStream),
         FileStorage.newAbstractFileStorageStream id options = inl ps ->
         Status_ (FileStorage.state ps) = Active /\ FileStorage.batchFile ps = None)
  /\ (forall (env : FileStorage.Env) (ps : FileStorage.AbstractFileStorageStream)
             (o : gmap string Value) (e : error),
         FileStorage.batchFile ps = None ->
         FileStorage.inited ps = false ->
         FileStorage.CreateTemp_err env = Some e ->
         FileStorage.batchFile (FileStorage.Consume env ps o).1 = None
         /\ Status_ (FileStorage.state (FileStorage.Consume env ps o).1)
            = Status_ (FileStorage.state ps)).
Proof.
  split; [|split].
  - intros env ps Hs Hb. unfold FileStorage.Complete.
    rewrite bool_decide_eq_false_2 by (rewrite Hs; auto).
    unfold FileStorage.Complete_body. rewrite Hb.
    destruct (LastError (FileStorage.state ps)) as [e|];
      [|destruct (bool_decide (0 < SuccessfulRows (FileStorage.state ps)))];
      unfold FileStorage.postComplete; rewrite Hb; reflexivity.
  - intros id options ps H. unfold FileStorage.newAbstractFileStorageStream in H.
    cbn zeta in H. destruct (_ && _); [discriminate|]. simplify_eq. cbn. auto.
  - intros env ps o e Hb Hi He.
    unfold FileStorage.Consume, FileStorage.Consume_body, FileStorage.init.
    rewrite Hi, Hb, He. cbn. auto.
Qed.

Lemma complete_without_batch_file_panics_witness :
  FileStorage.Complete Examples.fsEnv (Examples.fsNew noOptions)
  = (Examples.fsNew noOptions, Panicked, None).
Proof.
  destruct complete_without_batch_file_panics as (H1 & H2 & _).
  destruct (H2 "events" noOptions (Examples.fsNew noOptions)) as [Hs Hb]; [reflexivity|].
  apply (H1 Examples.fsEnv (Examples.fsNew noOptions) Hs Hb).
Defined.

Lemma fs_step_LastError (c : FileStorage.Call) (ps : FileStorage.AbstractFileStorageStream) :
  is_Some (LastError (FileStorage.state ps)) ->
  is_Some (LastError (FileStorage.state (FileStorage.step c ps).1)).
Proof.
  intros Hl. destruct c as [env o|env|]; cbn [FileStorage.step].
  - unfold FileStorage.Consume.
    pose proof (fs_Consume_body_state env ps o) as Hb.
    destruct (FileStorage.Consume_body env ps o) as [ps1 [[e|]|]]; cbn in Hb |- *;
      rewrite ?Hb; auto.
  - unfold FileStorage.Complete.
    destruct (bool_decide _); [exact Hl|].
    pose proof (fs_Complete_body_state env ps) as Hb.
    destruct (FileStorage.Complete_body env ps) as [[ps1 [[e|]|]] up]; cbn in Hb |- *;
      unfold FileStorage.postComplete;
      destruct (FileStorage.batchFile ps1); cbn; rewrite ?Hb; auto.
  - unfold FileStorage.Abort. destruct (bool_decide _); cbn; auto.
Qed.

(** X14. An error a Consume of the file-storage stream recorded stays recorded
    through every later call, and Complete on a stream with a recorded error
    uploads nothing and does not answer nil: after one failed row the stream
    can no longer deliver anything. *)
Theorem recorded_error_blocks_upload :
  (forall (calls : list FileStorage.Call) (ps : FileStorage.AbstractFileStorageStream),
      is_Some (LastError (FileStorage.state ps)) ->
      is_Some (LastError (FileStorage.state (FileStorage.run calls ps))))
  /\ (forall (env : FileStorage.Env) (ps : FileStorage.AbstractFileStorageStream)
             (o : gmap string Value) (e : error),
         (FileStorage.Consume env ps o).2 = Returned (Some e) ->
         LastError (FileStorage.state (FileStorage.Consume env ps o).1) = Some e)
  /\ (forall (env : FileStorage.Env) (ps : FileStorage.AbstractFileStorageStream),
         is_Some (LastError (FileStorage.state ps)) ->
         (FileStorage.Complete env ps).2 = None
         /\ (FileStorage.Complete env ps).1.2 <> Returned None).
Proof.
  split; [|split].
  - intros calls. induction calls as [|c calls IH]; intros ps Hl; [exact Hl|].
    cbn [FileStorage.run foldl]. apply IH. apply fs_step_LastError. exact Hl.
  - intros env ps o e H.
    pose proof (fs_Consume_counters env ps o) as Hc. cbn zeta in Hc.
    rewrite H in Hc. apply Hc.
  - intros env ps [e He]. unfold FileStorage.Complete.
    destruct (bool_decide _); [cbn; split; [reflexivity | discriminate]|].
    unfold FileStorage.Complete_body. rewrite He.
    unfold FileStorage.postComplete.
    destruct (FileStorage.batchFile ps); cbn; split; try reflexivity; discriminate.
Qed.

Lemma recorded_error_blocks_upload_witness :
  let ps := (FileStorage.Consume Examples.fsEnv (Examples.fsNew Examples.mergeById)
               Examples.noKey).1 in
  is_Some (LastError (FileStorage.state ps))
  /\ (FileStorage.Complete Examples.fsEnv
        (FileStorage.run [FileStorage.CallConsume Examples.fsEnv (Examples.row 1 "a")] ps)).2
     = None.
Proof.
  destruct recorded_error_blocks_upload as (H1 & H2 & H3).
  assert (Hl : is_Some (LastError (FileStorage.state
            (FileStorage.Consume Examples.fsEnv (Examples.fsNew Examples.mergeById)
               Examples.noKey).1))).
  { eexists. apply (H2 Examples.fsEnv (Examples.fsNew Examples.mergeById) Examples.noKey).
    vm_compute. reflexivity. }
  split; [exact Hl|].
  apply (H3 Examples.fsEnv). apply H1. exact Hl.
Defined.

Lemma keptFrom_latest (skip : gset nat) (suf pre : list (gmap string Value * string)) :
  (forall i : nat, i ∈ skip <-> supersededAt ((pre ++ suf).*2) i) ->
  keptFrom skip (length pre) (suf.*1) = latestOnly suf.
Proof.
  revert pre. induction suf as [|[o pk] rest IH]; intros pre Hskip; [reflexivity|].
  cbn [fmap list_fmap keptFrom latestOnly fst].
  assert (Hnext : keptFrom skip (S (length pre)) rest.*1 = latestOnly rest).
  { specialize (IH (pre ++ [(o, pk)])). rewrite length_app in IH. cbn in IH.
    replace (length pre + 1) with (S (length pre)) in IH by lia.
    apply IH. intros i. rewrite <- app_assoc. apply Hskip. }
  assert (Hhere : length pre ∈ skip <-> pk ∈ rest.*2).
  { rewrite Hskip. unfold supersededAt. rewrite fmap_app. cbn [fmap list_fmap snd].
    split.
    - intros (pk' & k' & Hk & Hlt & Hk').
      rewrite lookup_app_r in Hk by (rewrite length_fmap; lia).
      rewrite length_fmap, Nat.sub_diag in Hk. cbn in Hk. simplify_eq.
      rewrite lookup_app_r in Hk' by (rewrite length_fmap; lia).
      rewrite length_fmap in Hk'.
      destruct (k' - length pre) as [|j] eqn:Hj; [lia|]. cbn in Hk'.
      eapply list_elem_of_lookup_2. exact Hk'.
    - intros Hin. apply list_elem_of_lookup_1 in Hin as [j Hj].
      exists pk, (length pre + S j). split; [|split; [lia|]].
      + rewrite lookup_app_r by (rewrite length_fmap; lia).
        rewrite length_fmap, Nat.sub_diag. reflexivity.
      + rewrite lookup_app_r by (rewrite length_fmap; lia).
        rewrite length_fmap. replace (length pre + S j - length pre) with (S j) by lia.
        exact Hj. }
  destruct (decide (pk ∈ rest.*2)) as [Hin|Hin].
  - rewrite (bool_decide_eq_true_2 _ Hin).
    rewrite bool_decide_eq_true_2 by (apply Hhere; exact Hin). exact Hnext.
  - rewrite (bool_decide_eq_false_2 _ Hin).
    rewrite bool_decide_eq_false_2 by (rewrite Hhere; exact Hin).
    rewrite Hnext. reflexivity.
Qed.

Lemma fs_init_ok (env : FileStorage.Env) (ps psi : FileStorage.AbstractFileStorageStream) :
  FileStorage.init env ps = (psi, None) ->
  FileStorage.inited psi = true
  /\ (FileStorage.inited ps = true -> psi = ps)
  /\ (forall m, FileStorage.marshaller psi = Some m ->
                FileStorage.marshaller ps = Some m \/ m = JSONMarshaller).
Proof.
  unfold FileStorage.init. intros H.
  destruct (FileStorage.inited ps) eqn:Hi.
  { simplify_eq. auto. }
  destruct (FileStorage.batchFile ps).
  { simplify_eq. cbn. repeat split; auto; discriminate. }
  destruct (FileStorage.CreateTemp_err env); [discriminate|].
  destruct (NewMarshaller _ _); [|discriminate].
  destruct (_ || _); simplify_eq; cbn; repeat split; try discriminate;
    intros m0 Hm0; right; congruence.
Qed.

Lemma fs_write_keeps (env : FileStorage.Env) (ps : FileStorage.AbstractFileStorageStream)
  (po : gmap string Value) :
  let ps1 := (FileStorage.writeToBatchFile env ps po).1 in
  FileStorage.flatten ps1 = FileStorage.flatten ps
  /\ FileStorage.inited ps1 = FileStorage.inited ps
  /\ FileStorage.targetMarshaller ps1 = FileStorage.targetMarshaller ps.
Proof.
  unfold FileStorage.writeToBatchFile. cbn zeta.
  repeat case_match; simplify_eq; cbn; auto.
Qed.

(** One Consume that answers nil, on a stream in the middle of a run. *)
Lemma fs_Consume_runs (env : FileStorage.Env) (ps ps' : FileStorage.AbstractFileStorageStream)
  (o : gmap string Value) (recs : list (gmap string Value * string)) :
  fsRuns ps recs ->
  FileStorage.Consume env ps o = (ps', Returned None) ->
  exists (po : gmap string Value) (pk : string),
    FileStorage.preprocess env ps' o = inl po
    /\ FileStorage.getPKValue env ps' po = inl pk
    /\ fsRuns ps' (recs ++ [(po, pk)])
    /\ FileStorage.inited ps' = true
    /\ FileStorage.pkColumns ps' = FileStorage.pkColumns ps
    /\ (FileStorage.inited ps = true -> FileStorage.flatten ps' = FileStorage.flatten ps).
Proof.
  intros (Hinv & Hready & Hact & Herr & Hrows & Hfmt) H. unfold FileStorage.Consume in H.
  destruct (FileStorage.Consume_body env ps o) as [ps1 [[e|]|]] eqn:Hb;
    cbn in H; try discriminate.
  assert (ps' = (FileStorage.postConsume ps1 None).1) as -> by (by simplify_eq).
  clear H. unfold FileStorage.Consume_body in Hb.
  destruct (FileStorage.init env ps) as [psi [e|]] eqn:Hi; [discriminate|].
  destruct (fs_init_inv _ _ _ _ Hi Hinv) as [Hinvi Hpki].
  destruct (fs_init_ok _ _ _ Hi) as (Hinited & Hsame & Hmi).
  destruct (fs_init_keeps _ _ _ _ Hi) as (_ & _ & _ & Hst & _ & _ & _ & Hsome).
  destruct (Hsome eq_refl Hready) as (Hms & Htms & Hbfs).
  destruct (FileStorage.preprocess env psi o) as [po|e] eqn:Hpre; [|discriminate].
  destruct (FileStorage.targetMarshaller psi) as [tm|] eqn:Htm; [|discriminate].
  set (ps2 := if bool_decide (Format tm = FileFormatCSV) then _ else psi) in Hb.
  assert (H2 : fsView ps2 = fsView psi
               /\ FileStorage.pkColumns ps2 = FileStorage.pkColumns psi
               /\ FileStorage.flatten ps2 = FileStorage.flatten psi
               /\ FileStorage.inited ps2 = FileStorage.inited psi
               /\ FileStorage.targetMarshaller ps2 = FileStorage.targetMarshaller psi
               /\ FileStorage.state ps2 = FileStorage.state psi
               /\ FileStorage.marshaller ps2 = FileStorage.marshaller psi).
  { subst ps2. destruct (bool_decide _); repeat split; reflexivity. }
  destruct H2 as (Hv2 & Hpk2 & Hfl2 & Hin2 & Htm2 & Hst2 & Hm2).
  assert (Hmerge2 : FileStorage.merge ps2 = true).
  { change (v_merge (fsView ps2) = true). rewrite Hv2. exact (BatchInv_merge _ _ Hinvi). }
  destruct (fs_write_view env ps2 ps1 po Hmerge2 Hb)
    as (m & m' & hdr0 & f & g & pk & Hm & HI & Hf & Hg & Hpk & Hpk1 & Hv1).
  pose proof (fs_write_keeps env ps2 po) as Hk. rewrite Hb in Hk. cbn in Hk.
  destruct Hk as (Hfl1 & Hin1 & Htm1).
  pose proof (fs_writeToBatchFile_state env ps2 po) as Hst1. rewrite Hb in Hst1. cbn in Hst1.
  assert (Hview : fsView (FileStorage.postConsume ps1 None).1 = fsView ps1) by reflexivity.
  assert (Hm1 : FileStorage.marshaller ps1 = Some m').
  { change (v_marshaller (fsView ps1) = Some m'). rewrite Hv1. reflexivity. }
  assert (Hbf1 : FileStorage.batchFile ps1 = Some g).
  { change (v_batchFile (fsView ps1) = Some g). rewrite Hv1. reflexivity. }
  exists po, pk. split.
  { unfold FileStorage.preprocess in *. cbn. rewrite Hfl1, Hfl2. exact Hpre. }
  split.
  { rewrite <- Hpk. apply fs_getPKValue_ext. cbn. exact Hpk1. }
  split.
  { split; [|split; [|split; [|split; [|split]]]].
    - right. rewrite Hview, Hv1. rewrite <- Hv2 in Hinvi.
      exact (BatchInv_step (fsView ps2) recs m m' _ hdr0 f g po pk Hinvi Hm HI Hf Hg).
    - unfold fsReady. cbn. rewrite Hbf1, Hm1, Htm1, Htm2, Htm. split; eauto.
    - cbn. rewrite Hst1, Hst2, Hst. exact Hact.
    - cbn. rewrite Hst1, Hst2, Hst. exact Herr.
    - cbn. rewrite Hst1, Hst2, Hst, Hrows, length_app. cbn. lia.
    - cbn. rewrite Hm1. intros m0 Hm0. simplify_eq.
      destruct (Marshaller_Init_spec _ _ _ _ HI) as (Hfm & _). rewrite Hfm.
      rewrite Hm2 in Hm. destruct (Hmi _ Hm) as [Hold| ->]; [exact (Hfmt _ Hold) | reflexivity]. }
  split; [cbn; rewrite Hin1, Hin2; exact Hinited|].
  split; [cbn; rewrite Hpk1, Hpk2, Hpki; reflexivity|].
  intros Hwas. cbn. rewrite Hfl1, Hfl2, (Hsame Hwas). reflexivity.
Qed.

Lemma fs_ConsumeAll_runs (inputs : list (FileStorage.Env * gmap string Value)) :
  forall (ps ps' : FileStorage.AbstractFileStorageStream)
         (recs : list (gmap string Value * string)),
    fsRuns ps recs ->
    FileStorage.ConsumeAll inputs ps = (ps', Returned None) ->
    exists more : list (gmap string Value * string),
      Forall2 (fun inp rec => FileStorage.preprocess inp.1 ps' inp.2 = inl rec.1
                              /\ FileStorage.getPKValue inp.1 ps' rec.1 = inl rec.2)
        inputs more
      /\ fsRuns ps' (recs ++ more)
      /\ FileStorage.pkColumns ps' = FileStorage.pkColumns ps
      /\ (FileStorage.inited ps = true -> FileStorage.flatten ps' = FileStorage.flatten ps
                                          /\ FileStorage.inited ps' = true).
Proof.
  induction inputs as [|[env o] inputs IH]; intros ps ps' recs Hrun H; cbn in H.
  { simplify_eq. exists []. rewrite app_nil_r.
    split; [constructor|]. split; [exact Hrun|]. split; [reflexivity|]. auto. }
  destruct (FileStorage.Consume env ps o) as [ps1 [[e|]|]] eqn:Hc; try discriminate.
  destruct (fs_Consume_runs _ _ _ _ _ Hrun Hc) as (po & pk & Hpre & Hpk & Hrun1 & Hin1 & Hcols1 & Hfl1).
  destruct (IH _ _ _ Hrun1 H) as (more & Hall & Hrun' & Hcols' & Hfl').
  destruct (Hfl' Hin1) as [Hflat Hin'].
  exists ((po, pk) :: more). split.
  { constructor; [|exact Hall]. cbn. split.
    - unfold FileStorage.preprocess in *. rewrite Hflat. exact Hpre.
    - rewrite <- Hpk. apply fs_getPKValue_ext. exact Hcols'. }
  split; [rewrite <- app_assoc in Hrun'; exact Hrun'|].
  split; [rewrite Hcols', Hcols1; reflexivity|].
  intros Hwas. split; [rewrite Hflat; apply Hfl1; exact Hwas | exact Hin'].
Qed.

Lemma fsRuns_new (id : string) (options : StreamOptions)
  (ps : FileStorage.AbstractFileStorageStream) :
  FileStorage.newAbstractFileStorageStream id options = inl ps ->
  MergeRowsOption options = true ->
  fsRuns ps [].
Proof.
  unfold FileStorage.newAbstractFileStorageStream. cbn zeta. intros H Hm.
  destruct (_ && _); [discriminate|]. simplify_eq.
  unfold fsRuns, fsReady, BatchInv, BatchStart, fsView. cbn.
  split; [left; repeat split; auto|].
  split; [split; [discriminate | intros [? ?]; discriminate]|].
  repeat split; auto. discriminate.
Qed.

Lemma fs_flush_returned (env : FileStorage.Env)
  (ps ps1 : FileStorage.AbstractFileStorageStream) (err : option error)
  (up : option FileStorage.Upload) :
  FileStorage.flushBatchFile env ps = (ps1, Returned err, up) ->
  exists g : File, FileStorage.batchFile ps1 = Some g /\ fclosed g = true /\ fremoved g = true.
Proof.
  unfold FileStorage.flushBatchFile. intros H.
  destruct (FileStorage.flushBatchFile_body env ps) as [[ps2 out] up2].
  destruct (FileStorage.batchFile (if FileStorage.merge ps2 then _ else ps2)) as [f|];
    [|discriminate].
  simplify_eq. eexists. cbn. repeat split; reflexivity.
Qed.

(** What Complete does with a run that is under way. *)
Lemma fs_Complete_runs (env : FileStorage.Env) (ps : FileStorage.AbstractFileStorageStream)
  (recs : list (gmap string Value * string)) :
  fsRuns ps recs ->
  recs <> [] ->
  fsFlushes env ->
  Forall (fun o => (FileStorage.lineBytes env (DataLine FileFormatNDJSON o)
                    < MaxScanTokenSize)%N) (recs.*1) ->
  batchObjects (FileStorage.batchFile ps) = recs.*1
  /\ exists (ps' : FileStorage.AbstractFileStorageStream) (up : FileStorage.Upload),
       FileStorage.Complete env ps = (ps', Returned None, Some up)
       /\ Status_ (FileStorage.state ps') = Completed
       /\ (FileStorage.rewritten up = false -> latestOnly recs = recs.*1)
       /\ objectsOf (FileStorage.uploaded up) = latestOnly recs.
Proof.
  intros (Hinv & Hready & Hact & Herr & Hrows & Hfmt) Hne
    (Hfl & Hsy & Hct & Hin & Hop & Hwr & Hse & Hup & Htma) Hfit.
  destruct Hinv as [[-> _]|(f & m & hdr & Hmerge & Hf & Hm & Hmi & Hlen & Hobj & Hlines & Hev & Hspec)];
    [contradiction|].
  cbn in Hf, Hm, Hev, Hspec.
  assert (Hnd : Format m = FileFormatNDJSON) by (apply Hfmt; exact Hm).
  assert (Hoff : offOf m = 0).
  { unfold offOf, NeedHeader. rewrite Hnd. reflexivity. }
  rewrite Hoff in Hlen, Hspec. destruct hdr; [|discriminate]. cbn in Hlines.
  rewrite Hnd in Hlines.
  destruct Hready as [_ Hready]. destruct (Hready (ex_intro _ f Hf)) as [_ [tm Htm]].
  assert (Hpos : 0 < FileStorage.eventsInBatch ps).
  { rewrite Hev. destruct recs; [contradiction | cbn; lia]. }
  destruct (fs_flush_keeps_unskipped env ps m tm f (recs.*1) Hpos Hm Htm Hf Hlines Hfit
              Hfl Hsy Hct Hin Hop Hwr Hse Hup Htma) as (ps1 & up & Hflush & Hrew & Hobjs).
  assert (Hlatest : keptFrom (FileStorage.batchFileSkipLines ps) 0 recs.*1 = latestOnly recs).
  { apply (keptFrom_latest _ recs []). intros i. destruct Hspec as [_ Hskip].
    rewrite Hskip. cbn. split; [intros (k & -> & Hk); exact Hk | intros Hk; exists i; auto]. }
  split.
  { unfold batchObjects. rewrite Hf. cbn. rewrite Hlines. apply objectsOf_data. }
  destruct (fs_flush_returned _ _ _ _ _ Hflush) as (g & Hg & _).
  pose proof (fs_flushBatchFile_state env ps) as Hst. rewrite Hflush in Hst. cbn in Hst.
  unfold FileStorage.Complete.
  rewrite bool_decide_eq_false_2 by (rewrite Hact; auto).
  unfold FileStorage.Complete_body. rewrite Herr.
  rewrite bool_decide_eq_true_2 by (rewrite Hrows; destruct recs; [contradiction | cbn; lia]).
  rewrite Hf, Hflush. unfold FileStorage.postComplete. rewrite Hg.
  eexists _, _. split; [reflexivity|]. split; [reflexivity|]. split.
  - intros Hno. rewrite <- Hlatest.
    destruct (decide (FileStorage.batchFileSkipLines ps = ∅)) as [He|He].
    + rewrite He. apply keptFrom_all.
    + assert (FileStorage.rewritten up = true) by (apply Hrew; left; exact He). congruence.
  - rewrite Hobjs. exact Hlatest.
Qed.

(** X15. A merge stream of the file-storage kind that consumed its objects
    without an error and is then completed uploads, of the objects it
    staged, exactly the last one of every primary key, in the order they
    came, and ends Completed -- as long as every staged line fits the
    scanner of the flush and nothing the flush calls fails. *)
Theorem merge_stream_uploads_latest (id : string) (options : StreamOptions)
  (ps0 ps : FileStorage.AbstractFileStorageStream)
  (inputs : list (FileStorage.Env * gmap string Value)) (env : FileStorage.Env) :
  FileStorage.newAbstractFileStorageStream id options = inl ps0 ->
  MergeRowsOption options = true ->
  inputs <> [] ->
  FileStorage.ConsumeAll inputs ps0 = (ps, Returned None) ->
  fsFlushes env ->
  Forall (fun o => (FileStorage.lineBytes env (DataLine FileFormatNDJSON o)
                    < MaxScanTokenSize)%N) (batchObjects (FileStorage.batchFile ps)) ->
  exists (recs : list (gmap string Value * string))
         (ps' : FileStorage.AbstractFileStorageStream) (up : FileStorage.Upload),
    Forall2 (fun inp rec => FileStorage.preprocess inp.1 ps inp.2 = inl rec.1
                            /\ FileStorage.getPKValue inp.1 ps rec.1 = inl rec.2)
      inputs recs
    /\ batchObjects (FileStorage.batchFile ps) = recs.*1
    /\ FileStorage.Complete env ps = (ps', Returned None, Some up)
    /\ Status_ (FileStorage.state ps') = Completed
    /\ objectsOf (FileStorage.uploaded up) = latestOnly recs.
Proof.
  intros Hnew Hmerge Hne Hall Henv Hfit.
  pose proof (fsRuns_new _ _ _ Hnew Hmerge) as Hrun0.
  destruct (fs_ConsumeAll_runs inputs ps0 ps [] Hrun0 Hall) as (recs & Hrel & Hrun & _).
  cbn [app] in Hrun.
  assert (Hrecs : recs <> []).
  { intros ->. inversion Hrel; subst. contradiction. }
  assert (Hobjs : batchObjects (FileStorage.batchFile ps) = recs.*1).
  { destruct Hrun as (Hinv & _ & _ & _ & _ & Hfmt).
    destruct Hinv as [[-> _]|(f & m & hdr & _ & Hf & Hm & _ & Hlen & _ & Hlines & _)];
      [contradiction|].
    cbn in Hf, Hm. unfold batchObjects. rewrite Hf. cbn. rewrite Hlines.
    assert (Hoff : offOf m = 0).
    { unfold offOf, NeedHeader. rewrite (Hfmt _ Hm). reflexivity. }
    rewrite Hoff in Hlen. destruct hdr; [|discriminate]. cbn. apply objectsOf_data. }
  rewrite Hobjs in Hfit.
  destruct (fs_Complete_runs env ps recs Hrun Hrecs Henv Hfit)
    as (_ & ps' & up & Hc & Hs & _ & Hu).
  exists recs, ps', up. auto.
Qed.

Lemma merge_stream_uploads_latest_witness :
  let inputs := (fun o => (Examples.fsCsvEnv, o)) <$> Examples.threeRows in
  let ps := (FileStorage.ConsumeAll inputs (Examples.fsNew Examples.mergeById)).1 in
  exists (recs : list (gmap string Value * string))
         (ps' : FileStorage.AbstractFileStorageStream) (up : FileStorage.Upload),
    Forall2 (fun inp rec => FileStorage.preprocess inp.1 ps inp.2 = inl rec.1
                            /\ FileStorage.getPKValue inp.1 ps rec.1 = inl rec.2)
      inputs recs
    /\ batchObjects (FileStorage.batchFile ps) = recs.*1
    /\ FileStorage.Complete Examples.fsCsvEnv ps = (ps', Returned None, Some up)
    /\ Status_ (FileStorage.state ps') = Completed
    /\ objectsOf (FileStorage.uploaded up) = latestOnly recs.
Proof.
  cbv zeta.
  apply (merge_stream_uploads_latest "events" Examples.mergeById
           (Examples.fsNew Examples.mergeById)).
  - reflexivity.
  - reflexivity.
  - discriminate.
  - vm_compute. reflexivity.
  - repeat split; try reflexivity.
  - eapply (bool_decide_unpack _). vm_compute. exact I.
Defined.

(** ** More on the transactional stream *)

Lemma sql_rewriteLines_sound (env : Sql.Env) (conv : bool) (tm : Marshaller)
  (skip : gset nat) (objs : list (gmap string Value)) :
  forall (i : nat) (out res : list Line),
    Sql.rewriteLines env conv tm skip i (DataLine FileFormatNDJSON <$> objs) out = inl res ->
    objectsOf res = objectsOf out ++ keptFrom skip i objs.
Proof.
  induction objs as [|o objs IH]; intros i out res H; cbn in H.
  - simplify_eq. cbn. rewrite app_nil_r. reflexivity.
  - cbn [keptFrom].
    destruct (bool_decide (Sql.scannerBufferMax ≤ _)%N); [discriminate|].
    destruct (bool_decide (i ∈ skip)); [exact (IH _ _ _ H)|].
    destruct conv.
    + destruct (Sql.targetMarshal_err env o); [discriminate|].
      rewrite (IH _ _ _ H), objectsOf_app, <- app_assoc. reflexivity.
    + destruct (Sql.Write_err env); [discriminate|].
      rewrite (IH _ _ _ H), objectsOf_app, <- app_assoc. reflexivity.
Qed.

(** What a call added to the log, given as the list after the old log. *)
Ltac log_added :=
  cbn; rewrite ?logOp_log; cbn; rewrite <- ?app_assoc; cbn;
  first [ exists []; rewrite app_nil_r; split; [reflexivity|]
        | eexists; split; [reflexivity|] ].

Lemma sql_flush_body_hands_over (env : Sql.Env) (w : Sql.World)
  (ps : Sql.AbstractTransactionalSQLStream) (table : Sql.Table) (f : File)
  (objs : list (gmap string Value)) :
  Sql.batchFile ps = Some f ->
  flines f = DataLine FileFormatNDJSON <$> objs ->
  exists added : list Sql.Op,
    Sql.log (Sql.flushBatchFile_body env w ps table).1.1.1 = Sql.log w ++ added
    /\ Forall (handsOver (keptFrom (Sql.batchFileSkipLines ps) 0 objs)) added.
Proof.
  intros Hf Hl. unfold Sql.flushBatchFile_body.
  rewrite Hf. cbn [from_option]. rewrite Hl.
  destruct (bool_decide (0 < size (Sql.batchFileSkipLines ps))) eqn:Hskip.
  - repeat case_match; simplify_eq; log_added.
    all: try solve [constructor].
    all: match goal with
         | H : Sql.rewriteLines _ _ _ _ _ _ _ = inl _ |- _ =>
             apply sql_rewriteLines_sound in H
         end.
    all: match goal with
         | H : Marshaller_Init _ _ = _ |- _ =>
             apply Marshaller_Init_spec in H; destruct H as (_ & _ & Hh & _); rewrite Hh in *
         | _ => idtac
         end.
    all: repeat constructor; cbn; assumption.
  - assert (Hempty : Sql.batchFileSkipLines ps = ∅).
    { apply bool_decide_eq_false in Hskip. apply leibniz_equiv, size_empty_inv. lia. }
    repeat case_match; simplify_eq; log_added.
    all: try solve [constructor].
    all: try match goal with
         | H : Sql.rewriteLines _ _ _ _ _ _ _ = inl _ |- _ =>
             apply sql_rewriteLines_sound in H
         end.
    all: try match goal with
         | H : Marshaller_Init _ _ = _ |- _ =>
             apply Marshaller_Init_spec in H; destruct H as (_ & _ & Hh & _); rewrite Hh in *
         end.
    all: repeat constructor; cbn; try assumption.
    all: rewrite ?objectsOf_data, Hempty, keptFrom_all; reflexivity.
Qed.

Lemma sql_rewriteLines_too_long (env : Sql.Env) (conv : bool) (tm : Marshaller)
  (skip : gset nat) (objs : list (gmap string Value)) :
  forall (i : nat) (out : list Line),
    Exists (fun o => (Sql.scannerBufferMax <= Sql.lineBytes env (DataLine FileFormatNDJSON o))%N)
      objs ->
    exists e : error,
      Sql.rewriteLines env conv tm skip i (DataLine FileFormatNDJSON <$> objs) out = inr e.
Proof.
  induction objs as [|o objs IH]; intros i out Hex; [inversion Hex|].
  cbn [fmap list_fmap Sql.rewriteLines].
  destruct (decide (Sql.scannerBufferMax ≤ Sql.lineBytes env (DataLine FileFormatNDJSON o))%N)
    as [Hlong|Hshort].
  { rewrite (bool_decide_eq_true_2 _ Hlong). eauto. }
  rewrite (bool_decide_eq_false_2 _ Hshort).
  assert (Hrest : Exists (fun o => (Sql.scannerBufferMax
                                    <= Sql.lineBytes env (DataLine FileFormatNDJSON o))%N) objs).
  { inversion Hex; subst; [contradiction | assumption]. }
  destruct (bool_decide (i ∈ skip)); [apply IH; exact Hrest|].
  destruct conv; cbn.
  - destruct (Sql.targetMarshal_err env o); [eauto | apply IH; exact Hrest].
  - destruct (Sql.Write_err env); [eauto | apply IH; exact Hrest].
Qed.

Lemma sql_flush_body_too_long (env : Sql.Env) (w : Sql.World)
  (ps : Sql.AbstractTransactionalSQLStream) (table : Sql.Table) (f : File)
  (m tm : Marshaller) (objs : list (gmap string Value)) :
  Sql.batchFile ps = Some f ->
  flines f = DataLine FileFormatNDJSON <$> objs ->
  Sql.marshaller ps = Some m ->
  Sql.targetMarshaller ps = Some tm ->
  Sql.batchFileSkipLines ps <> ∅ \/ Marshaller_Equal tm m = false ->
  Exists (fun o => (Sql.scannerBufferMax <= Sql.lineBytes env (DataLine FileFormatNDJSON o))%N)
    objs ->
  0 < Sql.eventsInBatch ps ->
  let r := Sql.flushBatchFile_body env w ps table in
  r.1.1.1 = w /\ r.1.2 <> Returned None.
Proof.
  intros Hf Hl Hm Htm Hrw Hex Hev. unfold Sql.flushBatchFile_body.
  rewrite (bool_decide_eq_true_2 _ Hev), Hm, Htm, Hf. cbn [from_option]. rewrite Hl.
  assert (Hcond : bool_decide (0 < size (Sql.batchFileSkipLines ps))
                  || negb (Marshaller_Equal tm m) = true).
  { destruct Hrw as [Hne| ->]; [|apply orb_true_r].
    rewrite bool_decide_eq_true_2; [reflexivity|].
    destruct (decide (size (Sql.batchFileSkipLines ps) = 0)) as [Hz|Hz]; [|lia].
    apply size_empty_inv in Hz. exfalso. apply Hne. apply leibniz_equiv. exact Hz. }
  cbn zeta. rewrite Hcond.
  destruct (Sql.Flush_err env); [cbn; split; [reflexivity|discriminate]|].
  destruct (syncFile _ _); [cbn; split; [reflexivity|discriminate]|].
  destruct (Sql.CreateTemp_err env); [cbn; split; [reflexivity|discriminate]|].
  match goal with
  | |- context [match ?x with inl _ => _ | inr _ => _ end] => destruct x as [[tm1 hdr]|e]
  end; [|cbn; split; [reflexivity|discriminate]].
  destruct (Sql.Open_err env); [cbn; split; [reflexivity|discriminate]|].
  match goal with
  | |- context [Sql.rewriteLines ?a ?b ?c ?d ?e ?f ?g] =>
      destruct (sql_rewriteLines_too_long a b c d objs e g Hex) as [err Herr]
  end.
  rewrite Herr. cbn. split; [reflexivity|discriminate].
Qed.

(** X16. Whatever fails, the flush of the transactional stream hands the
    warehouse (LoadTable) and S3 (Upload) only files that hold every object of
    the batch file that is not in skipLines, in order. When the file is
    rewritten and a line does not fit the scanner's buffer of 10 MiB, the
    flush does not answer nil and loads nothing: the line is not lost
    silently. *)
Theorem sql_flush_hands_over_what_it_kept :
  (forall (env : Sql.Env) (w : Sql.World) (ps : Sql.AbstractTransactionalSQLStream)
          (f : File) (objs : list (gmap string Value)),
      Sql.batchFile ps = Some f ->
      flines f = DataLine FileFormatNDJSON <$> objs ->
      exists added : list Sql.Op,
        Sql.log (Sql.flushBatchFile env w ps).1.1.1 = Sql.log w ++ added
        /\ Forall (handsOver (keptFrom (Sql.batchFileSkipLines ps) 0 objs)) added)
  /\ (forall (env : Sql.Env) (w : Sql.World) (ps : Sql.AbstractTransactionalSQLStream)
             (f : File) (m tm : Marshaller) (objs : list (gmap string Value)),
         Sql.batchFile ps = Some f ->
         flines f = DataLine FileFormatNDJSON <$> objs ->
         Sql.marshaller ps = Some m ->
         Sql.targetMarshaller ps = Some tm ->
         Sql.batchFileSkipLines ps <> ∅ \/ Marshaller_Equal tm m = false ->
         Exists (fun o => (Sql.scannerBufferMax
                           <= Sql.lineBytes env (DataLine FileFormatNDJSON o))%N) objs ->
         0 < Sql.eventsInBatch ps ->
         let r := Sql.flushBatchFile env w ps in
         r.1.2 <> Returned None
         /\ exists added : list Sql.Op,
              Sql.log r.1.1.1 = Sql.log w ++ added
              /\ Forall (fun op => exists t, op = Sql.OpCreateTable t) added).
Proof.
  split.
  - intros env w ps f objs Hf Hl. unfold Sql.flushBatchFile.
    destruct (Sql.tmpTable ps) as [table|]; [|log_added; constructor].
    destruct (Sql.txPanics env ps); [log_added; constructor|].
    destruct (Sql.CreateTable_err env); [log_added; repeat constructor|].
    destruct (sql_flush_body_hands_over env (Sql.logOp (Sql.OpCreateTable table) w) ps table
                f objs Hf Hl) as (added & Hlog & Hall).
    rewrite logOp_log, <- app_assoc in Hlog.
    destruct (Sql.flushBatchFile_body env _ ps table) as [[[w1 ps1] out] rw].
    cbn [fst] in Hlog.
    exists (Sql.OpCreateTable table :: added). split.
    + match goal with
      | |- context [match ?x with Some _ => _ | None => _ end] => destruct x
      end; cbn [fst]; exact Hlog.
    + constructor; [exact I | exact Hall].
  - intros env w ps f m tm objs Hf Hl Hm Htm Hrw Hex Hev. cbn zeta.
    unfold Sql.flushBatchFile.
    destruct (Sql.tmpTable ps) as [table|];
      [|cbn; split; [discriminate | exists []; rewrite app_nil_r; auto]].
    destruct (Sql.txPanics env ps);
      [cbn; split; [discriminate | exists []; rewrite app_nil_r; auto]|].
    destruct (Sql.CreateTable_err env).
    { cbn [fst snd]. split; [discriminate|]. rewrite logOp_log. eexists.
      split; [reflexivity|]. repeat constructor. eauto. }
    destruct (sql_flush_body_too_long env (Sql.logOp (Sql.OpCreateTable table) w) ps table
                f m tm objs Hf Hl Hm Htm Hrw Hex Hev) as [Hw Hout].
    destruct (Sql.flushBatchFile_body env _ ps table) as [[[w1 ps1] out] rw].
    cbn in Hw, Hout. subst w1.
    match goal with
    | |- context [match ?x with Some _ => _ | None => _ end] => destruct x
    end; cbn [fst snd]; (split; [first [exact Hout | discriminate]|]);
      rewrite logOp_log; eexists; (split; [reflexivity|]); repeat constructor; eauto.
Qed.

Lemma sql_flush_hands_over_what_it_kept_witness :
  let r := Sql.Consume Examples.csvStaged Examples.managed (Examples.txNew Examples.staged)
             (Examples.row 1 "a") in
  (exists added : list Sql.Op,
      Sql.log (Sql.flushBatchFile Examples.csvStaged r.1.1 r.1.2).1.1.1
      = Sql.log r.1.1 ++ added
      /\ Forall (handsOver (keptFrom (Sql.batchFileSkipLines r.1.2) 0 [Examples.row 1 "a"]))
           added)
  /\ (Sql.flushBatchFile Scenarios.tenMiBLines r.1.1 r.1.2).1.2 <> Returned None.
Proof.
  cbv zeta. destruct sql_flush_hands_over_what_it_kept as [H1 H2]. split.
  - apply (H1 Examples.csvStaged _ _
             (default (mkFile EmptyString [] false false)
                (Sql.batchFile
                   (Sql.Consume Examples.csvStaged Examples.managed
                      (Examples.txNew Examples.staged) (Examples.row 1 "a")).1.2))).
    + vm_compute. reflexivity.
    + vm_compute. reflexivity.
  - refine (proj1 (H2 Scenarios.tenMiBLines _ _
             (default (mkFile EmptyString [] false false)
                (Sql.batchFile
                   (Sql.Consume Examples.csvStaged Examples.managed
                      (Examples.txNew Examples.staged) (Examples.row 1 "a")).1.2))
             (mkMarshaller FileFormatNDJSON FileCompressionNONE true)
             (mkMarshaller FileFormatCSV FileCompressionNONE false)
             [Examples.row 1 "a"] _ _ _ _ _ _ _)).
    + vm_compute. reflexivity.
    + vm_compute. reflexivity.
    + vm_compute. reflexivity.
    + vm_compute. reflexivity.
    + right. vm_compute. reflexivity.
    + constructor. vm_compute. discriminate.
    + vm_compute. lia.
Defined.

(** Membership in a list that is written out. *)
Ltac in_listed :=
  repeat match goal with
         | H : _ ∈ _ :: _ |- _ =>
             apply elem_of_cons in H; destruct H as [H|H]; [try discriminate|]
         | H : _ ∈ [] |- _ => apply elem_of_nil in H; contradiction
         end.

(** X17. In the flush of the transactional stream, a file that was uploaded to
    S3 is deleted from S3 before the flush is left, also when LoadTable fails
    or the call through the transaction panics: after an upload that
    succeeded the last call of the flush is DeleteObject on the name that was
    uploaded. An upload that failed is the last call. *)
Theorem s3_upload_is_deleted (env : Sql.Env) (w : Sql.World)
  (ps : Sql.AbstractTransactionalSQLStream) :
  exists added : list Sql.Op,
    Sql.log (Sql.flushBatchFile env w ps).1.1.1 = Sql.log w ++ added
    /\ forall (name : string) (lines : list Line),
         Sql.OpS3Upload name lines ∈ added ->
         last added = Some (match Sql.S3Upload_err env with
                            | None => Sql.OpS3DeleteObject name
                            | Some _ => Sql.OpS3Upload name lines
                            end).
Proof.
  unfold Sql.flushBatchFile, Sql.flushBatchFile_body.
  repeat case_match; simplify_eq; log_added.
  all: try (intros name lines Hin; apply elem_of_nil in Hin; contradiction).
  all: intros name lines Hin; in_listed; simplify_eq; reflexivity.
Qed.

Lemma s3_upload_is_deleted_witness :
  let r := Sql.Consume Examples.sqlEnv Examples.managed (Examples.txNew Scenarios.viaS3)
             (Examples.row 1 "a") in
  exists (added : list Sql.Op) (name : string) (lines : list Line),
    Sql.log (Sql.flushBatchFile Examples.sqlEnv r.1.1 r.1.2).1.1.1 = Sql.log r.1.1 ++ added
    /\ Sql.OpS3Upload name lines ∈ added
    /\ last added = Some (Sql.OpS3DeleteObject name).
Proof.
  cbv zeta.
  destruct (s3_upload_is_deleted Examples.sqlEnv
              (Sql.Consume Examples.sqlEnv Examples.managed (Examples.txNew Scenarios.viaS3)
                 (Examples.row 1 "a")).1.1
              (Sql.Consume Examples.sqlEnv Examples.managed (Examples.txNew Scenarios.viaS3)
                 (Examples.row 1 "a")).1.2) as (added & Hlog & Hlast).
  pose proof Hlog as Hl. vm_compute in Hl.
  injection Hl as Hl. subst added.
  eexists _, "workingFile", _. split; [exact Hlog|]. split.
  - rewrite elem_of_cons. right. rewrite elem_of_cons. left. reflexivity.
  - reflexivity.
Defined.

(** X18. Complete of a ReplacePartition stream that recorded an error during
    its Consume calls answers that error and leaves the warehouse alone: it
    does not look at the destination table, deletes nothing of the partition,
    loads and copies nothing and does not commit; all it sends is the
    roll-back (and the drop of the temporary table). The rows of the
    partition that were there before stay. *)
Theorem replace_partition_error_keeps_partition (env : Sql.Env) (w : Sql.World)
  (rp : Sql.ReplacePartitionStream) (e : error) :
  Status_ (Sql.state (Sql.abs (Sql.base rp))) = Active ->
  LastError (Sql.state (Sql.abs (Sql.base rp))) = Some e ->
  Sql.txPanics env (Sql.base rp) = false ->
  let r := Sql.ReplacePartition_Complete env w rp in
  r.2 = Returned (Some e)
  /\ Sql.destination r.1.1 = Sql.destination w
  /\ exists added : list Sql.Op,
       Sql.log r.1.1 = Sql.log w ++ Sql.OpRollback :: added
       /\ Forall (fun op => op = Sql.OpRollback \/ exists t, op = Sql.OpDrop t) added.
Proof.
  intros Hact Herr Htx. cbn zeta. unfold Sql.ReplacePartition_Complete.
  rewrite bool_decide_eq_false_2 by (rewrite Hact; auto).
  unfold Sql.ReplacePartition_Complete_body. rewrite Herr.
  unfold Sql.ReplacePartition_Complete_deferred.
  assert (Htx' : Sql.txPanics env
                   (Sql.set_state (set_SuccessfulRows 0 (Sql.state (Sql.abs (Sql.base rp))))
                      (Sql.base rp)) = false) by exact Htx.
  rewrite Htx'. unfold Sql.postComplete, Sql.AbstractSQLStream_postComplete.
  cbn. destruct (Sql.tx (Sql.base rp)); [destruct (Sql.tmpTable (Sql.base rp))|]; cbn.
  all: split; [reflexivity|]. all: split; [reflexivity|].
  all: rewrite <- ?app_assoc; cbn; eexists; (split; [reflexivity|]).
  all: repeat (apply Forall_cons; split; [first [left; reflexivity | right; eauto]|]).
  all: constructor.
Qed.

Lemma replace_partition_error_keeps_partition_witness :
  let failed := Sql.ReplacePartition_Consume Scenarios.insertFails Examples.managed
                  (Examples.rpNew Scenarios.direct) (Examples.row 1 "a") in
  let r := Sql.ReplacePartition_Complete Examples.sqlEnv failed.1.1 failed.1.2 in
  r.2 = Returned (Some "insert failed")
  /\ Sql.destination r.1.1 = Sql.destination failed.1.1
  /\ exists added : list Sql.Op,
       Sql.log r.1.1 = Sql.log failed.1.1 ++ Sql.OpRollback :: added
       /\ Forall (fun op => op = Sql.OpRollback \/ exists t, op = Sql.OpDrop t) added.
Proof.
  cbv zeta.
  apply (replace_partition_error_keeps_partition Examples.sqlEnv); vm_compute; reflexivity.
Defined.

Lemma sql_postComplete_closes (env : Sql.Env) (w : Sql.World)
  (ps : Sql.AbstractTransactionalSQLStream) (err : option error) (f : File) :
  Sql.batchFile (Sql.postComplete env w ps err).1.2 = Some f ->
  fclosed f = true /\ fremoved f = true.
Proof.
  unfold Sql.postComplete, Sql.AbstractSQLStream_postComplete.
  repeat case_match; simplify_eq; cbn; destruct (Sql.batchFile ps); cbn;
    intros H; simplify_eq; auto.
Qed.

(** X19. A call that takes a stream out of the Active status leaves no batch
    file behind: after Complete or Abort of the file-storage stream, and
    after Complete or Abort of a ReplacePartition stream, the batch file --
    when the stream has one -- is closed and removed, whatever the call
    answered. *)
Theorem leaving_active_removes_the_batch_file :
  (forall (c : FileStorage.Call) (ps : FileStorage.AbstractFileStorageStream) (f : File),
      Status_ (FileStorage.state ps) = Active ->
      Status_ (FileStorage.state (FileStorage.step c ps).1) <> Active ->
      FileStorage.batchFile (FileStorage.step c ps).1 = Some f ->
      fclosed f = true /\ fremoved f = true)
  /\ (forall (c : Sql.Call) (w : Sql.World) (rp : Sql.ReplacePartitionStream) (f : File),
         Status_ (Sql.state (Sql.abs (Sql.base rp))) = Active ->
         Status_ (Sql.state (Sql.abs (Sql.base (Sql.step c w rp).1.2))) <> Active ->
         Sql.batchFile (Sql.base (Sql.step c w rp).1.2) = Some f ->
         fclosed f = true /\ fremoved f = true).
Proof.
  split.
  - intros [env o|env|] ps f Hact Hleft Hf; cbn [FileStorage.step] in *.
    + exfalso. apply Hleft.
      pose proof (fs_Consume_counters env ps o) as (_ & Hs & _). rewrite Hs. exact Hact.
    + unfold FileStorage.Complete in *.
      rewrite bool_decide_eq_false_2 in * by (rewrite Hact; auto).
      pose proof (fs_Complete_body_state env ps) as Hst.
      destruct (FileStorage.Complete_body env ps) as [[ps1 out] up]. cbn in Hst.
      unfold FileStorage.postComplete in *.
      destruct (FileStorage.batchFile ps1) as [g|] eqn:Hg.
      * destruct out as [[e|]|]; cbn in Hf; simplify_eq; auto.
      * exfalso. apply Hleft. destruct out as [[e|]|]; cbn; rewrite Hst; exact Hact.
    + unfold FileStorage.Abort in *.
      rewrite bool_decide_eq_false_2 in * by (rewrite Hact; auto).
      cbn in Hf. destruct (FileStorage.batchFile ps); cbn in Hf; simplify_eq. auto.
  - intros [env o|env|] w rp f Hact Hleft Hf; cbn [Sql.step] in *.
    + exfalso. apply Hleft. rewrite sql_Consume_status. exact Hact.
    + unfold Sql.ReplacePartition_Complete in *.
      rewrite bool_decide_eq_false_2 in * by (rewrite Hact; auto).
      pose proof (sql_Complete_body_state env w rp) as Hst.
      destruct (Sql.ReplacePartition_Complete_body env w rp) as [[w1 ps1] out]. cbn in Hst.
      unfold Sql.ReplacePartition_Complete_deferred in *.
      destruct out as [[e|]|].
      * destruct (Sql.txPanics env _) eqn:Htx.
        { exfalso. apply Hleft. cbn. rewrite Hst. exact Hact. }
        match type of Hf with
        | context [Sql.postComplete ?a ?b ?c ?d] =>
            pose proof (sql_postComplete_closes a b c d f) as Hc;
            destruct (Sql.postComplete a b c d) as [[w2 ps2] err2]
        end.
        cbn in Hf, Hc. auto.
      * match type of Hf with
        | context [Sql.postComplete ?a ?b ?c ?d] =>
            pose proof (sql_postComplete_closes a b c d f) as Hc;
            destruct (Sql.postComplete a b c d) as [[w2 ps2] err2]
        end.
        cbn in Hf, Hc. auto.
      * match type of Hf with
        | context [Sql.postComplete ?a ?b ?c ?d] =>
            pose proof (sql_postComplete_closes a b c d f) as Hc;
            destruct (Sql.postComplete a b c d) as [[w2 ps2] err2]
        end.
        cbn in Hf, Hc. auto.
    + unfold Sql.Abort in *.
      rewrite bool_decide_eq_false_2 in * by (rewrite Hact; auto).
      cbn in Hf. destruct (Sql.batchFile (Sql.base rp)); cbn in Hf; simplify_eq. auto.
Qed.

Lemma leaving_active_removes_the_batch_file_witness :
  (exists f : File,
      FileStorage.batchFile (FileStorage.step (FileStorage.CallComplete Examples.fsEnv)
                               Examples.fsOnce).1 = Some f
      /\ fclosed f = true /\ fremoved f = true)
  /\ (exists f : File,
         Sql.batchFile (Sql.base (Sql.step Sql.CallAbort Examples.rpOnce.1 Examples.rpOnce.2).1.2)
         = Some f
         /\ fclosed f = true /\ fremoved f = true).
Proof.
  destruct leaving_active_removes_the_batch_file as [Hfs Hsql]. split.
  - eexists. split; [vm_compute; reflexivity|].
    apply (Hfs (FileStorage.CallComplete Examples.fsEnv) Examples.fsOnce).
    + vm_compute. reflexivity.
    + vm_compute. discriminate.
    + vm_compute. reflexivity.
  - eexists. split; [vm_compute; reflexivity|].
    apply (Hsql Sql.CallAbort Examples.rpOnce.1 Examples.rpOnce.2).
    + vm_compute. reflexivity.
    + vm_compute. discriminate.
    + vm_compute. reflexivity.
Defined.

(** X20. init of the file-storage stream runs once: after an init that
    answered nil every later init answers nil and changes nothing, whatever
    the environment then is. The batch file it creates is named after the
    sanitized stream id, so the pattern handed to CreateTemp holds letters,
    digits and underscores only; and the stream flattens its objects from
    then on exactly when the file adapter's format is CSV or flat NDJSON. *)
Theorem init_runs_once (env env' : FileStorage.Env)
  (ps psi : FileStorage.AbstractFileStorageStream) :
  FileStorage.init env ps = (psi, None) ->
  FileStorage.init env' psi = (psi, None)
  /\ (FileStorage.inited ps = false ->
      FileStorage.batchFile ps = None ->
      exists f : File,
        FileStorage.batchFile psi = Some f
        /\ fname f = "bulker_" +:+ SanitizeString (FileStorage.id ps)
        /\ Utils.IsAlphanumeric (fname f) = true
        /\ flines f = [] /\ fclosed f = false
        /\ FileStorage.marshaller psi = Some JSONMarshaller
        /\ FileStorage.flatten psi
           = FileStorage.flatten ps
             || bool_decide (FileStorage.fileAdapter_Format env = FileFormatCSV)
             || bool_decide (FileStorage.fileAdapter_Format env = FileFormatNDJSONFLAT)).
Proof.
  intros Hi. destruct (fs_init_ok _ _ _ Hi) as (Hin & _ & _). split.
  - unfold FileStorage.init. rewrite Hin. reflexivity.
  - intros Hno Hbf. unfold FileStorage.init in Hi. rewrite Hno, Hbf in Hi.
    destruct (FileStorage.CreateTemp_err env); [discriminate|].
    destruct (NewMarshaller _ _) as [tm|e]; [|discriminate].
    assert (Hal : Utils.IsAlphanumeric ("bulker_" +:+ SanitizeString (FileStorage.id ps)) = true).
    { rewrite IsAlphanumeric_app. apply andb_true_intro. split;
        [reflexivity | apply sanitizeFrom_alphanumeric]. }
    eexists.
    destruct (bool_decide (FileStorage.fileAdapter_Format env = FileFormatCSV));
      destruct (bool_decide (FileStorage.fileAdapter_Format env = FileFormatNDJSONFLAT));
      cbn in Hi; simplify_eq; cbn; rewrite ?orb_true_r, ?orb_false_r;
      repeat split; try reflexivity; exact Hal.
Qed.

Lemma init_runs_once_witness :
  let psi := (FileStorage.init Examples.fsCsvEnv (Examples.fsNew noOptions)).1 in
  FileStorage.init Examples.fsEnv psi = (psi, None)
  /\ exists f : File,
       FileStorage.batchFile psi = Some f
       /\ fname f = "bulker_events"
       /\ FileStorage.flatten psi = true.
Proof.
  cbv zeta.
  destruct (init_runs_once Examples.fsCsvEnv Examples.fsEnv (Examples.fsNew noOptions)
              (FileStorage.init Examples.fsCsvEnv (Examples.fsNew noOptions)).1)
    as [H1 H2]; [vm_compute; reflexivity|].
  split; [exact H1|].
  destruct H2 as (f & Hf & Hn & _ & _ & _ & _ & Hfl); [reflexivity | reflexivity |].
  exists f. split; [exact Hf|]. split; [rewrite Hn; reflexivity | rewrite Hfl; reflexivity].
Defined.

(** ** The ingress manager *)

(** Goals [is_Some err <-> status = error] on results that are written out. *)
Ltac status_iff :=
  cbn; split;
  [ intros [? ?]; first [reflexivity | discriminate]
  | first [ intros _; eexists; reflexivity | discriminate ] ].

Lemma CheckCertificate_error (env : Ingress.Env) (k : Ingress.Cluster) (domain : string) :
  let r := Ingress.CheckCertificate env k domain in
  (is_Some r.2.2 <-> r.2.1 = Ingress.CertificateStatusError)
  /\ Ingress.ingresses r.1 = Ingress.ingresses k
  /\ Ingress.secrets r.1 = Ingress.secrets k
  /\ (r.2.1 = Ingress.CertificateStatusOK <->
      exists expiry, Ingress.Dial env (domain +:+ ":443") = Ingress.Connected None expiry
                     /\ (Ingress.Now env <= expiry)%Z).
Proof.
  unfold Ingress.CheckCertificate. cbn zeta.
  destruct (Ingress.Dial env (domain +:+ ":443")) as [e|[e|] expiry].
  1,2: split; [status_iff|]; cbn; repeat split; try discriminate;
       intros (? & ? & _); discriminate.
  destruct (decide (expiry < Ingress.Now env)%Z) as [Hx|Hx].
  - rewrite (bool_decide_eq_true_2 _ Hx). split; [status_iff|]. cbn.
    repeat split; try discriminate. intros (x & Hc & Hle). simplify_eq. lia.
  - rewrite (bool_decide_eq_false_2 _ Hx). split; [status_iff|]. cbn.
    repeat split; try discriminate. intros _. exists expiry. split; [reflexivity | lia].
Qed.

(** X21. AddDomain answers an error exactly with the status error (CheckCertificate
    likewise), and it panics only on an ingress that has, before any entry of
    the domain, a TLS entry without hosts. *)
Theorem AddDomain_error_iff_status_error (env : Ingress.Env) (cfg : Ingress.Config)
  (k : Ingress.Cluster) (domain : string) :
  match (Ingress.AddDomain env cfg k domain).2 with
  | Some (status, err) => is_Some err <-> status = Ingress.DomainStatusError
  | None =>
      exists ingress : Ingress.IngressObject,
        Ingress.ingresses k !! Ingress.IngressName cfg = Some ingress
        /\ Ingress.domainInIngress (Ingress.TLS ingress) domain = None
  end
  /\ (is_Some (Ingress.CheckCertificate env k domain).2.2
      <-> (Ingress.CheckCertificate env k domain).2.1 = Ingress.CertificateStatusError).
Proof.
  split; [|apply CheckCertificate_error].
  unfold Ingress.AddDomain, Ingress.get. cbn zeta.
  destruct (Ingress.LookupIP env domain) as [ips|e]; [|status_iff].
  destruct (negb _); [status_iff|].
  destruct (Ingress.GetIngress_fault env) as [[e|]|]; try status_iff.
  cbn [Ingress.logCall Ingress.ingresses].
  destruct (Ingress.ingresses k !! Ingress.IngressName cfg) as [ingress|] eqn:Hing;
    [|status_iff].
  destruct (Ingress.domainInIngress (Ingress.TLS ingress) domain) as [exists_|] eqn:Hdom;
    [|cbn; eauto].
  unfold Ingress.create.
  destruct exists_; cbn [negb orb].
  - repeat case_match; cbn in *; simplify_eq; try status_iff.
    all: match goal with
         | H : Ingress.CheckCertificate ?a ?b ?c = _ |- _ =>
             pose proof (CheckCertificate_error a b c) as (Hc & _); rewrite H in Hc; cbn in Hc
         end.
    all: cbn; split; [intros _; reflexivity | intros _; apply Hc; reflexivity].
  - destruct (Ingress.patchOf (Ingress.TLS ingress) domain) as [path value].
    repeat case_match; cbn in *; simplify_eq; status_iff.
Qed.

(** X22. AddDomain touches the cluster only for a domain that resolves to the
    static address and to nothing else: when the look-up fails or answers
    any other list of addresses, it answers dns_error without an error and
    makes no call to the cluster; and it answers dns_error in no other
    case. *)
Theorem AddDomain_checks_dns_first (env : Ingress.Env) (cfg : Ingress.Config)
  (k : Ingress.Cluster) (domain : string) :
  (Ingress.LookupIP env domain <> inl [Ingress.StaticIPAddress cfg] ->
   Ingress.AddDomain env cfg k domain
   = (Ingress.logCall (Ingress.CallLookupIP domain) k, Some (Ingress.DomainStatusCNAME, None)))
  /\ (Ingress.LookupIP env domain = inl [Ingress.StaticIPAddress cfg] ->
      forall err, (Ingress.AddDomain env cfg k domain).2
                  <> Some (Ingress.DomainStatusCNAME, err)).
Proof.
  unfold Ingress.AddDomain. cbn zeta. split.
  - intros Hdns. destruct (Ingress.LookupIP env domain) as [ips|e]; [|reflexivity].
    rewrite bool_decide_eq_false_2 by congruence. reflexivity.
  - intros Hdns err. rewrite Hdns. rewrite bool_decide_eq_true_2 by reflexivity.
    cbn [negb]. unfold Ingress.get, Ingress.create, Ingress.CheckCertificate.
    repeat (case_match; cbn [fst snd]; try discriminate).
Qed.

Lemma AddDomain_checks_dns_first_witness :
  Ingress.AddDomain Scenarios.otherAddress Scenarios.ingressConfig Scenarios.emptyCluster
    "shop.example.com"
  = (Ingress.logCall (Ingress.CallLookupIP "shop.example.com") Scenarios.emptyCluster,
     Some (Ingress.DomainStatusCNAME, None))
  /\ (Ingress.AddDomain Scenarios.resolves Scenarios.ingressConfig Scenarios.emptyCluster
        "shop.example.com").2
     <> Some (Ingress.DomainStatusCNAME, None).
Proof.
  split.
  - apply (AddDomain_checks_dns_first Scenarios.otherAddress Scenarios.ingressConfig
             Scenarios.emptyCluster "shop.example.com").
    vm_compute. discriminate.
  - apply (AddDomain_checks_dns_first Scenarios.resolves Scenarios.ingressConfig
             Scenarios.emptyCluster "shop.example.com").
    vm_compute. reflexivity.
Defined.

Lemma domainInIngress_added (tls : list Ingress.IngressTLS) (domain secret : string) :
  Ingress.domainInIngress tls domain = Some false ->
  Ingress.domainInIngress (tls ++ [Ingress.mkTLS [domain] secret]) domain = Some true.
Proof.
  induction tls as [|t tls IH]; cbn; intros H.
  - rewrite bool_decide_eq_true_2 by reflexivity. reflexivity.
  - destruct (Ingress.Hosts t) as [|host hosts]; [discriminate|].
    destruct (bool_decide (host = domain)); [discriminate | exact (IH H)].
Qed.

Lemma patch_adds_domain (ingress : Ingress.IngressObject) (domain : string) :
  Ingress.domainInIngress (Ingress.TLS ingress) domain = Some false ->
  let '(path, value) := Ingress.patchOf (Ingress.TLS ingress) domain in
  Ingress.domainInIngress (Ingress.TLS (Ingress.applyPatch path value ingress)) domain
  = Some true.
Proof.
  intros H. unfold Ingress.patchOf, Ingress.applyPatch.
  destruct (decide (length (Ingress.TLS ingress) = 0)) as [Hz|Hz].
  - rewrite (bool_decide_eq_true_2 _ Hz). cbn.
    rewrite ?(bool_decide_eq_true_2 ("/spec/tls" = "/spec/tls")) by reflexivity. cbn.
    rewrite bool_decide_eq_true_2 by reflexivity. reflexivity.
  - rewrite (bool_decide_eq_false_2 _ Hz). cbn.
    rewrite ?(bool_decide_eq_false_2 ("/spec/tls/-" = "/spec/tls")) by discriminate.
    apply domainInIngress_added. exact H.
Qed.

(** What AddDomain leaves when it answers without an error and not with
    dns_error. *)
Lemma AddDomain_serves (env : Ingress.Env) (cfg : Ingress.Config)
  (k k' : Ingress.Cluster) (domain : string) (status : Ingress.DomainStatus) :
  Ingress.AddDomain env cfg k domain = (k', Some (status, None)) ->
  status <> Ingress.DomainStatusCNAME ->
  (exists ingress : Ingress.IngressObject,
      Ingress.ingresses k' !! Ingress.IngressName cfg = Some ingress
      /\ Ingress.domainInIngress (Ingress.TLS ingress) domain = Some true)
  /\ is_Some (Ingress.secrets k' !! domain)
  /\ (status = Ingress.DomainStatusOK ->
      Ingress.ingresses k' = Ingress.ingresses k /\ Ingress.secrets k' = Ingress.secrets k
      /\ exists expiry,
           Ingress.Dial env (domain +:+ ":443") = Ingress.Connected None expiry
           /\ (Ingress.Now env <= expiry)%Z).
Proof.
  unfold Ingress.AddDomain. cbn zeta. intros H Hst.
  destruct (Ingress.LookupIP env domain) as [ips|e]; [|simplify_eq; contradiction].
  destruct (negb _); [simplify_eq; contradiction|].
  unfold Ingress.get in H.
  destruct (Ingress.GetIngress_fault env) as [[e|]|]; try discriminate.
  cbn [Ingress.logCall Ingress.ingresses] in H.
  destruct (Ingress.ingresses k !! Ingress.IngressName cfg) as [ingress|] eqn:Hing;
    [|discriminate].
  destruct (Ingress.domainInIngress (Ingress.TLS ingress) domain) as [exists_|] eqn:Hdom;
    [|discriminate].
  pose proof (patch_adds_domain ingress domain) as Hpatch.
  unfold Ingress.create in H.
  destruct exists_; cbn [negb orb] in H.
  - repeat case_match; cbn in *; simplify_eq.
    all: try match goal with
         | H : Ingress.CheckCertificate ?a ?b ?c = _ |- _ =>
             pose proof (CheckCertificate_error a b c) as (_ & Hi & Hs & Hok);
             rewrite H in Hi, Hs, Hok; cbn in Hi, Hs, Hok
         end.
    all: repeat split; eauto; try discriminate; cbn;
      try (rewrite lookup_insert_eq; eauto); try congruence.
    all: try (rewrite Hi; eauto).
    all: try (rewrite Hs; eauto).
    all: try (apply Hok; reflexivity).
  - destruct (Ingress.patchOf (Ingress.TLS ingress) domain) as [path value].
    specialize (Hpatch Hdom).
    repeat case_match; cbn in *; simplify_eq.
    all: repeat split; try discriminate; cbn.
    all: try (eexists; split; [apply lookup_insert_eq | exact Hpatch]).
    all: try (rewrite lookup_insert_eq; eauto).
    all: eauto.
Qed.

(** X23. When AddDomain answers pending_ssl or ok, the ingress of the cluster
    has a TLS entry whose first host is the domain and the secret named
    after the domain exists. It answers ok only when both were there before
    the call and the domain serves a certificate that verifies and has not
    expired: the call that adds the domain or creates the secret answers
    pending_ssl. *)
Theorem AddDomain_serves_the_domain (env : Ingress.Env) (cfg : Ingress.Config)
  (k k' : Ingress.Cluster) (domain : string) (status : Ingress.DomainStatus) :
  Ingress.AddDomain env cfg k domain = (k', Some (status, None)) ->
  status <> Ingress.DomainStatusCNAME ->
  (exists ingress : Ingress.IngressObject,
      Ingress.ingresses k' !! Ingress.IngressName cfg = Some ingress
      /\ Ingress.domainInIngress (Ingress.TLS ingress) domain = Some true)
  /\ is_Some (Ingress.secrets k' !! domain)
  /\ (status = Ingress.DomainStatusOK ->
      Ingress.ingresses k' = Ingress.ingresses k /\ Ingress.secrets k' = Ingress.secrets k
      /\ exists expiry,
           Ingress.Dial env (domain +:+ ":443") = Ingress.Connected None expiry
           /\ (Ingress.Now env <= expiry)%Z).
Proof. apply AddDomain_serves. Qed.

Lemma AddDomain_serves_the_domain_witness :
  let r := Ingress.AddDomain Scenarios.resolves Scenarios.ingressConfig Scenarios.readyCluster
             "shop.example.com" in
  r.2 = Some (Ingress.DomainStatusIssuingCert, None)
  /\ (exists ingress : Ingress.IngressObject,
         Ingress.ingresses r.1 !! "jitsu-ingress" = Some ingress
         /\ Ingress.domainInIngress (Ingress.TLS ingress) "shop.example.com" = Some true)
  /\ is_Some (Ingress.secrets r.1 !! "shop.example.com").
Proof.
  cbv zeta. split; [vm_compute; reflexivity|].
  destruct (AddDomain_serves_the_domain Scenarios.resolves Scenarios.ingressConfig
              Scenarios.readyCluster
              (Ingress.AddDomain Scenarios.resolves Scenarios.ingressConfig
                 Scenarios.readyCluster "shop.example.com").1
              "shop.example.com" Ingress.DomainStatusIssuingCert) as (H1 & H2 & _).
  - vm_compute. reflexivity.
  - discriminate.
  - split; [exact H1 | exact H2].
Defined.

Lemma AddDomain_settled (env : Ingress.Env) (cfg : Ingress.Config) (k : Ingress.Cluster)
  (domain : string) (ingress : Ingress.IngressObject) :
  Ingress.ingresses k !! Ingress.IngressName cfg = Some ingress ->
  Ingress.domainInIngress (Ingress.TLS ingress) domain = Some true ->
  is_Some (Ingress.secrets k !! domain) ->
  let r := Ingress.AddDomain env cfg k domain in
  Ingress.ingresses r.1 = Ingress.ingresses k
  /\ Ingress.secrets r.1 = Ingress.secrets k
  /\ is_Some r.2
  /\ exists added : list Ingress.Call,
       Ingress.calls r.1 = Ingress.calls k ++ added
       /\ Forall (fun c => isPatch c = false) added.
Proof.
  intros Hing Hdom [secret Hsec]. unfold Ingress.AddDomain. cbn zeta.
  unfold Ingress.get, Ingress.create, Ingress.CheckCertificate.
  cbn [Ingress.logCall Ingress.ingresses Ingress.secrets].
  rewrite Hing.
  destruct (Ingress.LookupIP env domain) as [ips|e];
    [destruct (negb _); [|destruct (Ingress.GetIngress_fault env) as [[e|]|]]|].
  4: rewrite Hdom; cbn [negb orb Ingress.logCall Ingress.secrets]; rewrite Hsec.
  all: repeat case_match; simplify_eq.
  all: cbn [fst snd Ingress.ingresses Ingress.secrets Ingress.calls Ingress.logCall].
  all: split; [reflexivity|]. all: split; [reflexivity|]. all: split; [eauto|].
  all: rewrite <- ?app_assoc; eexists; (split; [reflexivity|]).
  all: repeat constructor.
Qed.

(** X24. AddDomain on a cluster that serves the domain changes nothing: once a
    call answered pending_ssl or ok, every later AddDomain for the domain --
    whatever the network and the API then answer -- leaves the ingress and
    the secrets as they are, sends no Patch and does not panic, so no second
    TLS entry of the domain is added. *)
Theorem AddDomain_adds_a_domain_once (env env' : Ingress.Env) (cfg : Ingress.Config)
  (k k' : Ingress.Cluster) (domain : string) (status : Ingress.DomainStatus) :
  Ingress.AddDomain env cfg k domain = (k', Some (status, None)) ->
  status <> Ingress.DomainStatusCNAME ->
  let r := Ingress.AddDomain env' cfg k' domain in
  Ingress.ingresses r.1 = Ingress.ingresses k'
  /\ Ingress.secrets r.1 = Ingress.secrets k'
  /\ is_Some r.2
  /\ exists added : list Ingress.Call,
       Ingress.calls r.1 = Ingress.calls k' ++ added
       /\ Forall (fun c => isPatch c = false) added.
Proof.
  intros H Hst.
  destruct (AddDomain_serves _ _ _ _ _ _ H Hst) as ((ingress & Hing & Hdom) & Hsec & _).
  exact (AddDomain_settled env' cfg k' domain ingress Hing Hdom Hsec).
Qed.

Lemma AddDomain_adds_a_domain_once_witness :
  let first := Ingress.AddDomain Scenarios.resolves Scenarios.ingressConfig
                 Scenarios.readyCluster "shop.example.com" in
  let second := Ingress.AddDomain Scenarios.resolves Scenarios.ingressConfig first.1
                  "shop.example.com" in
  second.2 = Some (Ingress.DomainStatusOK, None)
  /\ Ingress.ingresses second.1 = Ingress.ingresses first.1
  /\ Ingress.secrets second.1 = Ingress.secrets first.1.
Proof.
  cbv zeta. split; [vm_compute; reflexivity|].
  destruct (AddDomain_adds_a_domain_once Scenarios.resolves Scenarios.resolves
              Scenarios.ingressConfig Scenarios.readyCluster
              (Ingress.AddDomain Scenarios.resolves Scenarios.ingressConfig
                 Scenarios.readyCluster "shop.example.com").1
              "shop.example.com" Ingress.DomainStatusIssuingCert) as (H1 & H2 & _).
  - vm_compute. reflexivity.
  - discriminate.
  - split; [exact H1 | exact H2].
Defined.

(** X25. Init of the manager answers nil only with the ingress in place, and it
    creates the ingress only when the cluster has none and the initial set-up
    is on, with no TLS entry; when it answers an error the cluster is what it
    was. It never touches an ingress that exists. *)
Theorem Init_creates_only_a_missing_ingress (env : Ingress.Env) (cfg : Ingress.Config)
  (k : Ingress.Cluster) :
  let r := Ingress.Init env cfg k in
  Ingress.secrets r.1 = Ingress.secrets k
  /\ match r.2 with
     | None =>
         exists ingress : Ingress.IngressObject,
           Ingress.ingresses r.1 !! Ingress.IngressName cfg = Some ingress
           /\ (Ingress.ingresses r.1 = Ingress.ingresses k
               \/ (Ingress.InitialSetup cfg = true
                   /\ Ingress.ingresses k !! Ingress.IngressName cfg = None
                   /\ ingress = Ingress.newIngress cfg
                   /\ Ingress.TLS ingress = []
                   /\ Ingress.ingresses r.1
                      = <[Ingress.IngressName cfg := ingress]> (Ingress.ingresses k)))
     | Some _ => Ingress.ingresses r.1 = Ingress.ingresses k
     end.
Proof.
  unfold Ingress.Init, Ingress.get, Ingress.create. cbn zeta.
  cbn [Ingress.logCall Ingress.ingresses Ingress.secrets].
  repeat case_match; cbn in *; simplify_eq; split; try reflexivity.
  all: try (eexists; split; [eassumption | left; reflexivity]).
  all: eexists; split; [apply lookup_insert_eq|]; right;
    repeat split; try reflexivity; try assumption.
  all: match goal with H : negb _ = false |- _ => apply negb_false_iff in H; exact H end.
Qed.
